(** * extract_loudest_section: WAV codec and loudest-segment trimmer

    A shallow embedding of [wav_io.cc] (the 16-bit PCM WAV encoder and
    decoder), [main.cc] ([TrimToLoudestSegment], [TrimFile]) and the part of
    [status.h] they use, followed by the properties of the specification.

    Conventions of the embedding:
    - machine integers are [Z] with the wrap-around of their C++ type written
      out ([to_int], [to_uint32], [to_size_t], ...); [size_t] is 64 bits wide
      and [int] 32 bits wide, as on the Linux and macOS targets of the
      Makefile and the Xcode project;
    - a byte is an [ascii], a byte buffer and a [std::string] are
      [list ascii]; the host is little-endian, so the [memcpy] of an integer
      reads and writes its bytes in little-endian order;
    - [float] is IEEE-754 binary32, modelled by [spec_float] with the
      operations of [SpecFloat] at precision 24 and maximal exponent 128;
    - a function returning [Status] with out-parameters returns an
      [Outcome]: the out-parameters on success, the error code and message
      on failure, or [Undef] where C++ leaves the behaviour undefined;
    - the chunk scan of the decoder need not terminate, so it takes fuel. *)

From Stdlib Require Import ZArith List String Ascii Bool Lia.
From Stdlib Require Import DecimalString.
From Stdlib Require Import Floats.SpecFloat.
Import ListNotations.

Local Open Scope string_scope.
Local Open Scope list_scope.
Local Open Scope Z_scope.

(* ================================================================= *)
(** ** Machine integers *)

Module MachineInt.

(** Value of an unsigned [w]-bit object holding the mathematical [z]. *)
Definition wrap_unsigned (w : Z) (z : Z) : Z := z mod 2 ^ w.

(** Value of a signed two's-complement [w]-bit object. *)
Definition wrap_signed (w : Z) (z : Z) : Z :=
  (z + 2 ^ (w - 1)) mod 2 ^ w - 2 ^ (w - 1).

Definition to_uint16 := wrap_unsigned 16.
Definition to_uint32 := wrap_unsigned 32.
Definition to_size_t := wrap_unsigned 64.
Definition to_int16 := wrap_signed 16.
Definition to_int := wrap_signed 32.

(** The limits declared at the top of [wav_io.cc]. *)
Definition kuint16max : Z := 65535.
Definition kuint32max : Z := 4294967295.
Definition kint16min : Z := -32768.
Definition kint16max : Z := 32767.
Definition kint64min : Z := - 2 ^ 63.
Definition kint64max : Z := 2 ^ 63 - 1.

Definition in_int64 (z : Z) : bool := (kint64min <=? z) && (z <=? kint64max).

End MachineInt.
Import MachineInt.

(* ================================================================= *)
(** ** Bytes and little-endian fields *)

Definition bytes := list ascii.

Definition byte_val (b : ascii) : Z := Z.of_N (N_of_ascii b).
Definition mk_byte (z : Z) : ascii := ascii_of_N (Z.to_N (z mod 256)).

(** [memcpy] of a little-endian integer out of a byte range. *)
Fixpoint le_value (bs : bytes) : Z :=
  match bs with
  | [] => 0
  | b :: rest => byte_val b + 256 * le_value rest
  end.

(** [memcpy] of the [n] low bytes of [v] into a buffer, little-endian. *)
Fixpoint le_bytes (n : nat) (v : Z) : bytes :=
  match n with
  | O => []
  | S n' => mk_byte v :: le_bytes n' (v / 256)
  end.

Definition EncodeFixed16 (value : Z) : bytes := le_bytes 2 value.
Definition EncodeFixed32 (value : Z) : bytes := le_bytes 4 value.

(** The bytes [data + offset .. data + offset + n). *)
Definition slice (data : bytes) (offset n : Z) : bytes :=
  firstn (Z.to_nat n) (skipn (Z.to_nat offset) data).

Definition bytes_eqb (a b : bytes) : bool :=
  if list_eq_dec ascii_dec a b then true else false.

Definition text (s : string) : bytes := list_ascii_of_string s.
Definition show_bytes (b : bytes) : string := string_of_list_ascii b.

(** What [operator<<] prints for an unsigned integer. *)
Definition show_Z (z : Z) : string := NilZero.string_of_uint (N.to_uint (Z.to_N z)).

(* ================================================================= *)
(** ** status.h *)

Module error.
Inductive Code : Set :=
| OK | CANCELLED | UNKNOWN | INVALID_ARGUMENT | DEADLINE_EXCEEDED
| NOT_FOUND | ALREADY_EXISTS | PERMISSION_DENIED | UNAUTHENTICATED
| RESOURCE_EXHAUSTED | FAILED_PRECONDITION | ABORTED | OUT_OF_RANGE
| UNIMPLEMENTED | INTERNAL | UNAVAILABLE | DATA_LOSS.
End error.

(** [Status]: a null [state_] is success, otherwise a code and a message. *)
Inductive Status : Type :=
| StatusOK
| StatusError (code : error.Code) (msg : string).

Definition ok (s : Status) : bool :=
  match s with StatusOK => true | StatusError _ _ => false end.

Definition code (s : Status) : error.Code :=
  match s with StatusOK => error.OK | StatusError c _ => c end.

Definition error_message (s : Status) : string :=
  match s with StatusOK => EmptyString | StatusError _ m => m end.

Module errors.
(** [DECLARE_ERROR(InvalidArgument, INVALID_ARGUMENT)]: the message is the
    concatenation of the streamed arguments. *)
Definition InvalidArgument (args : list string) : Status :=
  StatusError error.INVALID_ARGUMENT (String.concat "" args).

Definition IsInvalidArgument (s : Status) : bool :=
  match code s with error.INVALID_ARGUMENT => true | _ => false end.
End errors.

(** Result of a [Status]-returning function together with what it stored
    through its out-parameters. *)
Inductive Outcome (A : Type) : Type :=
| Ret (a : A)                 (* returned [Status::OK()] *)
| Fail (s : Status)           (* returned an error status *)
| Undef.                      (* undefined behaviour *)
Arguments Ret {A} a.
Arguments Fail {A} s.
Arguments Undef {A}.

(** [TF_RETURN_IF_ERROR]: stop at the first status that is not OK. *)
Definition bind {A B} (m : Outcome A) (k : A -> Outcome B) : Outcome B :=
  match m with
  | Ret a => k a
  | Fail s => Fail s
  | Undef => Undef
  end.

Declare Scope outcome_scope.
Delimit Scope outcome_scope with outcome.
Notation "'let*' x ':=' m 'in' k" :=
  (bind m (fun x => k))
  (at level 10, x pattern, m at level 100, k at level 200) : outcome_scope.
Local Open Scope outcome_scope.

(* ================================================================= *)
(** ** Single-precision floating point *)

Module Float32.

Definition prec : Z := 24.
Definition emax : Z := 128.

Definition float : Set := spec_float.

Definition zero : float := S754_zero false.
Definition add : float -> float -> float := SFadd prec emax.
Definition sub : float -> float -> float := SFsub prec emax.
Definition mul : float -> float -> float := SFmul prec emax.
Definition div : float -> float -> float := SFdiv prec emax.
Definition fabsf : float -> float := SFabs.
Definition ltb : float -> float -> bool := SFltb.
Definition gtb (a b : float) : bool := SFltb b a.

(** Conversion of an integer to [float] (round to nearest, ties to even). *)
Definition of_Z (z : Z) : float := binary_normalize prec emax z 0 false.

(** [m * 2^e] for an integer [m] (exact when representable). *)
Definition of_scaled (m e : Z) : float := binary_normalize prec emax m e false.

(** [std::max<float>(a, b)] is [(a < b) ? b : a] and
    [std::min<float>(a, b)] is [(b < a) ? b : a]. *)
Definition max (a b : float) : float := if ltb a b then b else a.
Definition min (a b : float) : float := if ltb b a then b else a.

(** [roundf]: to the nearest integer, halfway cases away from zero. *)
Definition roundf (x : float) : float :=
  match x with
  | S754_finite s m e =>
      if 0 <=? e then x
      else
        let d := 2 ^ (- e) in
        let q := Zpos m / d in
        let r := Zpos m mod d in
        let q' := if d <=? 2 * r then q + 1 else q in
        binary_normalize prec emax (cond_Zopp s q') 0 s
  | _ => x
  end.

(** Conversion of a [float] to an integer type: the value truncated
    toward zero; there is none for NaN and the infinities. *)
Definition trunc (x : float) : option Z :=
  match x with
  | S754_zero _ => Some 0
  | S754_finite s m e =>
      Some (cond_Zopp s (if 0 <=? e then Zpos m * 2 ^ e
                         else Zpos m / 2 ^ (- e)))
  | _ => None
  end.

End Float32.

(** [FloatToInt16Sample]: scale, round, clamp to the [int16_t] range, and
    convert.  The conversion of a NaN is undefined ([None]). *)
Definition FloatToInt16Sample (data : Float32.float) : option Z :=
  let kMultiplier := Float32.of_Z (2 ^ 15) in
  let clamped :=
    Float32.min
      (Float32.max (Float32.roundf (Float32.mul data kMultiplier))
                   (Float32.of_Z kint16min))
      (Float32.of_Z kint16max) in
  match Float32.trunc clamped with
  | Some z => if (kint16min <=? z) && (z <=? kint16max) then Some z else None
  | None => None
  end.

(** [Int16SampleToFloat]: the sample times [1.0f / (1 << 15)]. *)
Definition Int16SampleToFloat (data : Z) : Float32.float :=
  let kMultiplier := Float32.of_scaled 1 (-15) in
  Float32.mul (Float32.of_Z data) kMultiplier.

(* ================================================================= *)
(** ** wav_io.cc: the chunk reader *)

Definition kRiffChunkId : bytes := text "RIFF".
Definition kRiffType : bytes := text "WAVE".
Definition kFormatChunkId : bytes := text "fmt ".
Definition kDataChunkId : bytes := text "data".

(** [sizeof(WavHeader)]: RIFF chunk (12), format chunk (24), data chunk (8). *)
Definition kHeaderSize : Z := 44.

(** [ExpectText(data, data_length, expected_text, &offset)].  The sum
    [*offset + expected_text.size()] is computed in [size_t] and narrowed to
    [int]; the comparison with [data_length] is made in [size_t].  Building
    [found_text] from a range that does not lie inside the buffer is
    undefined. *)
Definition ExpectText (data : bytes) (data_length : Z) (expected_text : bytes)
    (offset : Z) : Outcome Z :=
  let new_offset :=
    to_int (to_size_t (to_size_t offset + Z.of_nat (List.length expected_text))) in
  if to_size_t new_offset >? data_length then
    Fail (errors.InvalidArgument
            ["Data too short when trying to read "; show_bytes expected_text])
  else if (offset <? 0) || (new_offset <? offset) then Undef
  else
    let found_text := slice data offset (new_offset - offset) in
    if negb (bytes_eqb found_text expected_text) then
      Fail (errors.InvalidArgument
              ["Header mismatch: Expected "; show_bytes expected_text;
               " but found "; show_bytes found_text])
    else Ret new_offset.

(** [ReadValue<T>(data, data_length, &value, &offset)] for a [T] of
    [sizeof_T] bytes; [interp] reads the copied bytes as a [T]. *)
Definition ReadValue (sizeof_T : Z) (interp : Z -> Z) (data : bytes)
    (data_length : Z) (offset : Z) : Outcome (Z * Z) :=
  let new_offset := to_int (to_size_t (to_size_t offset + sizeof_T)) in
  if to_size_t new_offset >? data_length then
    Fail (errors.InvalidArgument ["Data too short when trying to read value"])
  else if (offset <? 0) || (new_offset <? offset) then Undef
  else Ret (interp (le_value (slice data offset sizeof_T)), new_offset).

Definition ReadValue_uint32 := ReadValue 4 (fun v => v).
Definition ReadValue_uint16 := ReadValue 2 (fun v => v).
Definition ReadValue_int16 := ReadValue 2 to_int16.

(** [ReadString(data, data_length, expected_length, &value, &offset)].  Here
    [*offset + expected_length] is an [int] addition, whose overflow is
    undefined. *)
Definition ReadString (data : bytes) (data_length : Z) (expected_length : Z)
    (offset : Z) : Outcome (bytes * Z) :=
  if 2 ^ 31 - 1 <? offset + expected_length then Undef
  else
    let new_offset := offset + expected_length in
    if to_size_t new_offset >? data_length then
      Fail (errors.InvalidArgument ["Data too short when trying to read string"])
    else if (offset <? 0) || (new_offset <? offset) then Undef
    else Ret (slice data offset expected_length, new_offset).

(* ================================================================= *)
(** ** wav_io.cc: the decoder *)

(** What the decoder has stored through its out-parameters when it returns
    [Status::OK()]. *)
Record DecodedWav : Type := mkDecodedWav {
  float_values : list Float32.float;
  sample_count : Z;
  channel_count : Z;
  sample_rate : Z
}.

(** The format-chunk fields the chunk scan depends on. *)
Record FormatInfo : Type := mkFormatInfo {
  fmt_channel_count : Z;
  fmt_sample_rate : Z;
  fmt_bytes_per_sample : Z
}.

(** The first part of [DecodeLin16WaveAsFloatVector], up to the chunk scan:
    the RIFF and format chunks.  Returns the fields read and the cursor. *)
Definition decode_format_chunk (wav_data : bytes) (wav_length : Z)
    : Outcome (FormatInfo * Z) :=
  let offset := 0 in
  let* offset := ExpectText wav_data wav_length kRiffChunkId offset in
  let* (total_file_size, offset) :=
    ReadValue_uint32 wav_data wav_length offset in
  let* offset := ExpectText wav_data wav_length kRiffType offset in
  let* offset := ExpectText wav_data wav_length kFormatChunkId offset in
  let* (format_chunk_size, offset) :=
    ReadValue_uint32 wav_data wav_length offset in
  if negb (format_chunk_size =? 16) && negb (format_chunk_size =? 18) then
    Fail (errors.InvalidArgument
            ["Bad file size for WAV: Expected 16 or 18, but got";
             show_Z format_chunk_size])
  else
  let* (audio_format, offset) :=
    ReadValue_uint16 wav_data wav_length offset in
  if negb (audio_format =? 1) then
    Fail (errors.InvalidArgument
            ["Bad audio format for WAV: Expected 1 (PCM), but got";
             show_Z audio_format])
  else
  let* (channel_count, offset) :=
    ReadValue_uint16 wav_data wav_length offset in
  let* (sample_rate, offset) :=
    ReadValue_uint32 wav_data wav_length offset in
  let* (bytes_per_second, offset) :=
    ReadValue_uint32 wav_data wav_length offset in
  let* (bytes_per_sample, offset) :=
    ReadValue_uint16 wav_data wav_length offset in
  let* (bits_per_sample, offset) :=
    ReadValue_uint16 wav_data wav_length offset in
  if negb (bits_per_sample =? 16) then
    Fail (errors.InvalidArgument
            ["Can only read 16-bit WAV files, but received ";
             show_Z bits_per_sample])
  else
  let expected_bytes_per_sample :=
    to_uint32 ((bits_per_sample * channel_count + 7) / 8) in
  if negb (bytes_per_sample =? expected_bytes_per_sample) then
    Fail (errors.InvalidArgument
            ["Bad bytes per sample in WAV header: Expected ";
             show_Z expected_bytes_per_sample; " but got ";
             show_Z bytes_per_sample])
  else
  let expected_bytes_per_second := to_uint32 (bytes_per_sample * sample_rate) in
  if negb (bytes_per_second =? expected_bytes_per_second) then
    Fail (errors.InvalidArgument
            ["Bad bytes per second in WAV header: Expected ";
             show_Z expected_bytes_per_second; " but got ";
             show_Z bytes_per_second; " (sample_rate="; show_Z sample_rate;
             ", bytes_per_sample="; show_Z bytes_per_sample; ")"])
  else
  let offset := if format_chunk_size =? 18 then offset + 2 else offset in
  Ret (mkFormatInfo channel_count sample_rate bytes_per_sample, offset).

(** The inner loop of a data chunk: [n] consecutive [int16_t] values, each
    converted with [Int16SampleToFloat]. *)
Fixpoint read_samples (n : nat) (wav_data : bytes) (wav_length : Z)
    (offset : Z) : Outcome (list Float32.float * Z) :=
  match n with
  | O => Ret ([], offset)
  | S n' =>
      let* (single_channel_value, offset) :=
        ReadValue_int16 wav_data wav_length offset in
      let* (rest, offset) := read_samples n' wav_data wav_length offset in
      Ret (Int16SampleToFloat single_channel_value :: rest, offset)
  end.

(** The variables the chunk scan updates. *)
Record ScanState : Type := mkScanState {
  scan_offset : Z;
  was_data_found : bool;
  scan_sample_count : Z;
  scan_float_values : list Float32.float
}.

(** The loop condition [offset < wav_length], an [int] against a [size_t]. *)
Definition scan_continues (wav_length : Z) (st : ScanState) : bool :=
  to_size_t (scan_offset st) <? wav_length.

(** One iteration of the [while] loop over the chunks. *)
Definition scan_chunk (wav_data : bytes) (wav_length : Z) (fmt : FormatInfo)
    (st : ScanState) : Outcome ScanState :=
  let* (chunk_id, offset) :=
    ReadString wav_data wav_length 4 (scan_offset st) in
  let* (chunk_size, offset) := ReadValue_uint32 wav_data wav_length offset in
  if bytes_eqb chunk_id kDataChunkId then
    if was_data_found st then
      Fail (errors.InvalidArgument ["More than one data chunk found in WAV"])
    else if fmt_bytes_per_sample fmt =? 0 then Undef
    else
      let sample_count := chunk_size / fmt_bytes_per_sample fmt in
      let data_count := to_uint32 (sample_count * fmt_channel_count fmt) in
      let* (values, offset) :=
        read_samples (Z.to_nat data_count) wav_data wav_length offset in
      Ret (mkScanState offset true sample_count values)
  else
    Ret (mkScanState (to_int (to_uint32 (to_uint32 offset + chunk_size)))
                     (was_data_found st) (scan_sample_count st)
                     (scan_float_values st)).

(** The chunk scan and the final test.  [None] means that [fuel]
    iterations did not finish the loop. *)
Fixpoint scan_chunks (fuel : nat) (wav_data : bytes) (wav_length : Z)
    (fmt : FormatInfo) (st : ScanState) : option (Outcome DecodedWav) :=
  if scan_continues wav_length st then
    match fuel with
    | O => None
    | S fuel' =>
        match scan_chunk wav_data wav_length fmt st with
        | Ret st' => scan_chunks fuel' wav_data wav_length fmt st'
        | Fail s => Some (Fail s)
        | Undef => Some Undef
        end
    end
  else if negb (was_data_found st) then
    Some (Fail (errors.InvalidArgument ["No data chunk found in WAV"]))
  else
    Some (Ret (mkDecodedWav (scan_float_values st) (scan_sample_count st)
                            (fmt_channel_count fmt) (fmt_sample_rate fmt))).

(** The state before the first iteration.  [*sample_count] and
    [*float_values] are whatever the caller passed; they are read only after
    a data chunk has set them. *)
Definition scan_start (offset : Z) : ScanState := mkScanState offset false 0 [].

Definition DecodeLin16WaveAsFloatVector (fuel : nat) (wav_data : bytes)
    (wav_length : Z) : option (Outcome DecodedWav) :=
  match decode_format_chunk wav_data wav_length with
  | Ret (fmt, offset) =>
      scan_chunks fuel wav_data wav_length fmt (scan_start offset)
  | Fail s => Some (Fail s)
  | Undef => Some Undef
  end.

(* ================================================================= *)
(** ** wav_io.cc: the encoder *)

(** The loop that writes the audio: sample [i] of [audio] is converted and
    stored at bytes [2 i] and [2 i + 1] of the data area.  Reading past the
    end of [audio] and converting a NaN are undefined. *)
Fixpoint write_audio (n : nat) (audio : list Float32.float) (i : Z)
    : Outcome bytes :=
  match n with
  | O => Ret []
  | S n' =>
      match nth_error audio (Z.to_nat i) with
      | None => Undef
      | Some x =>
          match FloatToInt16Sample x with
          | None => Undef
          | Some sample =>
              let* rest := write_audio n' audio (i + 1) in
              Ret (EncodeFixed16 (to_uint16 sample) ++ rest)
          end
      end
  end.

(** [EncodeAudioAsS16LEWav(audio, sample_rate, num_channels, num_frames,
    wav_string)].  A null pointer is [None].  [Ret b]: the call returned
    OK and [*wav_string] now holds [b].  [Fail s]: the call returned [s];
    every failing return precedes [wav_string->resize], so [*wav_string] is
    as it was.  All sizes are [size_t]. *)
Definition EncodeAudioAsS16LEWav (audio : option (list Float32.float))
    (sample_rate num_channels num_frames : Z) (wav_string : option bytes)
    : Outcome bytes :=
  let kFormatChunkSize := 16 in
  let kCompressionCodePcm := 1 in
  let kBitsPerSample := 16 in
  let kBytesPerSample := kBitsPerSample / 8 in
  match audio, wav_string with
  | None, _ => Fail (errors.InvalidArgument ["audio is null"])
  | Some _, None => Fail (errors.InvalidArgument ["wav_string is null"])
  | Some audio, Some _ =>
    if (sample_rate =? 0) || (sample_rate >? kuint32max) then
      Fail (errors.InvalidArgument
              ["sample_rate must be in (0, 2^32), got: "; show_Z sample_rate])
    else if (num_channels =? 0) || (num_channels >? kuint16max) then
      Fail (errors.InvalidArgument
              ["num_channels must be in (0, 2^16), got: "; show_Z num_channels])
    else if num_frames =? 0 then
      Fail (errors.InvalidArgument ["num_frames must be positive."])
    else
      let bytes_per_second := to_size_t (sample_rate * kBytesPerSample) in
      let num_samples := to_size_t (num_frames * num_channels) in
      let data_size := to_size_t (num_samples * kBytesPerSample) in
      let file_size :=
        to_size_t (kHeaderSize + to_size_t (num_samples * kBytesPerSample)) in
      let bytes_per_frame := to_size_t (kBytesPerSample * num_channels) in
      if file_size >? kuint32max then
        Fail (errors.InvalidArgument
                ["Provided channels and frames cannot be encoded as a WAV."])
      else if negb (file_size =? kHeaderSize + kBytesPerSample * num_samples)
      then Undef  (* the header or the samples would overrun the string *)
      else
        let riff_chunk :=
          kRiffChunkId ++ EncodeFixed32 (to_uint32 (file_size - 8))
          ++ kRiffType in
        let format_chunk :=
          kFormatChunkId ++ EncodeFixed32 (to_uint32 kFormatChunkSize)
          ++ EncodeFixed16 (to_uint16 kCompressionCodePcm)
          ++ EncodeFixed16 (to_uint16 num_channels)
          ++ EncodeFixed32 (to_uint32 sample_rate)
          ++ EncodeFixed32 (to_uint32 bytes_per_second)
          ++ EncodeFixed16 (to_uint16 bytes_per_frame)
          ++ EncodeFixed16 (to_uint16 kBitsPerSample) in
        let data_chunk :=
          kDataChunkId ++ EncodeFixed32 (to_uint32 data_size) in
        let* samples := write_audio (Z.to_nat num_samples) audio 0 in
        Ret (riff_chunk ++ format_chunk ++ data_chunk ++ samples)
  end.

(* ================================================================= *)
(** ** main.cc: the loudest-segment finder *)

(** [v[i]] on a [std::vector<float>]; out of range is undefined. *)
Definition vec_at (v : list Float32.float) (i : Z) : option Float32.float :=
  if i <? 0 then None else nth_error v (Z.to_nat i).

(** The first loop of [TrimToLoudestSegment]: the volume of the window that
    starts the buffer ([n] iterations left, next index [i]). *)
Fixpoint first_window_volume (n : nat) (input : list Float32.float) (i : Z)
    (current_volume_sum : Float32.float) : option Float32.float :=
  match n with
  | O => Some current_volume_sum
  | S n' =>
      match vec_at input i with
      | None => None
      | Some input_value =>
          first_window_volume n' input (i + 1)
            (Float32.add current_volume_sum (Float32.fabsf input_value))
      end
  end.

(** The second loop: slide the window, keep the loudest volume seen and the
    index recorded with it.  Returns the final [loudest_end_index]. *)
Fixpoint slide_window (n : nat) (input : list Float32.float)
    (desired_samples i : Z) (current_volume_sum loudest_volume : Float32.float)
    (loudest_end_index : Z) : option Z :=
  match n with
  | O => Some loudest_end_index
  | S n' =>
      match vec_at input (i - desired_samples), vec_at input i with
      | Some trailing_value, Some leading_value =>
          let current_volume_sum :=
            Float32.sub current_volume_sum (Float32.fabsf trailing_value) in
          let current_volume_sum :=
            Float32.add current_volume_sum (Float32.fabsf leading_value) in
          if Float32.gtb current_volume_sum loudest_volume
          then slide_window n' input desired_samples (i + 1)
                 current_volume_sum current_volume_sum i
          else slide_window n' input desired_samples (i + 1)
                 current_volume_sum loudest_volume loudest_end_index
      | _, _ => None
      end
  end.

(** [std::copy(input.begin() + first, input.begin() + last, ...)] into a
    vector resized to [last - first]. *)
Definition copy_range (input : list Float32.float) (first last : Z)
    : option (list Float32.float) :=
  if (0 <=? first) && (first <=? last)
     && (last <=? Z.of_nat (List.length input))
  then Some (firstn (Z.to_nat (last - first)) (skipn (Z.to_nat first) input))
  else None.

(** [TrimToLoudestSegment(input, desired_samples, &output)]; [None] is
    undefined behaviour. *)
Definition TrimToLoudestSegment (input : list Float32.float)
    (desired_samples : Z) : option (list Float32.float) :=
  let input_size := Z.of_nat (List.length input) in
  if desired_samples >=? input_size then Some input
  else
    match first_window_volume (Z.to_nat desired_samples) input 0 Float32.zero
    with
    | None => None
    | Some current_volume_sum =>
        match slide_window (Z.to_nat (input_size - desired_samples)) input
                desired_samples desired_samples current_volume_sum
                current_volume_sum desired_samples
        with
        | None => None
        | Some loudest_end_index =>
            let loudest_start_index := loudest_end_index - desired_samples in
            copy_range input loudest_start_index loudest_end_index
        end
    end.

(* ================================================================= *)
(** ** main.cc: the trim pipeline *)

(** The inner loop of the downmix: add the [n] remaining channel values of
    the frame at [frame_index], starting with channel [c]. *)
Fixpoint sum_channels (n : nat) (wav_samples : list Float32.float)
    (frame_index c : Z) (total : Float32.float) : option Float32.float :=
  match n with
  | O => Some total
  | S n' =>
      if 2 ^ 31 - 1 <? frame_index + c then None
      else
        match vec_at wav_samples (frame_index + c) with
        | None => None
        | Some x =>
            sum_channels n' wav_samples frame_index (c + 1) (Float32.add total x)
        end
  end.

(** The outer loop of the downmix: mono samples [i], [i + 1], ... *)
Fixpoint downmix_frames (n : nat) (wav_samples : list Float32.float)
    (channel_count : Z) (i : Z) : option (list Float32.float) :=
  match n with
  | O => Some []
  | S n' =>
      let frame_index := i * channel_count in
      if 2 ^ 31 - 1 <? frame_index then None
      else
        match sum_channels (Z.to_nat channel_count) wav_samples frame_index 0
                Float32.zero with
        | None => None
        | Some total =>
            match downmix_frames n' wav_samples channel_count (i + 1) with
            | None => None
            | Some rest =>
                Some (Float32.div total (Float32.of_Z channel_count) :: rest)
            end
        end
  end.

(** The body of [if (channel_count != 1)] in [TrimFile]: the new value of
    [wav_samples].  [sample_count] and [channel_count] are the values the
    decoder stored.  A zero divisor is undefined, and a negative
    [mono_sample_count] makes the vector constructor throw. *)
Definition downmix_to_mono (wav_samples : list Float32.float)
    (sample_count channel_count : Z) : option (list Float32.float) :=
  if channel_count =? 0 then None
  else
    let mono_sample_count := to_int (sample_count / channel_count) in
    if mono_sample_count <? 0 then None
    else downmix_frames (Z.to_nat mono_sample_count) wav_samples channel_count 0.

(** [v.data()]: libstdc++ and libc++ give the null pointer for a vector
    that never allocated, which an empty result of [TrimToLoudestSegment]
    is. *)
Definition vector_data (v : list Float32.float)
    : option (list Float32.float) :=
  match v with
  | [] => None
  | _ => Some v
  end.

(** What [TrimFile] does to the outside world, in order. *)
Inductive Event : Type :=
| LogDecodeFailed (load_wav_status : Status)
| LogSkipped (average_volume : Float32.float)
| CallEncode (audio : option (list Float32.float))
             (sample_rate num_channels num_frames : Z)
             (save_wav_status : Status)
| WriteOutputFile (contents : bytes)
| LogSaved.

Inductive TrimOutcome : Type :=
| Returned (s : Status) (events : list Event)
| TrimUndef.

(** The loop that adds up the volume of the trimmed samples. *)
Definition total_volume_of (trimmed_samples : list Float32.float)
    : Float32.float :=
  fold_left (fun total_volume trimmed_sample =>
               Float32.add total_volume (Float32.fabsf trimmed_sample))
            trimmed_samples Float32.zero.

(** Lines 426-443 of [TrimFile]: the downmix, the number of samples asked
    for and the call of [TrimToLoudestSegment].  Returns [trimmed_samples]
    and [desired_samples]; [None] is undefined behaviour.  The product
    [desired_length_ms * sample_rate] is an [int64_t], whose overflow is
    undefined. *)
Definition loudest_slice (wav : DecodedWav) (desired_length_ms : Z)
    : option (list Float32.float * Z) :=
  match (if negb (channel_count wav =? 1)
         then downmix_to_mono (float_values wav) (sample_count wav)
                (channel_count wav)
         else Some (float_values wav)) with
  | None => None
  | Some wav_samples =>
      if negb (in_int64 (desired_length_ms * sample_rate wav)) then None
      else
        let desired_samples :=
          Z.quot (desired_length_ms * sample_rate wav) 1000 in
        match TrimToLoudestSegment wav_samples desired_samples with
        | None => None
        | Some trimmed_samples => Some (trimmed_samples, desired_samples)
        end
  end.

(** [total_volume / desired_samples]: the [int64_t] is converted to
    [float], and the division follows IEEE 754 (a zero divisor gives a NaN
    or an infinity). *)
Definition average_volume_of (trimmed_samples : list Float32.float)
    (desired_samples : Z) : Float32.float :=
  Float32.div (total_volume_of trimmed_samples) (Float32.of_Z desired_samples).

(** [TrimFile(input_filename, output_filename, desired_length_ms,
    min_volume)], on the contents [input_file] of the input file.
    [None]: the decoder did not finish within [fuel] iterations. *)
Definition TrimFile (fuel : nat) (input_file : bytes) (desired_length_ms : Z)
    (min_volume : Float32.float) : option TrimOutcome :=
  match DecodeLin16WaveAsFloatVector fuel input_file
          (Z.of_nat (List.length input_file)) with
  | None => None
  | Some Undef => Some TrimUndef
  | Some (Fail load_wav_status) =>
      Some (Returned load_wav_status [LogDecodeFailed load_wav_status])
  | Some (Ret wav) =>
      Some
        (match loudest_slice wav desired_length_ms with
         | None => TrimUndef
         | Some (trimmed_samples, desired_samples) =>
             let average_volume :=
               average_volume_of trimmed_samples desired_samples in
             if Float32.ltb average_volume min_volume then
               Returned StatusOK [LogSkipped average_volume]
             else
               let audio := vector_data trimmed_samples in
               let num_frames := Z.of_nat (List.length trimmed_samples) in
               match EncodeAudioAsS16LEWav audio (sample_rate wav) 1
                       num_frames (Some []) with
               | Undef => TrimUndef
               | Fail save_wav_status =>
                   Returned StatusOK
                     [CallEncode audio (sample_rate wav) 1 num_frames
                        save_wav_status;
                      WriteOutputFile []; LogSaved]
               | Ret output_wav_data =>
                   Returned StatusOK
                     [CallEncode audio (sample_rate wav) 1 num_frames StatusOK;
                      WriteOutputFile output_wav_data; LogSaved]
               end
         end)
  end.

(** The parameters [main] passes to [TrimFile]. *)
Definition main_desired_length_ms : Z := 1000.
Definition main_min_volume : Float32.float :=   (* 0.004f *)
  S754_finite false 8589935 (-31).

(* ================================================================= *)
(** ** The file layout and sample inputs *)

(** A little-endian field of the file, by its position (the packed structs
    [RiffChunk] and [FormatChunk]). *)
Definition field (wav : bytes) (offset size : Z) : Z :=
  le_value (slice wav offset size).

Definition header_format_chunk_size (wav : bytes) : Z := field wav 16 4.
Definition header_compression_code (wav : bytes) : Z := field wav 20 2.
Definition header_channel_count (wav : bytes) : Z := field wav 22 2.
Definition header_sample_rate (wav : bytes) : Z := field wav 24 4.
Definition header_bytes_per_second (wav : bytes) : Z := field wav 28 4.
Definition header_bytes_per_frame (wav : bytes) : Z := field wav 32 2.
Definition header_bits_per_sample (wav : bytes) : Z := field wav 34 2.

(** The three literals of the header are in place. *)
Definition has_magic (wav : bytes) : Prop :=
  slice wav 0 4 = kRiffChunkId /\ slice wav 8 4 = kRiffType
  /\ slice wav 12 4 = kFormatChunkId.

(** The values the decoder recomputes from the header: the bytes of one
    frame, and the bytes of one second, the latter in 32-bit unsigned
    arithmetic. *)
Definition expected_bytes_per_frame (wav : bytes) : Z :=
  (header_bits_per_sample wav * header_channel_count wav + 7) / 8.

Definition expected_bytes_per_second (wav : bytes) : Z :=
  (header_bytes_per_frame wav * header_sample_rate wav) mod 2 ^ 32.

(** The format chunk passes every test of the decoder. *)
Definition format_chunk_accepted (wav : bytes) : Prop :=
  (header_format_chunk_size wav = 16 \/ header_format_chunk_size wav = 18)
  /\ header_compression_code wav = 1
  /\ header_bits_per_sample wav = 16
  /\ header_bytes_per_frame wav = expected_bytes_per_frame wav
  /\ header_bytes_per_second wav = expected_bytes_per_second wav.

(** The id, the declared size and the position of the payload of the chunk
    whose header starts at [offset], when both reads succeed. *)
Definition chunk_header_at (wav_data : bytes) (wav_length : Z) (offset : Z)
    : option (bytes * Z * Z) :=
  match ReadString wav_data wav_length 4 offset with
  | Ret (chunk_id, offset1) =>
      match ReadValue_uint32 wav_data wav_length offset1 with
      | Ret (chunk_size, offset2) => Some (chunk_id, chunk_size, offset2)
      | _ => None
      end
  | _ => None
  end.

(** The window of [w] samples that starts at [start]. *)
Definition window (input : list Float32.float) (start w : nat)
    : list Float32.float :=
  firstn w (skipn start input).

(** The state of the chunk scan after [n] complete iterations, when the
    loop runs that long. *)
Fixpoint scan_after (n : nat) (wav_data : bytes) (wav_length : Z)
    (fmt : FormatInfo) (st : ScanState) : option ScanState :=
  match n with
  | O => Some st
  | S n' =>
      if scan_continues wav_length st then
        match scan_chunk wav_data wav_length fmt st with
        | Ret st' => scan_after n' wav_data wav_length fmt st'
        | _ => None
        end
      else None
  end.

Module Samples.

(** RIFF and format chunk of a 16-bit PCM file (36 bytes). *)
Definition pcm_header (channels rate bytes_per_second bytes_per_frame : Z)
    : bytes :=
  text "RIFF" ++ EncodeFixed32 0 ++ text "WAVE" ++ text "fmt "
  ++ EncodeFixed32 16 ++ EncodeFixed16 1 ++ EncodeFixed16 channels
  ++ EncodeFixed32 rate ++ EncodeFixed32 bytes_per_second
  ++ EncodeFixed16 bytes_per_frame ++ EncodeFixed16 16.

(** A chunk: id, declared size, and the bytes that follow. *)
Definition chunk (id : string) (declared_size : Z) (payload : bytes)
    : bytes :=
  text id ++ EncodeFixed32 declared_size ++ payload.

Definition pcm16 (samples : list Z) : bytes := flat_map EncodeFixed16 samples.

Definition half : Float32.float := Float32.of_scaled 1 (-1).
Definition minus_half : Float32.float := Float32.of_scaled (-1) (-1).
Definition quarter : Float32.float := Float32.of_scaled 1 (-2).
Definition minus_quarter : Float32.float := Float32.of_scaled (-1) (-2).

(** [0, 0, 0, 10, 10, 10, 0, 0, 0]: one loud stretch in the middle. *)
Definition loud_in_the_middle : list Float32.float :=
  map Float32.of_Z [0; 0; 0; 10; 10; 10; 0; 0; 0].

(** Two channels, two frames: (0.5, -0.5) and (0.25, -0.25), at 16 kHz. *)
Definition stereo_two_frames : bytes :=
  pcm_header 2 16000 64000 4
  ++ chunk "data" 8 (pcm16 [16384; -16384; 8192; -8192]).

(** The two frames (1.0, -1.0) and (0.5, -0.5), interleaved. *)
Definition stereo_unit_frames : list Float32.float :=
  [Float32.of_Z 1; Float32.of_Z (-1); half; minus_half].

(** Mono, 16 kHz, one silent sample. *)
Definition silent_file : bytes :=
  pcm_header 1 16000 32000 2 ++ chunk "data" 2 (pcm16 [0]).

(** Mono, one sample of 0.5, with a sample rate of 0 in the header. *)
Definition zero_rate_file : bytes :=
  pcm_header 1 0 0 2 ++ chunk "data" 2 (pcm16 [16384]).

(** Mono, 16 kHz, one sample of 0.5. *)
Definition one_sample_file : bytes :=
  pcm_header 1 16000 32000 2 ++ chunk "data" 2 (pcm16 [16384]).

(** Mono, sample rate 2^31 + 1, and 2 declared as bytes per second. *)
Definition high_rate_file : bytes :=
  pcm_header 1 2147483649 2 2 ++ chunk "data" 2 (pcm16 [16384]).

(** Mono, 16 kHz, with 64000 declared as bytes per second. *)
Definition wrong_bytes_per_second : bytes :=
  pcm_header 1 16000 64000 2 ++ chunk "data" 2 (pcm16 [16384]).

(** Mono, 16 kHz, with 4 declared as bytes per frame. *)
Definition wrong_bytes_per_frame : bytes :=
  pcm_header 1 16000 32000 4 ++ chunk "data" 2 (pcm16 [16384]).

(** What the encoder writes for one stereo frame (0.5, -0.5) at
    16 kHz. *)
Definition stereo_encoded : bytes :=
  match EncodeAudioAsS16LEWav (Some [half; minus_half]) 16000 2 1 (Some [])
  with
  | Ret wav => wav
  | _ => []
  end.

Definition two_data_chunks : bytes :=
  pcm_header 1 16000 32000 2
  ++ chunk "data" 2 (pcm16 [16384]) ++ chunk "data" 2 (pcm16 [16384]).

Definition no_data_chunk : bytes :=
  pcm_header 1 16000 32000 2 ++ chunk "LIST" 2 (pcm16 [16384]).

(** A data chunk, then a LIST chunk that declares 100 bytes and has
    none. *)
Definition truncated_tail : bytes :=
  pcm_header 1 16000 32000 2
  ++ chunk "data" 2 (pcm16 [16384]) ++ chunk "LIST" 100 [].

(** A LIST chunk that declares 2^32 - 8 bytes. *)
Definition rewinding_chunk : bytes :=
  pcm_header 1 16000 32000 2 ++ chunk "LIST" (2 ^ 32 - 8) [].

Definition mono_16k : FormatInfo := mkFormatInfo 1 16000 2.

End Samples.

(* ================================================================= *)
(** ** Further definitions: samples, paths *)

(** A value the decoder can produce: a 16-bit sample times 1/32768. *)
Definition is_pcm16_sample (v : Float32.float) : Prop :=
  exists s, kint16min <= s <= kint16max /\ v = Int16SampleToFloat s.

(** [f] holds for the [n] consecutive integers from [lo] on. *)
Fixpoint all_from (n : nat) (lo : Z) (f : Z -> bool) : bool :=
  match n with
  | O => true
  | S n' => f lo && all_from n' (lo + 1) f
  end.

(** Converting a 16-bit sample to [float] and back gives the sample, and
    the [float] lies in [-1, 1). *)
Definition sample_survives (s : Z) : bool :=
  let v := Int16SampleToFloat s in
  match FloatToInt16Sample v with
  | Some z => z =? s
  | None => false
  end
  && SFleb (Float32.of_Z (-1)) v
  && SFltb v (Float32.of_Z 1).

(** [std::string::npos]. *)
Definition npos : Z := 2 ^ 64 - 1.

(** The characters of ["/\\"]: the slash and the backslash. *)
Definition kSeparators : bytes := ["/"%char; "092"%char].

Definition is_one_of (chars : bytes) (c : ascii) : bool :=
  existsb (Ascii.eqb c) chars.

(** The greatest position at or after [i] of a character of [chars] in [s],
    whose first character has position [i]. *)
Fixpoint last_index_of (chars : bytes) (s : bytes) (i : Z) : option Z :=
  match s with
  | [] => None
  | c :: rest =>
      match last_index_of chars rest (i + 1) with
      | Some j => Some j
      | None => if is_one_of chars c then Some i else None
      end
  end.

(** [s.find_last_of(chars)]. *)
Definition find_last_of (s : bytes) (chars : bytes) : Z :=
  match last_index_of chars s 0 with
  | Some j => j
  | None => npos
  end.

(** [s.substr(pos, count)]; it throws ([None]) when [pos > s.size()]. *)
Definition substr (s : bytes) (pos count : Z) : option bytes :=
  let size := Z.of_nat (List.length s) in
  if pos >? size then None
  else Some (firstn (Z.to_nat (Z.min count (size - pos)))
               (skipn (Z.to_nat pos) s)).

(** [SplitFilename(full_path, &dir, &filename)]; [separator_index + 1] is a
    [size_t] sum. *)
Definition SplitFilename (full_path : bytes) : option (bytes * bytes) :=
  let separator_index := find_last_of full_path kSeparators in
  match substr full_path 0 separator_index,
        substr full_path (to_size_t (separator_index + 1)) npos with
  | Some dir, Some filename => Some (dir, filename)
  | _, _ => None
  end.

(** Neither a slash nor a backslash occurs in [s]. *)
Definition no_separator (s : bytes) : Prop :=
  Forall (fun c => is_one_of kSeparators c = false) s.

(** The body of the loop of [main] that derives the output names: the
    output file name of one input file and the directory put into
    [output_dirs] for it. *)
Definition output_names (output_root input_filename : bytes)
    : option (bytes * bytes) :=
  match SplitFilename input_filename with
  | None => None
  | Some (input_dir, input_base) =>
      let output_filename := output_root ++ text "/" ++ input_base in
      match SplitFilename output_filename with
      | None => None
      | Some (output_dir, output_base) => Some (output_filename, output_dir)
      end
  end.

(** What [n] consecutive 16-bit samples starting at [offset] read as. *)
Fixpoint samples_at (n : nat) (data : bytes) (offset : Z)
    : list Float32.float :=
  match n with
  | O => []
  | S n' =>
      Int16SampleToFloat (to_int16 (field data offset 2))
      :: samples_at n' data (offset + 2)
  end.

Module MoreSamples.

(** A header that declares no channel (and so 0 bytes per frame and per
  second), followed by a data chunk. *)
Definition zero_channel_file : bytes :=
Samples.pcm_header 0 16000 0 0
++ Samples.chunk "data" 2 (Samples.pcm16 [16384]).

(** A data chunk that declares two samples and holds one. *)
Definition truncated_data : bytes :=
Samples.pcm_header 1 16000 32000 2
++ Samples.chunk "data" 4 (Samples.pcm16 [16384]).

(** What the encoder writes for the two mono samples 0.5, -0.5 at
  16 kHz. *)
Definition mono_encoded : bytes :=
match EncodeAudioAsS16LEWav (Some [Samples.half; Samples.minus_half])
        16000 1 2 (Some [])
with
| Ret wav => wav
| _ => []
end.

(** Mono, 2 Hz: the samples 0.5, 0.5, 0. *)
Definition loud_file : bytes :=
Samples.pcm_header 1 2 4 2
++ Samples.chunk "data" 6 (Samples.pcm16 [16384; 16384; 0]).

(** What the encoder writes for the two mono samples 0.5, 0.5 at 2 Hz. *)
Definition loud_output : bytes :=
match EncodeAudioAsS16LEWav (Some [Samples.half; Samples.half]) 2 1 2
        (Some [])
with
| Ret wav => wav
| _ => []
end.

End MoreSamples.

(** What holds of the scan variables once a data chunk has been read. *)
Definition scan_invariant (fmt : FormatInfo) (st : ScanState) : Prop :=
  was_data_found st = true ->
  fmt_bytes_per_sample fmt <> 0
  /\ (exists chunk_size,
        0 <= chunk_size < 2 ^ 32
        /\ scan_sample_count st = chunk_size / fmt_bytes_per_sample fmt)
  /\ Z.of_nat (List.length (scan_float_values st))
     = to_uint32 (scan_sample_count st * fmt_channel_count fmt)
  /\ Forall is_pcm16_sample (scan_float_values st).

(** The data area the encoder writes for the 16-bit samples [ss]. *)
Definition sample_bytes (ss : list Z) : bytes :=
  flat_map (fun s => EncodeFixed16 (to_uint16 s)) ss.

(** The sample [FloatToInt16Sample] gives for each value of [audio]. *)
Definition quantized (audio : list Float32.float) (ss : list Z) : Prop :=
  Forall2 (fun x s => FloatToInt16Sample x = Some s) audio ss.

(** The bytes of a chunk with id [fst c] and payload [snd c], its size
    field being the length of the payload. *)
Definition chunk_bytes (c : bytes * bytes) : bytes :=
  fst c ++ EncodeFixed32 (Z.of_nat (List.length (snd c))) ++ snd c.

(** A chunk other than the data chunk: a four-byte id that is not
    "data". *)
Definition other_chunk (c : bytes * bytes) : Prop :=
  List.length (fst c) = 4%nat /\ fst c <> kDataChunkId.

Definition chunks_bytes (chunks : list (bytes * bytes)) : bytes :=
  List.concat (map chunk_bytes chunks).

(* ================================================================= *)
(** * Properties *)

(** ** Machine integers and bytes *)

Lemma to_size_t_small (z : Z) : 0 <= z < 2 ^ 64 -> to_size_t z = z.
Proof. intros H. unfold to_size_t, wrap_unsigned. now apply Z.mod_small. Qed.

Lemma to_uint32_small (z : Z) : 0 <= z < 2 ^ 32 -> to_uint32 z = z.
Proof. intros H. unfold to_uint32, wrap_unsigned. now apply Z.mod_small. Qed.

Lemma to_uint16_small (z : Z) : 0 <= z < 2 ^ 16 -> to_uint16 z = z.
Proof. intros H. unfold to_uint16, wrap_unsigned. now apply Z.mod_small. Qed.

Lemma to_int_small (z : Z) : - 2 ^ 31 <= z < 2 ^ 31 -> to_int z = z.
Proof.
  intros H. unfold to_int, wrap_signed.
  rewrite Z.mod_small by lia. lia.
Qed.

(** The cursor arithmetic of [ExpectText] and [ReadValue] is exact as long
    as the result fits an [int]. *)
Lemma cursor_advance (offset n : Z) :
  0 <= offset -> 0 <= n -> offset + n < 2 ^ 31 ->
  to_int (to_size_t (to_size_t offset + n)) = offset + n.
Proof.
  intros Ho Hn Hs.
  rewrite (to_size_t_small offset) by lia.
  rewrite to_size_t_small by lia.
  apply to_int_small; lia.
Qed.

Lemma byte_val_range (b : ascii) : 0 <= byte_val b < 256.
Proof.
  unfold byte_val. pose proof (N_ascii_bounded b) as H. lia.
Qed.

Lemma byte_val_mk_byte (z : Z) : byte_val (mk_byte z) = z mod 256.
Proof.
  unfold byte_val, mk_byte.
  assert (H : 0 <= z mod 256 < 256) by (apply Z.mod_pos_bound; lia).
  rewrite N_ascii_embedding by lia.
  lia.
Qed.

Lemma mk_byte_byte_val (b : ascii) : mk_byte (byte_val b) = b.
Proof.
  unfold mk_byte. pose proof (byte_val_range b) as H.
  rewrite Z.mod_small by lia.
  unfold byte_val. rewrite N2Z.id. apply ascii_N_embedding.
Qed.

Lemma le_value_range (bs : bytes) :
  0 <= le_value bs < 256 ^ Z.of_nat (List.length bs).
Proof.
  induction bs as [|b bs IH].
  - simpl. lia.
  - cbn [le_value List.length]. rewrite Nat2Z.inj_succ, Z.pow_succ_r by lia.
    pose proof (byte_val_range b). lia.
Qed.

(** Storing a value and reading it back keeps its low bytes. *)
Lemma le_value_le_bytes (n : nat) (v : Z) :
  le_value (le_bytes n v) = v mod 256 ^ Z.of_nat n.
Proof.
  revert v. induction n as [|n IH]; intros v.
  - simpl. now rewrite Z.mod_1_r.
  - cbn [le_bytes le_value]. rewrite IH, byte_val_mk_byte.
    rewrite Nat2Z.inj_succ, Z.pow_succ_r by lia.
    rewrite (Z.rem_mul_r v 256 (256 ^ Z.of_nat n)) by lia.
    reflexivity.
Qed.

(** Every byte range is the stored form of the value it reads as. *)
Lemma le_bytes_le_value (bs : bytes) :
  le_bytes (List.length bs) (le_value bs) = bs.
Proof.
  induction bs as [|b bs IH].
  - reflexivity.
  - cbn [List.length le_bytes le_value]. pose proof (byte_val_range b) as Hb.
    f_equal.
    + unfold mk_byte.
      replace ((byte_val b + 256 * le_value bs) mod 256) with (byte_val b).
      * unfold byte_val. rewrite N2Z.id. apply ascii_N_embedding.
      * replace (byte_val b + 256 * le_value bs)
          with (byte_val b + le_value bs * 256) by lia.
        rewrite Z.mod_add by lia.
        symmetry. apply Z.mod_small. lia.
    + replace ((byte_val b + 256 * le_value bs) / 256) with (le_value bs);
        [exact IH|].
      replace (byte_val b + 256 * le_value bs)
        with (byte_val b + le_value bs * 256) by lia.
      rewrite Z.div_add by lia.
      rewrite Z.div_small by lia. lia.
Qed.

Lemma le_value_EncodeFixed32 (v : Z) :
  le_value (EncodeFixed32 v) = to_uint32 v.
Proof. unfold EncodeFixed32. now rewrite le_value_le_bytes. Qed.

Lemma le_value_EncodeFixed16 (v : Z) :
  le_value (EncodeFixed16 v) = to_uint16 v.
Proof. unfold EncodeFixed16. now rewrite le_value_le_bytes. Qed.

Lemma bytes_eqb_eq (a b : bytes) : bytes_eqb a b = true <-> a = b.
Proof.
  unfold bytes_eqb. destruct (list_eq_dec ascii_dec a b); split; congruence.
Qed.

Lemma bytes_eqb_refl (a : bytes) : bytes_eqb a a = true.
Proof. now apply bytes_eqb_eq. Qed.

Lemma bytes_eqb_neq (a b : bytes) : a <> b -> bytes_eqb a b = false.
Proof.
  intros H. destruct (bytes_eqb a b) eqn:E; [|reflexivity].
  apply bytes_eqb_eq in E. contradiction.
Qed.

Lemma slice_length (data : bytes) (offset n : Z) :
  0 <= offset -> 0 <= n -> offset + n <= Z.of_nat (List.length data) ->
  List.length (slice data offset n) = Z.to_nat n.
Proof.
  intros Ho Hn Hl. unfold slice.
  rewrite length_firstn, length_skipn. lia.
Qed.

(* ----------------------------------------------------------------- *)
(** ** The chunk reader *)

Lemma gtb_false (a b : Z) : a <= b -> (a >? b) = false.
Proof. intros H. rewrite Z.gtb_ltb. apply Z.ltb_ge. lia. Qed.

Lemma gtb_true (a b : Z) : b < a -> (a >? b) = true.
Proof. intros H. rewrite Z.gtb_ltb. apply Z.ltb_lt. lia. Qed.

Lemma ltb_false (a b : Z) : b <= a -> (a <? b) = false.
Proof. intros H. apply Z.ltb_ge. lia. Qed.

Section ChunkReader.

Variables (data : bytes) (data_length : Z).

(** Away from the end of the [int] range a read either succeeds or
    reports that the data is too short; it is never undefined. *)
Lemma ReadValue_cases (sizeof_T : Z) (interp : Z -> Z) (offset offset' : Z) :
  0 <= offset -> 0 <= sizeof_T -> offset + sizeof_T < 2 ^ 31 ->
  offset' = offset + sizeof_T ->
  (offset' <= data_length /\
   ReadValue sizeof_T interp data data_length offset
   = Ret (interp (field data offset sizeof_T), offset'))
  \/ (data_length < offset' /\
      ReadValue sizeof_T interp data data_length offset
      = Fail (errors.InvalidArgument
                ["Data too short when trying to read value"])).
Proof.
  intros Ho Hs Hb ->. unfold ReadValue.
  rewrite cursor_advance by lia.
  rewrite to_size_t_small by lia.
  destruct (Z.gtb_spec (offset + sizeof_T) data_length) as [Hgt | Hle].
  - right. split; [lia | reflexivity].
  - left. split; [lia|].
    replace (offset <? 0) with false by (symmetry; apply ltb_false; lia).
    replace (offset + sizeof_T <? offset) with false
      by (symmetry; apply ltb_false; lia).
    reflexivity.
Qed.

Lemma ExpectText_cases (expected_text : bytes) (offset offset' : Z) :
  0 <= offset -> offset + Z.of_nat (List.length expected_text) < 2 ^ 31 ->
  offset' = offset + Z.of_nat (List.length expected_text) ->
  (offset' <= data_length
   /\ slice data offset (Z.of_nat (List.length expected_text)) = expected_text
   /\ ExpectText data data_length expected_text offset = Ret offset')
  \/ (exists msg,
        ExpectText data data_length expected_text offset
        = Fail (StatusError error.INVALID_ARGUMENT msg)).
Proof.
  intros Ho Hb ->. unfold ExpectText.
  rewrite cursor_advance by lia.
  rewrite to_size_t_small by lia.
  destruct (Z.gtb_spec (offset + Z.of_nat (List.length expected_text))
              data_length) as [Hgt | Hle].
  - right. eexists. reflexivity.
  - replace (offset <? 0) with false by (symmetry; apply ltb_false; lia).
    replace (offset + Z.of_nat (List.length expected_text) <? offset)
      with false by (symmetry; apply ltb_false; lia).
    cbn [orb].
    replace (offset + Z.of_nat (List.length expected_text) - offset)
      with (Z.of_nat (List.length expected_text)) by lia.
    destruct (bytes_eqb _ expected_text) eqn:E; cbn [negb].
    + left. apply bytes_eqb_eq in E. repeat split; [lia | exact E].
    + right. eexists. reflexivity.
Qed.

Lemma ExpectText_ok (expected_text : bytes) (offset offset' : Z) :
  0 <= offset -> offset + Z.of_nat (List.length expected_text) < 2 ^ 31 ->
  offset' = offset + Z.of_nat (List.length expected_text) ->
  offset' <= data_length ->
  slice data offset (Z.of_nat (List.length expected_text)) = expected_text ->
  ExpectText data data_length expected_text offset = Ret offset'.
Proof.
  intros Ho Hb -> Hl Hs. unfold ExpectText.
  rewrite cursor_advance by lia.
  rewrite to_size_t_small by lia.
  replace (_ >? data_length) with false by (symmetry; apply gtb_false; lia).
  replace (offset <? 0) with false by (symmetry; apply ltb_false; lia).
  replace (offset + Z.of_nat (List.length expected_text) <? offset)
    with false by (symmetry; apply ltb_false; lia).
  cbn [orb].
  replace (offset + Z.of_nat (List.length expected_text) - offset)
    with (Z.of_nat (List.length expected_text)) by lia.
  rewrite Hs, bytes_eqb_refl. reflexivity.
Qed.

Lemma ReadValue_ok (sizeof_T : Z) (interp : Z -> Z) (offset offset' : Z) :
  0 <= offset -> 0 <= sizeof_T -> offset + sizeof_T < 2 ^ 31 ->
  offset' = offset + sizeof_T -> offset' <= data_length ->
  ReadValue sizeof_T interp data data_length offset
  = Ret (interp (field data offset sizeof_T), offset').
Proof.
  intros Ho Hs Hb He Hl.
  destruct (ReadValue_cases sizeof_T interp offset offset' Ho Hs Hb He)
    as [[_ H] | [H _]]; [exact H | lia].
Qed.

Lemma ReadString_ok (expected_length offset : Z) :
  0 <= offset -> 0 <= expected_length ->
  offset + expected_length < 2 ^ 31 ->
  offset + expected_length <= data_length ->
  ReadString data data_length expected_length offset
  = Ret (slice data offset expected_length, offset + expected_length).
Proof.
  intros Ho Hn Hb Hl. unfold ReadString.
  replace (2 ^ 31 - 1 <? offset + expected_length) with false
    by (symmetry; apply ltb_false; lia).
  rewrite to_size_t_small by lia.
  replace (_ >? data_length) with false
    by (symmetry; apply gtb_false; lia).
  replace (offset <? 0) with false by (symmetry; apply ltb_false; lia).
  replace (offset + expected_length <? offset) with false
    by (symmetry; apply ltb_false; lia).
  reflexivity.
Qed.

End ChunkReader.

(* ----------------------------------------------------------------- *)
(** ** The decoder: RIFF and format chunk *)

Lemma field_range (wav : bytes) (offset size : Z) :
  0 <= size -> 0 <= field wav offset size < 256 ^ size.
Proof.
  intros Hs. unfold field.
  pose proof (le_value_range (slice wav offset size)) as H.
  assert (Hl : Z.of_nat (List.length (slice wav offset size)) <= size).
  { unfold slice. rewrite length_firstn. lia. }
  assert (256 ^ Z.of_nat (List.length (slice wav offset size)) <= 256 ^ size)
    by (apply Z.pow_le_mono_r; lia).
  lia.
Qed.

(** One step of the header: a read at a known position either fails with
    [InvalidArgument] or yields the field at that position. *)
Ltac read_field :=
  match goal with
  | |- context [ReadValue ?sz ?interp ?d ?l ?off] =>
      let o' := eval cbv in (off + sz) in
      let Hle := fresh "Hle" in
      let Hrd := fresh "Hrd" in
      destruct (ReadValue_cases d l sz interp off o')
        as [[Hle Hrd] | [Hle Hrd]];
      [lia | lia | lia | reflexivity | rewrite Hrd; cbn [bind]
      | rewrite Hrd; cbn [bind]; try reflexivity ]
  end.

Ltac expect_text :=
  match goal with
  | |- context [ExpectText ?d ?l ?e ?off] =>
      let o' := eval cbv in (off + Z.of_nat (List.length e)) in
      let Hle := fresh "Hle" in
      let Hmg := fresh "Hmg" in
      let Hrd := fresh "Hrd" in
      let msg := fresh "msg" in
      destruct (ExpectText_cases d l e off o')
        as [(Hle & Hmg & Hrd) | [msg Hrd]];
      [lia | vm_compute; reflexivity | reflexivity | rewrite Hrd; cbn [bind]
      | rewrite Hrd; cbn [bind]; try reflexivity ]
  end.

(** What each possible result of the header part means. *)
Lemma decode_format_chunk_spec (wav : bytes) (wav_length : Z) :
  match decode_format_chunk wav wav_length with
  | Ret (fmt, offset) =>
      36 <= wav_length /\ has_magic wav /\ format_chunk_accepted wav
      /\ fmt = mkFormatInfo (header_channel_count wav) (header_sample_rate wav)
                            (header_bytes_per_frame wav)
      /\ offset = (if header_format_chunk_size wav =? 18 then 38 else 36)
  | Fail s => code s = error.INVALID_ARGUMENT
  | Undef => False
  end.
Proof.
  unfold decode_format_chunk, ReadValue_uint32, ReadValue_uint16.
  expect_text. read_field. expect_text. expect_text. read_field.
  fold (header_format_chunk_size wav).
  destruct (Z.eqb_spec (header_format_chunk_size wav) 16) as [H16 | H16];
    destruct (Z.eqb_spec (header_format_chunk_size wav) 18) as [H18 | H18];
    cbn [negb andb]; try reflexivity.
  all: read_field; fold (header_compression_code wav);
    (destruct (Z.eqb_spec (header_compression_code wav) 1) as [Hpcm | Hpcm];
     cbn [negb]; [| reflexivity]);
    read_field; read_field; read_field; read_field; read_field;
    fold (header_channel_count wav) (header_sample_rate wav)
         (header_bytes_per_second wav) (header_bytes_per_frame wav)
         (header_bits_per_sample wav);
    (destruct (Z.eqb_spec (header_bits_per_sample wav) 16) as [Hbits | Hbits];
     cbn [negb]; [| reflexivity]).
  all: pose proof (field_range wav 22 2 ltac:(lia)) as Hch;
    fold (header_channel_count wav) in Hch;
    pose proof (field_range wav 32 2 ltac:(lia)) as Hbpf;
    fold (header_bytes_per_frame wav) in Hbpf;
    assert (Hexp : to_uint32 ((header_bits_per_sample wav
                               * header_channel_count wav + 7) / 8)
                   = expected_bytes_per_frame wav)
      by (unfold expected_bytes_per_frame; apply to_uint32_small;
          rewrite Hbits;
          replace (16 * header_channel_count wav + 7)
            with (7 + header_channel_count wav * 2 * 8) by lia;
          rewrite Z.div_add by lia; change (7 / 8) with 0; lia);
    rewrite Hexp;
    (destruct (Z.eqb_spec (header_bytes_per_frame wav)
                          (expected_bytes_per_frame wav)) as [Hfr | Hfr];
     cbn [negb]; [| reflexivity]);
    change (to_uint32 (header_bytes_per_frame wav * header_sample_rate wav))
      with (expected_bytes_per_second wav);
    (destruct (Z.eqb_spec (header_bytes_per_second wav)
                          (expected_bytes_per_second wav)) as [Hsec | Hsec];
     cbn [negb]; [| reflexivity]).
  all: repeat split; try assumption; try lia; try (left; assumption);
    try (right; assumption).
  all: try (rewrite H16; reflexivity); try (rewrite H18; reflexivity).
Qed.

(** The header part with every read in place, step by step. *)
Ltac read_ok :=
  match goal with
  | |- context [ReadValue ?sz ?interp ?d ?l ?off] =>
      let o' := eval cbv in (off + sz) in
      rewrite (ReadValue_ok d l sz interp off o') by lia
  end.

Ltac expect_ok M :=
  match goal with
  | |- context [ExpectText ?d ?l ?e ?off] =>
      let o' := eval cbv in (off + Z.of_nat (List.length e)) in
      rewrite (ExpectText_ok d l e off o'
                 ltac:(lia) ltac:(vm_compute; reflexivity) eq_refl
                 ltac:(lia) M)
  end.

Ltac run_header wav M1 M2 M3 :=
  unfold decode_format_chunk, ReadValue_uint32, ReadValue_uint16;
  expect_ok M1; cbn [bind]; read_ok; cbn [bind];
  expect_ok M2; cbn [bind]; expect_ok M3; cbn [bind];
  repeat (read_ok; cbn [bind]);
  fold (header_format_chunk_size wav) (header_compression_code wav)
       (header_channel_count wav) (header_sample_rate wav)
       (header_bytes_per_second wav) (header_bytes_per_frame wav)
       (header_bits_per_sample wav).

Section FormatChunk.

Variables (wav : bytes) (wav_length : Z).
Hypothesis long_enough : 36 <= wav_length.
Hypothesis magic : has_magic wav.

Lemma expected_frame_no_wrap :
  header_bits_per_sample wav = 16 ->
  to_uint32 ((header_bits_per_sample wav * header_channel_count wav + 7) / 8)
  = expected_bytes_per_frame wav.
Proof.
  intros Hbits. unfold expected_bytes_per_frame.
  pose proof (field_range wav 22 2 ltac:(lia)) as Hch.
  fold (header_channel_count wav) in Hch.
  apply to_uint32_small. rewrite Hbits.
  replace (16 * header_channel_count wav + 7)
    with (7 + header_channel_count wav * 2 * 8) by lia.
  rewrite Z.div_add by lia. change (7 / 8) with 0. lia.
Qed.

Lemma decode_format_chunk_bad_frame :
  (header_format_chunk_size wav = 16 \/ header_format_chunk_size wav = 18) ->
  header_compression_code wav = 1 ->
  header_bits_per_sample wav = 16 ->
  header_bytes_per_frame wav <> expected_bytes_per_frame wav ->
  decode_format_chunk wav wav_length
  = Fail (errors.InvalidArgument
            ["Bad bytes per sample in WAV header: Expected ";
             show_Z (expected_bytes_per_frame wav); " but got ";
             show_Z (header_bytes_per_frame wav)]).
Proof.
  intros Hsize Hpcm Hbits Hfr. destruct magic as (M1 & M2 & M3).
  run_header wav M1 M2 M3.
  rewrite (expected_frame_no_wrap Hbits).
  rewrite Hpcm.
  replace (negb (header_format_chunk_size wav =? 16)
           && negb (header_format_chunk_size wav =? 18)) with false
    by (destruct Hsize as [-> | ->]; reflexivity).
  rewrite Hbits at 1. cbn [Z.eqb Pos.eqb negb].
  apply Z.eqb_neq in Hfr. rewrite Hfr. reflexivity.
Qed.

Lemma decode_format_chunk_bad_second :
  (header_format_chunk_size wav = 16 \/ header_format_chunk_size wav = 18) ->
  header_compression_code wav = 1 ->
  header_bits_per_sample wav = 16 ->
  header_bytes_per_frame wav = expected_bytes_per_frame wav ->
  header_bytes_per_second wav <> expected_bytes_per_second wav ->
  decode_format_chunk wav wav_length
  = Fail (errors.InvalidArgument
            ["Bad bytes per second in WAV header: Expected ";
             show_Z (expected_bytes_per_second wav); " but got ";
             show_Z (header_bytes_per_second wav); " (sample_rate=";
             show_Z (header_sample_rate wav); ", bytes_per_sample=";
             show_Z (header_bytes_per_frame wav); ")"]).
Proof.
  intros Hsize Hpcm Hbits Hfr Hsec. destruct magic as (M1 & M2 & M3).
  run_header wav M1 M2 M3.
  rewrite (expected_frame_no_wrap Hbits).
  rewrite Hpcm.
  replace (negb (header_format_chunk_size wav =? 16)
           && negb (header_format_chunk_size wav =? 18)) with false
    by (destruct Hsize as [-> | ->]; reflexivity).
  rewrite Hbits at 1. cbn [Z.eqb Pos.eqb negb].
  apply Z.eqb_eq in Hfr. rewrite Hfr. cbn [negb].
  change (to_uint32 (header_bytes_per_frame wav * header_sample_rate wav))
    with (expected_bytes_per_second wav).
  apply Z.eqb_neq in Hsec. rewrite Hsec. reflexivity.
Qed.

End FormatChunk.

(** A header failure is the result of the decoder, whatever the fuel. *)
Lemma decode_header_failure (fuel : nat) (wav : bytes) (wav_length : Z)
    (s : Status) :
  decode_format_chunk wav wav_length = Fail s ->
  DecodeLin16WaveAsFloatVector fuel wav wav_length = Some (Fail s).
Proof. intros H. unfold DecodeLin16WaveAsFloatVector. now rewrite H. Qed.

(** A buffer whose format chunk does not pass the tests is rejected with
    [InvalidArgument]. *)
Lemma rejected_format_chunk (fuel : nat) (wav : bytes) (wav_length : Z) :
  ~ format_chunk_accepted wav ->
  exists msg,
    DecodeLin16WaveAsFloatVector fuel wav wav_length
    = Some (Fail (StatusError error.INVALID_ARGUMENT msg)).
Proof.
  intros Hbad.
  pose proof (decode_format_chunk_spec wav wav_length) as Hspec.
  destruct (decode_format_chunk wav wav_length) as [[fmt off] | s |] eqn:E.
  - destruct Hspec as (_ & _ & Hacc & _). contradiction.
  - destruct s as [| c msg]; cbn in Hspec; [discriminate|]. subst c.
    exists msg. now apply decode_header_failure.
  - contradiction.
Qed.

(* ----------------------------------------------------------------- *)
(** ** The decoder: the chunk scan *)

Section ChunkScan.

Variables (wav_data : bytes) (wav_length : Z) (fmt : FormatInfo).

(** Iterations that complete use up one unit of fuel each. *)
Lemma scan_chunks_after (n fuel : nat) (st st' : ScanState) :
  scan_after n wav_data wav_length fmt st = Some st' ->
  scan_chunks (n + fuel) wav_data wav_length fmt st
  = scan_chunks fuel wav_data wav_length fmt st'.
Proof.
  revert st. induction n as [|n IH]; intros st H.
  - cbn in H. injection H as ->. reflexivity.
  - cbn [scan_after] in H. cbn [Nat.add scan_chunks].
    destruct (scan_continues wav_length st); [|discriminate].
    destruct (scan_chunk wav_data wav_length fmt st) as [st1| |];
      try discriminate.
    now apply IH.
Qed.

(** Once the loop condition fails the result no longer depends on the
    fuel. *)
Lemma scan_chunks_finished (fuel : nat) (st : ScanState) :
  scan_continues wav_length st = false ->
  scan_chunks fuel wav_data wav_length fmt st
  = if negb (was_data_found st)
    then Some (Fail (errors.InvalidArgument ["No data chunk found in WAV"]))
    else Some (Ret (mkDecodedWav (scan_float_values st)
                      (scan_sample_count st) (fmt_channel_count fmt)
                      (fmt_sample_rate fmt))).
Proof. intros H. destruct fuel; cbn [scan_chunks]; now rewrite H. Qed.

Lemma scan_chunk_second_data (st : ScanState) (chunk_size offset2 : Z) :
  chunk_header_at wav_data wav_length (scan_offset st)
  = Some (kDataChunkId, chunk_size, offset2) ->
  was_data_found st = true ->
  scan_chunk wav_data wav_length fmt st
  = Fail (errors.InvalidArgument ["More than one data chunk found in WAV"]).
Proof.
  unfold chunk_header_at, scan_chunk. intros H Hfound.
  destruct (ReadString wav_data wav_length 4 (scan_offset st))
    as [[id off1]| |]; try discriminate.
  cbn [bind].
  destruct (ReadValue_uint32 wav_data wav_length off1)
    as [[sz off2]| |]; try discriminate.
  injection H as -> -> ->. cbn [bind].
  rewrite bytes_eqb_refl, Hfound. reflexivity.
Qed.

(** A chunk that is not the data chunk moves the cursor by its declared
    size; the length of the buffer plays no part. *)
Lemma scan_chunk_skip (st : ScanState) (chunk_id : bytes)
    (chunk_size offset2 : Z) :
  chunk_header_at wav_data wav_length (scan_offset st)
  = Some (chunk_id, chunk_size, offset2) ->
  chunk_id <> kDataChunkId ->
  scan_chunk wav_data wav_length fmt st
  = Ret (mkScanState (to_int (to_uint32 (to_uint32 offset2 + chunk_size)))
           (was_data_found st) (scan_sample_count st)
           (scan_float_values st)).
Proof.
  unfold chunk_header_at, scan_chunk. intros H Hid.
  destruct (ReadString wav_data wav_length 4 (scan_offset st))
    as [[id off1]| |]; try discriminate.
  cbn [bind].
  destruct (ReadValue_uint32 wav_data wav_length off1)
    as [[sz off2]| |]; try discriminate.
  injection H as -> -> ->. cbn [bind].
  now rewrite (bytes_eqb_neq _ _ Hid).
Qed.

End ChunkScan.

(** The decoder, for a buffer whose header part succeeds and whose scan
    reaches [st] after [n] iterations. *)
Lemma decode_from_state (n fuel : nat) (wav : bytes) (wav_length : Z)
    (fmt : FormatInfo) (offset : Z) (st : ScanState) :
  decode_format_chunk wav wav_length = Ret (fmt, offset) ->
  scan_after n wav wav_length fmt (scan_start offset) = Some st ->
  DecodeLin16WaveAsFloatVector (n + fuel) wav wav_length
  = scan_chunks fuel wav wav_length fmt st.
Proof.
  intros Hh Hs. unfold DecodeLin16WaveAsFloatVector. rewrite Hh.
  now apply scan_chunks_after.
Qed.

(* ----------------------------------------------------------------- *)
(** ** C6: the tests on the format chunk *)

(** C6, as stated, fails: in a mono file with sample rate 2^31 + 1 and
    2 bytes per frame, the declared bytes per second, 2, differ from
    bytes_per_frame * sample_rate = 4294967298, and the decoder accepts
    the file. *)
Lemma high_rate_file_is_accepted :
  ~ (header_bytes_per_second Samples.high_rate_file
     <> header_bytes_per_frame Samples.high_rate_file
        * header_sample_rate Samples.high_rate_file ->
     exists s,
       DecodeLin16WaveAsFloatVector 1 Samples.high_rate_file
         (Z.of_nat (List.length Samples.high_rate_file))
       = Some (Fail s)).
Proof.
  intros H. destruct H as [s Hs].
  - vm_compute. discriminate.
  - vm_compute in Hs. discriminate.
Qed.

(** C6, amended: for every byte buffer, the decoder fails with
    InvalidArgument when the fmt-chunk size is neither 16 nor 18, when the
    compression code is not 1, when bits_per_sample is not 16, when the
    declared bytes_per_frame differs from ceil(bits_per_sample *
    channel_count / 8), or when the declared bytes_per_second differs from
    bytes_per_frame * sample_rate reduced modulo 2^32; and when the header
    is otherwise in order, the message of each of the two arithmetic
    mismatches names the expected and the declared value. *)
Theorem decoder_rejects_bad_format_chunk (fuel : nat) (wav : bytes) :
  ((header_format_chunk_size wav <> 16 /\ header_format_chunk_size wav <> 18)
   \/ header_compression_code wav <> 1
   \/ header_bits_per_sample wav <> 16
   \/ header_bytes_per_frame wav
      <> (header_bits_per_sample wav * header_channel_count wav + 7) / 8
   \/ header_bytes_per_second wav
      <> (header_bytes_per_frame wav * header_sample_rate wav) mod 2 ^ 32 ->
   exists msg,
     DecodeLin16WaveAsFloatVector fuel wav (Z.of_nat (List.length wav))
     = Some (Fail (StatusError error.INVALID_ARGUMENT msg)))
  /\ (36 <= Z.of_nat (List.length wav) -> has_magic wav ->
      (header_format_chunk_size wav = 16 \/ header_format_chunk_size wav = 18) ->
      header_compression_code wav = 1 ->
      header_bits_per_sample wav = 16 ->
      header_bytes_per_frame wav
      <> (header_bits_per_sample wav * header_channel_count wav + 7) / 8 ->
      DecodeLin16WaveAsFloatVector fuel wav (Z.of_nat (List.length wav))
      = Some (Fail (StatusError error.INVALID_ARGUMENT
                      (String.concat ""
                         ["Bad bytes per sample in WAV header: Expected ";
                          show_Z ((header_bits_per_sample wav
                                   * header_channel_count wav + 7) / 8);
                          " but got ";
                          show_Z (header_bytes_per_frame wav)]))))
  /\ (36 <= Z.of_nat (List.length wav) -> has_magic wav ->
      (header_format_chunk_size wav = 16 \/ header_format_chunk_size wav = 18) ->
      header_compression_code wav = 1 ->
      header_bits_per_sample wav = 16 ->
      header_bytes_per_frame wav
      = (header_bits_per_sample wav * header_channel_count wav + 7) / 8 ->
      header_bytes_per_second wav
      <> (header_bytes_per_frame wav * header_sample_rate wav) mod 2 ^ 32 ->
      DecodeLin16WaveAsFloatVector fuel wav (Z.of_nat (List.length wav))
      = Some (Fail (StatusError error.INVALID_ARGUMENT
                      (String.concat ""
                         ["Bad bytes per second in WAV header: Expected ";
                          show_Z ((header_bytes_per_frame wav
                                   * header_sample_rate wav) mod 2 ^ 32);
                          " but got ";
                          show_Z (header_bytes_per_second wav);
                          " (sample_rate=";
                          show_Z (header_sample_rate wav);
                          ", bytes_per_sample=";
                          show_Z (header_bytes_per_frame wav); ")"])))).
Proof.
  split; [|split].
  - intros Hbad. apply rejected_format_chunk.
    unfold format_chunk_accepted, expected_bytes_per_frame,
      expected_bytes_per_second.
    intros (Hsize & Hpcm & Hbits & Hfr & Hsec).
    destruct Hbad as [[H16 H18] | [H | [H | [H | H]]]];
      try contradiction.
    destruct Hsize; contradiction.
  - intros Hlen Hmagic Hsize Hpcm Hbits Hfr.
    apply decode_header_failure.
    now apply decode_format_chunk_bad_frame.
  - intros Hlen Hmagic Hsize Hpcm Hbits Hfr Hsec.
    apply decode_header_failure.
    now apply decode_format_chunk_bad_second.
Qed.

Lemma decoder_rejects_bad_format_chunk_witness :
  (exists msg,
     DecodeLin16WaveAsFloatVector 1 Samples.wrong_bytes_per_second
       (Z.of_nat (List.length Samples.wrong_bytes_per_second))
     = Some (Fail (StatusError error.INVALID_ARGUMENT msg)))
  /\ DecodeLin16WaveAsFloatVector 1 Samples.wrong_bytes_per_frame
       (Z.of_nat (List.length Samples.wrong_bytes_per_frame))
     = Some (Fail (StatusError error.INVALID_ARGUMENT
          "Bad bytes per sample in WAV header: Expected 2 but got 4"))
  /\ DecodeLin16WaveAsFloatVector 1 Samples.wrong_bytes_per_second
       (Z.of_nat (List.length Samples.wrong_bytes_per_second))
     = Some (Fail (StatusError error.INVALID_ARGUMENT
          "Bad bytes per second in WAV header: Expected 32000 but got 64000 (sample_rate=16000, bytes_per_sample=2)")).
Proof.
  split; [|split].
  - apply (proj1 (decoder_rejects_bad_format_chunk 1
                    Samples.wrong_bytes_per_second)).
    right. right. right. right. vm_compute. discriminate.
  - apply (proj1 (proj2 (decoder_rejects_bad_format_chunk 1
                           Samples.wrong_bytes_per_frame))).
    + vm_compute. discriminate.
    + repeat split; vm_compute; reflexivity.
    + left. vm_compute. reflexivity.
    + vm_compute. reflexivity.
    + vm_compute. reflexivity.
    + vm_compute. discriminate.
  - apply (proj2 (proj2 (decoder_rejects_bad_format_chunk 1
                           Samples.wrong_bytes_per_second))).
    + vm_compute. discriminate.
    + repeat split; vm_compute; reflexivity.
    + left. vm_compute. reflexivity.
    + vm_compute. reflexivity.
    + vm_compute. reflexivity.
    + vm_compute. reflexivity.
    + vm_compute. discriminate.
Defined.

(** More fuel does not change a result. *)
Lemma scan_chunks_more_fuel (fuel k : nat) (wav_data : bytes) (wav_length : Z)
    (fmt : FormatInfo) (st : ScanState) (r : Outcome DecodedWav) :
  scan_chunks fuel wav_data wav_length fmt st = Some r ->
  scan_chunks (fuel + k) wav_data wav_length fmt st = Some r.
Proof.
  revert st. induction fuel as [|fuel IH]; intros st H.
  - cbn [scan_chunks] in H.
    destruct (scan_continues wav_length st) eqn:E; [discriminate|].
    rewrite scan_chunks_finished by exact E. exact H.
  - cbn [Nat.add scan_chunks] in *.
    destruct (scan_continues wav_length st); [|exact H].
    destruct (scan_chunk wav_data wav_length fmt st) as [st'| |];
      try exact H.
    now apply IH.
Qed.

Lemma DecodeLin16WaveAsFloatVector_more_fuel (fuel k : nat) (wav : bytes)
    (wav_length : Z) (r : Outcome DecodedWav) :
  DecodeLin16WaveAsFloatVector fuel wav wav_length = Some r ->
  DecodeLin16WaveAsFloatVector (fuel + k) wav wav_length = Some r.
Proof.
  unfold DecodeLin16WaveAsFloatVector.
  destruct (decode_format_chunk wav wav_length) as [[fmt offset]| |];
    try (intros H; exact H).
  apply scan_chunks_more_fuel.
Qed.

(** The scan need not terminate: a chunk that declares 2^32 - 8 bytes moves
    the [int] cursor back to the start of its own header. *)
Remark decoder_can_loop (fuel : nat) :
  DecodeLin16WaveAsFloatVector fuel Samples.rewinding_chunk
    (Z.of_nat (List.length Samples.rewinding_chunk)) = None.
Proof.
  unfold DecodeLin16WaveAsFloatVector.
  replace (decode_format_chunk Samples.rewinding_chunk
             (Z.of_nat (List.length Samples.rewinding_chunk)))
    with (Ret (Samples.mono_16k, 36)) by (vm_compute; reflexivity).
  induction fuel as [|fuel IH].
  - vm_compute. reflexivity.
  - cbn [scan_chunks].
    replace (scan_continues _ (scan_start 36)) with true
      by (vm_compute; reflexivity).
    replace (scan_chunk Samples.rewinding_chunk _ Samples.mono_16k
               (scan_start 36))
      with (Ret (scan_start 36)) by (vm_compute; reflexivity).
    exact IH.
Qed.

(* ----------------------------------------------------------------- *)
(** ** C7: duplicate and missing data chunks *)

(** C7: for every byte buffer whose header part is accepted, if after some
    number of scanned chunks a data chunk has been consumed and the next
    chunk header again carries the id "data", the decoder fails with
    InvalidArgument ("More than one data chunk found in WAV"); and if the
    scan reaches the end of the buffer without a data chunk, it fails with
    InvalidArgument ("No data chunk found in WAV").  Any amount of fuel
    that covers the iterations made gives this result. *)
Theorem decoder_data_chunk_errors (n fuel : nat) (wav : bytes)
    (fmt : FormatInfo) (offset : Z) (st : ScanState) :
  decode_format_chunk wav (Z.of_nat (List.length wav)) = Ret (fmt, offset) ->
  scan_after n wav (Z.of_nat (List.length wav)) fmt (scan_start offset)
  = Some st ->
  (was_data_found st = true ->
   scan_continues (Z.of_nat (List.length wav)) st = true ->
   (exists chunk_size offset2,
      chunk_header_at wav (Z.of_nat (List.length wav)) (scan_offset st)
      = Some (kDataChunkId, chunk_size, offset2)) ->
   DecodeLin16WaveAsFloatVector (n + S fuel) wav (Z.of_nat (List.length wav))
   = Some (Fail (StatusError error.INVALID_ARGUMENT
                   "More than one data chunk found in WAV")))
  /\ (was_data_found st = false ->
      scan_continues (Z.of_nat (List.length wav)) st = false ->
      DecodeLin16WaveAsFloatVector (n + fuel) wav (Z.of_nat (List.length wav))
      = Some (Fail (StatusError error.INVALID_ARGUMENT
                      "No data chunk found in WAV"))).
Proof.
  intros Hh Hs. split.
  - intros Hfound Hcont (sz & off2 & Hnext).
    rewrite (decode_from_state n (S fuel) wav _ fmt offset st Hh Hs).
    cbn [scan_chunks]. rewrite Hcont.
    now rewrite (scan_chunk_second_data wav _ fmt st sz off2 Hnext Hfound).
  - intros Hfound Hcont.
    rewrite (decode_from_state n fuel wav _ fmt offset st Hh Hs).
    rewrite scan_chunks_finished by exact Hcont.
    now rewrite Hfound.
Qed.

Lemma decoder_data_chunk_errors_witness :
  DecodeLin16WaveAsFloatVector (1 + 1) Samples.two_data_chunks
    (Z.of_nat (List.length Samples.two_data_chunks))
  = Some (Fail (StatusError error.INVALID_ARGUMENT
                  "More than one data chunk found in WAV"))
  /\ DecodeLin16WaveAsFloatVector (1 + 0) Samples.no_data_chunk
       (Z.of_nat (List.length Samples.no_data_chunk))
     = Some (Fail (StatusError error.INVALID_ARGUMENT
                     "No data chunk found in WAV")).
Proof.
  split.
  - apply (proj1 (decoder_data_chunk_errors 1 0 Samples.two_data_chunks
                    Samples.mono_16k 36
                    (mkScanState 46 true 1 [Samples.half])
                    ltac:(vm_compute; reflexivity)
                    ltac:(vm_compute; reflexivity))).
    + reflexivity.
    + vm_compute. reflexivity.
    + exists 2, 54. vm_compute. reflexivity.
  - apply (proj2 (decoder_data_chunk_errors 1 0 Samples.no_data_chunk
                    Samples.mono_16k 36
                    (mkScanState 46 false 0 [])
                    ltac:(vm_compute; reflexivity)
                    ltac:(vm_compute; reflexivity))).
    + reflexivity.
    + vm_compute. reflexivity.
Defined.

(* ----------------------------------------------------------------- *)
(** ** C10: a skipped chunk is not checked against the buffer *)

(** C10: a chunk whose id is not "data" moves the cursor to the payload
    position plus the declared size, whatever the length of the buffer;
    and there is a buffer, a data chunk followed by a chunk that declares
    100 bytes where none remain, on which the scan ends after the second
    chunk and the decoder returns the samples of the data chunk. *)
Theorem skipped_chunk_is_not_bounds_checked :
  (forall (wav : bytes) (wav_length : Z) (fmt : FormatInfo) (st : ScanState)
          (chunk_id : bytes) (chunk_size offset2 : Z),
      chunk_header_at wav wav_length (scan_offset st)
      = Some (chunk_id, chunk_size, offset2) ->
      chunk_id <> kDataChunkId ->
      scan_chunk wav wav_length fmt st
      = Ret (mkScanState (to_int (to_uint32 (to_uint32 offset2 + chunk_size)))
               (was_data_found st) (scan_sample_count st)
               (scan_float_values st)))
  /\ (exists (wav : bytes) (fmt : FormatInfo) (offset : Z) (st : ScanState)
             (chunk_id : bytes) (chunk_size offset2 : Z),
         decode_format_chunk wav (Z.of_nat (List.length wav))
         = Ret (fmt, offset)
         /\ scan_after 1 wav (Z.of_nat (List.length wav)) fmt
              (scan_start offset) = Some st
         /\ was_data_found st = true
         /\ chunk_header_at wav (Z.of_nat (List.length wav)) (scan_offset st)
            = Some (chunk_id, chunk_size, offset2)
         /\ chunk_id <> kDataChunkId
         /\ Z.of_nat (List.length wav) < offset2 + chunk_size
         /\ forall fuel,
             DecodeLin16WaveAsFloatVector (2 + fuel) wav
               (Z.of_nat (List.length wav))
             = Some (Ret (mkDecodedWav [Samples.half] 1 1 16000))).
Proof.
  split.
  - intros wav wav_length fmt st chunk_id chunk_size offset2 Hh Hid.
    now apply scan_chunk_skip with (chunk_id := chunk_id).
  - exists Samples.truncated_tail, Samples.mono_16k, 36,
      (mkScanState 46 true 1 [Samples.half]), (text "LIST"), 100, 54.
    split; [vm_compute; reflexivity|].
    split; [vm_compute; reflexivity|].
    split; [reflexivity|].
    split; [vm_compute; reflexivity|].
    split; [vm_compute; discriminate|].
    split; [vm_compute; reflexivity|].
    intros fuel.
    rewrite (decode_from_state 2 fuel Samples.truncated_tail _
               Samples.mono_16k 36
               (mkScanState 154 true 1 [Samples.half]))
      by (vm_compute; reflexivity).
    rewrite scan_chunks_finished by (vm_compute; reflexivity).
    reflexivity.
Qed.

Lemma skipped_chunk_is_not_bounds_checked_witness :
  scan_chunk Samples.truncated_tail
    (Z.of_nat (List.length Samples.truncated_tail)) Samples.mono_16k
    (mkScanState 46 true 1 [Samples.half])
  = Ret (mkScanState (to_int (to_uint32 (to_uint32 54 + 100))) true 1
           [Samples.half]).
Proof.
  apply (proj1 skipped_chunk_is_not_bounds_checked
           Samples.truncated_tail _ Samples.mono_16k
           (mkScanState 46 true 1 [Samples.half]) (text "LIST") 100 54).
  - vm_compute. reflexivity.
  - vm_compute. discriminate.
Defined.

(* ----------------------------------------------------------------- *)
(** ** The encoder *)

Lemma Ret_inj {A : Type} (a b : A) : Ret a = Ret b -> a = b.
Proof. intros H. now injection H. Qed.

(** What a successful call of the encoder has written into the header. *)
Lemma encoder_output_header (audio : list Float32.float)
    (sample_rate num_channels num_frames : Z) (old wav : bytes) :
  EncodeAudioAsS16LEWav (Some audio) sample_rate num_channels num_frames
    (Some old) = Ret wav ->
  44 <= Z.of_nat (List.length wav)
  /\ has_magic wav
  /\ header_format_chunk_size wav = 16
  /\ header_compression_code wav = 1
  /\ header_channel_count wav = to_uint16 num_channels
  /\ header_sample_rate wav = to_uint32 sample_rate
  /\ header_bytes_per_second wav = to_uint32 (to_size_t (sample_rate * 2))
  /\ header_bytes_per_frame wav = to_uint16 (to_size_t (2 * num_channels))
  /\ header_bits_per_sample wav = 16.
Proof.
  unfold EncodeAudioAsS16LEWav.
  destruct ((sample_rate =? 0) || (sample_rate >? kuint32max));
    [discriminate|].
  destruct ((num_channels =? 0) || (num_channels >? kuint16max));
    [discriminate|].
  destruct (num_frames =? 0); [discriminate|].
  match goal with |- (if ?c then _ else _) = _ -> _ => destruct c end;
    [discriminate|].
  match goal with |- (if ?c then _ else _) = _ -> _ => destruct c end;
    [discriminate|].
  destruct (write_audio _ audio 0) as [samples| |]; cbn [bind];
    try discriminate.
  intros H. apply Ret_inj in H. subst wav.
  unfold header_format_chunk_size, header_compression_code,
    header_channel_count, header_sample_rate, header_bytes_per_second,
    header_bytes_per_frame, header_bits_per_sample, field.
  change (16 / 8) with 2.
  split.
  { rewrite !length_app. cbn [List.length kRiffChunkId kRiffType
      kFormatChunkId kDataChunkId text list_ascii_of_string EncodeFixed32
      EncodeFixed16 le_bytes]. lia. }
  split; [repeat split; reflexivity|].
  split.
  { match goal with |- le_value ?s = _ =>
      change s with (EncodeFixed32 (to_uint32 16)) end.
    rewrite le_value_EncodeFixed32. reflexivity. }
  split.
  { match goal with |- le_value ?s = _ =>
      change s with (EncodeFixed16 (to_uint16 1)) end.
    rewrite le_value_EncodeFixed16. reflexivity. }
  split.
  { match goal with |- le_value ?s = _ =>
      change s with (EncodeFixed16 (to_uint16 num_channels)) end.
    rewrite le_value_EncodeFixed16. unfold to_uint16, wrap_unsigned.
    now rewrite Z.mod_mod by lia. }
  split.
  { match goal with |- le_value ?s = _ =>
      change s with (EncodeFixed32 (to_uint32 sample_rate)) end.
    rewrite le_value_EncodeFixed32. unfold to_uint32, wrap_unsigned.
    now rewrite Z.mod_mod by lia. }
  split.
  { match goal with |- le_value ?s = _ =>
      change s
        with (EncodeFixed32 (to_uint32 (to_size_t (sample_rate * 2)))) end.
    rewrite le_value_EncodeFixed32. unfold to_uint32, wrap_unsigned.
    now rewrite Z.mod_mod by lia. }
  split.
  { match goal with |- le_value ?s = _ =>
      change s
        with (EncodeFixed16 (to_uint16 (to_size_t (2 * num_channels)))) end.
    rewrite le_value_EncodeFixed16. unfold to_uint16, wrap_unsigned.
    now rewrite Z.mod_mod by lia. }
  { match goal with |- le_value ?s = _ =>
      change s with (EncodeFixed16 (to_uint16 16)) end.
    rewrite le_value_EncodeFixed16. reflexivity. }
Qed.

(* ----------------------------------------------------------------- *)
(** ** C2: decoding what the encoder wrote *)

(** C2 fails on the code for more than one channel.  The encoder stores
    [sample_rate * 2] as bytes per second, without the channel count, while
    the decoder requires [bytes_per_frame * sample_rate]: for every sample
    sequence, every sample rate and every channel count from 2 up (with
    [num_channels * sample_rate < 2^31], so that nothing wraps), the
    decoder rejects the encoder's output with "Bad bytes per second". *)
Theorem encoded_multichannel_is_rejected (fuel : nat)
    (audio : list Float32.float) (sample_rate num_channels num_frames : Z)
    (old wav : bytes) :
  0 < sample_rate -> 2 <= num_channels < 2 ^ 15 ->
  num_channels * sample_rate < 2 ^ 31 ->
  EncodeAudioAsS16LEWav (Some audio) sample_rate num_channels num_frames
    (Some old) = Ret wav ->
  DecodeLin16WaveAsFloatVector fuel wav (Z.of_nat (List.length wav))
  = Some (Fail (StatusError error.INVALID_ARGUMENT
                  (String.concat ""
                     ["Bad bytes per second in WAV header: Expected ";
                      show_Z (2 * num_channels * sample_rate); " but got ";
                      show_Z (2 * sample_rate); " (sample_rate=";
                      show_Z sample_rate; ", bytes_per_sample=";
                      show_Z (2 * num_channels); ")"]))).
Proof.
  intros Hrate Hch Hprod Henc.
  destruct (encoder_output_header _ _ _ _ _ _ Henc)
    as (Hlen & Hmagic & Hsize & Hpcm & Hc & Hr & Hsec & Hfr & Hbits).
  assert (Hrate' : sample_rate < 2 ^ 30) by nia.
  rewrite to_uint16_small in Hc by lia.
  rewrite to_uint32_small in Hr by lia.
  rewrite to_size_t_small, to_uint32_small in Hsec by lia.
  rewrite to_size_t_small, to_uint16_small in Hfr by lia.
  assert (Hef : expected_bytes_per_frame wav = 2 * num_channels).
  { unfold expected_bytes_per_frame. rewrite Hbits, Hc.
    replace (16 * num_channels + 7) with (7 + num_channels * 2 * 8) by lia.
    rewrite Z.div_add by lia. change (7 / 8) with 0. lia. }
  assert (Hes : expected_bytes_per_second wav = 2 * num_channels * sample_rate).
  { unfold expected_bytes_per_second. rewrite Hfr, Hr.
    apply Z.mod_small. nia. }
  apply decode_header_failure.
  assert (Hfr' : header_bytes_per_frame wav = expected_bytes_per_frame wav)
    by (rewrite Hef; exact Hfr).
  assert (Hsec' : header_bytes_per_second wav <> expected_bytes_per_second wav)
    by (rewrite Hes, Hsec; nia).
  rewrite (decode_format_chunk_bad_second wav (Z.of_nat (List.length wav))
             ltac:(lia) Hmagic (or_introl Hsize) Hpcm Hbits Hfr' Hsec').
  rewrite Hes, Hsec, Hr, Hfr.
  replace (sample_rate * 2) with (2 * sample_rate) by lia. reflexivity.
Qed.

Lemma encoded_multichannel_is_rejected_witness :
  DecodeLin16WaveAsFloatVector 1 Samples.stereo_encoded
    (Z.of_nat (List.length Samples.stereo_encoded))
  = Some (Fail (StatusError error.INVALID_ARGUMENT
       "Bad bytes per second in WAV header: Expected 64000 but got 32000 (sample_rate=16000, bytes_per_sample=4)")).
Proof.
  apply (encoded_multichannel_is_rejected 1
           [Samples.half; Samples.minus_half] 16000 2 1 []
           Samples.stereo_encoded).
  - lia.
  - lia.
  - lia.
  - vm_compute. reflexivity.
Defined.

(* ----------------------------------------------------------------- *)
(** ** C8: the preconditions of the encoder *)

(** The file size the encoder computes, its three [size_t] operations
    folded into one reduction modulo 2^64. *)
Lemma encoder_file_size (num_frames num_channels : Z) :
  to_size_t (kHeaderSize
             + to_size_t (to_size_t (num_frames * num_channels) * 2))
  = to_size_t (kHeaderSize + 2 * (num_frames * num_channels)).
Proof.
  unfold to_size_t, wrap_unsigned.
  rewrite Z.mul_mod_idemp_l by lia.
  rewrite Z.add_mod_idemp_r by lia.
  f_equal. lia.
Qed.

(** C8, as stated, fails: for 2^63 frames of 2 channels the header plus
    2 bytes per sample is 44 + 2^65 bytes, above 2^32 - 1, but
    [num_frames * num_channels] is 0 in [size_t] arithmetic: the encoder
    does not fail, it returns OK with a file of the 44 header bytes. *)
Lemma wrapping_frame_count_is_accepted :
  kHeaderSize + 2 * (2 ^ 63 * 2) > 2 ^ 32 - 1
  /\ (exists wav,
        EncodeAudioAsS16LEWav (Some []) 16000 2 (2 ^ 63) (Some []) = Ret wav
        /\ List.length wav = 44%nat)
  /\ ~ (exists s,
          EncodeAudioAsS16LEWav (Some []) 16000 2 (2 ^ 63) (Some [])
          = Fail s).
Proof.
  split; [vm_compute; reflexivity|]. split.
  - eexists. split; vm_compute; reflexivity.
  - intros [s Hs]. vm_compute in Hs. discriminate.
Qed.

(** C8, amended: for every call, the encoder fails with InvalidArgument,
    and so leaves [*wav_string] untouched, whenever sample_rate is 0 or
    above 2^32 - 1, num_channels is 0 or above 2^16 - 1, num_frames is 0,
    or the file size as the code computes it, 44 bytes of header plus
    2 bytes per sample reduced modulo 2^64, exceeds 2^32 - 1. *)
Theorem encoder_rejects_bad_arguments (audio : option (list Float32.float))
    (sample_rate num_channels num_frames : Z) (wav_string : option bytes) :
  sample_rate = 0 \/ sample_rate > 2 ^ 32 - 1
  \/ num_channels = 0 \/ num_channels > 2 ^ 16 - 1
  \/ num_frames = 0
  \/ to_size_t (kHeaderSize + 2 * (num_frames * num_channels)) > 2 ^ 32 - 1 ->
  exists msg,
    EncodeAudioAsS16LEWav audio sample_rate num_channels num_frames wav_string
    = Fail (StatusError error.INVALID_ARGUMENT msg).
Proof.
  intros Hbad. unfold EncodeAudioAsS16LEWav.
  destruct audio as [samples|]; [|eexists; reflexivity].
  destruct wav_string as [old|]; [|eexists; reflexivity].
  destruct (Z.eqb_spec sample_rate 0) as [|Hr0]; [eexists; reflexivity|].
  destruct (Z.gtb_spec sample_rate kuint32max) as [|Hr1];
    [eexists; reflexivity|].
  cbn [orb].
  destruct (Z.eqb_spec num_channels 0) as [|Hc0]; [eexists; reflexivity|].
  destruct (Z.gtb_spec num_channels kuint16max) as [|Hc1];
    [eexists; reflexivity|].
  cbn [orb].
  destruct (Z.eqb_spec num_frames 0) as [|Hf0]; [eexists; reflexivity|].
  unfold kuint32max, kuint16max in *.
  change (16 / 8) with 2.
  rewrite encoder_file_size.
  rewrite gtb_true by lia.
  eexists; reflexivity.
Qed.

Lemma encoder_rejects_bad_arguments_witness :
  exists msg,
    EncodeAudioAsS16LEWav (Some []) 16000 1 (2 ^ 31) (Some [])
    = Fail (StatusError error.INVALID_ARGUMENT msg).
Proof.
  apply (encoder_rejects_bad_arguments (Some []) 16000 1 (2 ^ 31) (Some [])).
  do 5 right. vm_compute. reflexivity.
Defined.

(* ----------------------------------------------------------------- *)
(** ** The loudest-segment finder *)

(** A window at least as long as the buffer gives the whole buffer. *)
Lemma TrimToLoudestSegment_whole_buffer (input : list Float32.float)
    (desired_samples : Z) :
  Z.of_nat (List.length input) <= desired_samples ->
  TrimToLoudestSegment input desired_samples = Some input.
Proof.
  intros Hlong. unfold TrimToLoudestSegment.
  destruct (Z.geb_spec desired_samples (Z.of_nat (List.length input)));
    [reflexivity | lia].
Qed.

Lemma copy_range_length (input out : list Float32.float) (first last : Z) :
  copy_range input first last = Some out ->
  Z.of_nat (List.length out) = last - first.
Proof.
  unfold copy_range.
  destruct (Z.leb_spec 0 first); [|discriminate].
  destruct (Z.leb_spec first last); [|discriminate].
  destruct (Z.leb_spec last (Z.of_nat (List.length input))); [|discriminate].
  cbn [andb]. intros Hcopy. injection Hcopy as <-.
  rewrite length_firstn, length_skipn. lia.
Qed.

(** A shorter window gives, when the call is defined, exactly the number
    of samples asked for. *)
Lemma TrimToLoudestSegment_length (input out : list Float32.float)
    (desired_samples : Z) :
  desired_samples < Z.of_nat (List.length input) ->
  TrimToLoudestSegment input desired_samples = Some out ->
  Z.of_nat (List.length out) = desired_samples.
Proof.
  intros Hlt. unfold TrimToLoudestSegment.
  destruct (Z.geb_spec desired_samples (Z.of_nat (List.length input)));
    [lia|].
  destruct (first_window_volume _ input 0 Float32.zero); [|discriminate].
  destruct (slide_window _ input desired_samples desired_samples _ _ _)
    as [loudest_end_index|]; [|discriminate].
  intros Hcopy. apply copy_range_length in Hcopy. lia.
Qed.

Lemma vec_at_defined (v : list Float32.float) (i : Z) :
  0 <= i < Z.of_nat (List.length v) -> exists x, vec_at v i = Some x.
Proof.
  intros H. unfold vec_at. rewrite ltb_false by lia.
  destruct (nth_error v (Z.to_nat i)) as [x|] eqn:E; [now exists x|].
  apply nth_error_None in E. lia.
Qed.

Lemma first_window_volume_defined (n : nat) (input : list Float32.float)
    (i : Z) (current_volume_sum : Float32.float) :
  0 <= i -> i + Z.of_nat n <= Z.of_nat (List.length input) ->
  exists v, first_window_volume n input i current_volume_sum = Some v.
Proof.
  revert i current_volume_sum. induction n as [|n IH]; intros i acc Hi Hn.
  - now exists acc.
  - cbn [first_window_volume].
    destruct (vec_at_defined input i ltac:(lia)) as [x ->].
    apply IH; lia.
Qed.

(** The index the second loop records stays inside the buffer. *)
Lemma slide_window_defined (n : nat) (input : list Float32.float)
    (desired_samples i : Z) (current_volume_sum loudest_volume : Float32.float)
    (loudest_end_index : Z) :
  0 <= desired_samples <= i ->
  i + Z.of_nat n <= Z.of_nat (List.length input) ->
  desired_samples <= loudest_end_index <= Z.of_nat (List.length input) ->
  exists e,
    slide_window n input desired_samples i current_volume_sum loudest_volume
      loudest_end_index = Some e
    /\ desired_samples <= e <= Z.of_nat (List.length input).
Proof.
  revert i current_volume_sum loudest_volume loudest_end_index.
  induction n as [|n IH]; intros i cur loud e0 Hi Hn He.
  - exists e0. now split.
  - cbn [slide_window].
    destruct (vec_at_defined input (i - desired_samples) ltac:(lia))
      as [trailing ->].
    destruct (vec_at_defined input i ltac:(lia)) as [leading ->].
    destruct (Float32.gtb _ loud); apply IH; lia.
Qed.

(** With a window length that is not negative the function is defined. *)
Lemma TrimToLoudestSegment_defined (input : list Float32.float)
    (desired_samples : Z) :
  0 <= desired_samples ->
  exists out, TrimToLoudestSegment input desired_samples = Some out.
Proof.
  intros Hd. unfold TrimToLoudestSegment.
  destruct (Z.geb_spec desired_samples (Z.of_nat (List.length input)))
    as [Hge | Hlt]; [now exists input|].
  destruct (first_window_volume_defined (Z.to_nat desired_samples) input 0
              Float32.zero ltac:(lia) ltac:(lia)) as [v ->].
  destruct (slide_window_defined
              (Z.to_nat (Z.of_nat (List.length input) - desired_samples))
              input desired_samples desired_samples v v desired_samples
              ltac:(lia) ltac:(lia) ltac:(lia)) as (e & -> & He).
  unfold copy_range.
  replace (0 <=? e - desired_samples) with true
    by (symmetry; apply Z.leb_le; lia).
  replace (e - desired_samples <=? e) with true
    by (symmetry; apply Z.leb_le; lia).
  replace (e <=? Z.of_nat (List.length input)) with true
    by (symmetry; apply Z.leb_le; lia).
  cbn [andb]. eexists. reflexivity.
Qed.

(** C1 fails on the code.  In the second loop the window that has just
    been summed ends with sample [i], but [i] itself is recorded as the end
    of the range to copy, one sample short.  On [0,0,0,10,10,10,0,0,0] with
    a window of 3 the loudest window is [10,10,10] at offset 3, of volume
    30; the function returns [0,10,10], the window at offset 2, of volume
    20. *)
Theorem TrimToLoudestSegment_misses_loudest_window :
  TrimToLoudestSegment Samples.loud_in_the_middle 3
  = Some (window Samples.loud_in_the_middle 2 3)
  /\ window Samples.loud_in_the_middle 2 3 = map Float32.of_Z [0; 10; 10]
  /\ window Samples.loud_in_the_middle 3 3 = map Float32.of_Z [10; 10; 10]
  /\ total_volume_of (window Samples.loud_in_the_middle 2 3) = Float32.of_Z 20
  /\ total_volume_of (window Samples.loud_in_the_middle 3 3) = Float32.of_Z 30
  /\ Float32.ltb (Float32.of_Z 20) (Float32.of_Z 30) = true.
Proof.
  split; [vm_compute; reflexivity|].
  split; [vm_compute; reflexivity|].
  split; [vm_compute; reflexivity|].
  split; [vm_compute; reflexivity|].
  split; [vm_compute; reflexivity|].
  vm_compute; reflexivity.
Qed.

(* ----------------------------------------------------------------- *)
(** ** The downmix *)

Lemma downmix_frames_length (n : nat) (wav_samples mono : list Float32.float)
    (channel_count i : Z) :
  downmix_frames n wav_samples channel_count i = Some mono ->
  List.length mono = n.
Proof.
  revert i mono. induction n as [|n IH]; intros i mono H.
  - cbn in H. injection H as <-. reflexivity.
  - cbn [downmix_frames] in H.
    destruct (2 ^ 31 - 1 <? i * channel_count); [discriminate|].
    destruct (sum_channels _ wav_samples _ 0 Float32.zero); [|discriminate].
    destruct (downmix_frames n wav_samples channel_count (i + 1)) as [rest|]
      eqn:E; [|discriminate].
    injection H as <-. cbn [List.length]. f_equal. now apply (IH (i + 1)).
Qed.

(** The mono buffer has [sample_count / channel_count] samples, where
    [sample_count] is what the decoder stored: the number of frames. *)
Lemma downmix_to_mono_length (wav_samples mono : list Float32.float)
    (sample_count channel_count : Z) :
  downmix_to_mono wav_samples sample_count channel_count = Some mono ->
  Z.of_nat (List.length mono) = to_int (sample_count / channel_count).
Proof.
  unfold downmix_to_mono.
  destruct (channel_count =? 0); [discriminate|].
  destruct (Z.ltb_spec (to_int (sample_count / channel_count)) 0);
    [discriminate|].
  intros Hmix. apply downmix_frames_length in Hmix. lia.
Qed.

(** C3 fails on the code.  The decoder stores the number of frames in
    [sample_count], and the downmix divides it by the channel count again.
    A file with two stereo frames decodes to four values and
    [sample_count = 2], and the downmix leaves one mono sample; so do the
    two frames (1.0, -1.0), (0.5, -0.5). *)
Theorem downmix_drops_frames :
  DecodeLin16WaveAsFloatVector 1 Samples.stereo_two_frames
    (Z.of_nat (List.length Samples.stereo_two_frames))
  = Some (Ret (mkDecodedWav
                 [Samples.half; Samples.minus_half;
                  Samples.quarter; Samples.minus_quarter] 2 2 16000))
  /\ downmix_to_mono
       [Samples.half; Samples.minus_half;
        Samples.quarter; Samples.minus_quarter] 2 2
     = Some [Float32.zero]
  /\ downmix_to_mono Samples.stereo_unit_frames 2 2 = Some [Float32.zero]
  /\ loudest_slice
       (mkDecodedWav
          [Samples.half; Samples.minus_half;
           Samples.quarter; Samples.minus_quarter] 2 2 16000)
       main_desired_length_ms
     = Some ([Float32.zero], 16000).
Proof.
  split; [vm_compute; reflexivity|].
  split; [vm_compute; reflexivity|].
  split; [vm_compute; reflexivity|].
  vm_compute; reflexivity.
Qed.

(* ----------------------------------------------------------------- *)
(** ** The trim pipeline *)

(** A failure of the decoder is what [TrimFile] returns. *)
Lemma TrimFile_decode_failure (fuel : nat) (input_file : bytes)
    (desired_length_ms : Z) (min_volume : Float32.float) (s : Status) :
  DecodeLin16WaveAsFloatVector fuel input_file
    (Z.of_nat (List.length input_file)) = Some (Fail s) ->
  TrimFile fuel input_file desired_length_ms min_volume
  = Some (Returned s [LogDecodeFailed s]).
Proof. intros H. unfold TrimFile. now rewrite H. Qed.

(** Once the decoder has succeeded, [TrimFile] returns OK whenever it
    returns: the status of the encoder is not looked at. *)
Lemma TrimFile_status_after_decode (fuel : nat) (input_file : bytes)
    (desired_length_ms : Z) (min_volume : Float32.float) (wav : DecodedWav)
    (s : Status) (events : list Event) :
  DecodeLin16WaveAsFloatVector fuel input_file
    (Z.of_nat (List.length input_file)) = Some (Ret wav) ->
  TrimFile fuel input_file desired_length_ms min_volume
  = Some (Returned s events) ->
  s = StatusOK.
Proof.
  intros Hd. unfold TrimFile. rewrite Hd.
  destruct (loudest_slice wav desired_length_ms) as [[trimmed desired]|];
    [|discriminate].
  destruct (Float32.ltb _ min_volume); [congruence|].
  destruct (EncodeAudioAsS16LEWav _ _ _ _ _); congruence.
Qed.

(** C4: for every input that decodes and whose extracted slice has an
    average volume (the sum of the absolute sample values over
    desired_samples) below the threshold, the pipeline returns OK after
    logging that the file was skipped; it neither calls the encoder nor
    writes an output file. *)
Theorem quiet_slice_is_skipped (fuel : nat) (input_file : bytes)
    (desired_length_ms : Z) (min_volume : Float32.float) (wav : DecodedWav)
    (trimmed_samples : list Float32.float) (desired_samples : Z) :
  DecodeLin16WaveAsFloatVector fuel input_file
    (Z.of_nat (List.length input_file)) = Some (Ret wav) ->
  loudest_slice wav desired_length_ms
  = Some (trimmed_samples, desired_samples) ->
  Float32.ltb (average_volume_of trimmed_samples desired_samples) min_volume
  = true ->
  TrimFile fuel input_file desired_length_ms min_volume
  = Some (Returned StatusOK
            [LogSkipped (average_volume_of trimmed_samples desired_samples)]).
Proof.
  intros Hd Hs Hq. unfold TrimFile. now rewrite Hd, Hs, Hq.
Qed.

Lemma quiet_slice_is_skipped_witness :
  TrimFile 1 Samples.silent_file main_desired_length_ms main_min_volume
  = Some (Returned StatusOK
            [LogSkipped (average_volume_of [Float32.zero] 16000)]).
Proof.
  apply (quiet_slice_is_skipped 1 Samples.silent_file main_desired_length_ms
           main_min_volume (mkDecodedWav [Float32.zero] 1 1 16000)
           [Float32.zero] 16000).
  - vm_compute. reflexivity.
  - vm_compute. reflexivity.
  - vm_compute. reflexivity.
Defined.

(** C5 fails on the code for the encoder.  [TrimFile] stores the status of
    [EncodeAudioAsS16LEWav] in [save_wav_status] and never reads it.  With
    the parameters of [main], a file whose header declares a sample rate
    of 0 is decoded, the encoder rejects the call with InvalidArgument, and
    [TrimFile] writes an empty output file and returns OK. *)
Theorem encoder_failure_is_not_propagated :
  TrimFile 1 Samples.zero_rate_file main_desired_length_ms main_min_volume
  = Some (Returned StatusOK
            [CallEncode None 0 1 0
               (StatusError error.INVALID_ARGUMENT "audio is null");
             WriteOutputFile []; LogSaved]).
Proof. vm_compute. reflexivity. Qed.

Lemma TrimToLoudestSegment_zero (input out : list Float32.float) :
  TrimToLoudestSegment input 0 = Some out -> out = [].
Proof.
  intros Htrim.
  destruct (Z.le_gt_cases (Z.of_nat (List.length input)) 0) as [Hempty | Hlt].
  - rewrite TrimToLoudestSegment_whole_buffer in Htrim by exact Hempty.
    injection Htrim as <-. destruct input; [reflexivity | cbn in Hempty; lia].
  - apply TrimToLoudestSegment_length in Htrim; [|lia].
    destruct out; [reflexivity | cbn in Htrim; lia].
Qed.

Lemma ltb_nan_l (x : Float32.float) : Float32.ltb S754_nan x = false.
Proof. reflexivity. Qed.

(** C9, as stated, fails: a 16 kHz file trimmed to 0 ms has
    desired_samples = 0; the pipeline does not fail, it goes on to call the
    encoder. *)
Lemma zero_length_request_is_not_a_failure :
  DecodeLin16WaveAsFloatVector 1 Samples.one_sample_file
    (Z.of_nat (List.length Samples.one_sample_file))
  = Some (Ret (mkDecodedWav [Samples.half] 1 1 16000))
  /\ loudest_slice (mkDecodedWav [Samples.half] 1 1 16000) 0 = Some ([], 0)
  /\ TrimFile 1 Samples.one_sample_file 0 main_min_volume
     = Some (Returned StatusOK
               [CallEncode None 16000 1 0
                  (StatusError error.INVALID_ARGUMENT "audio is null");
                WriteOutputFile []; LogSaved])
  /\ ~ (exists c msg events,
          TrimFile 1 Samples.one_sample_file 0 main_min_volume
          = Some (Returned (StatusError c msg) events)).
Proof.
  split; [vm_compute; reflexivity|].
  split; [vm_compute; reflexivity|].
  split; [vm_compute; reflexivity|].
  intros (c & msg & events & H). vm_compute in H. discriminate.
Qed.

(** C9, amended: when desired_samples is 0 the pipeline performs the
    division.  The slice is empty, its volume 0.0 divided by 0.0 is a NaN,
    a NaN is below no threshold, so the slice is not skipped as too quiet:
    the pipeline calls the encoder with no frames, and the encoder answers
    InvalidArgument. *)
Theorem zero_length_request_reaches_encoder (fuel : nat) (input_file : bytes)
    (desired_length_ms : Z) (min_volume : Float32.float) (wav : DecodedWav)
    (trimmed_samples : list Float32.float) :
  DecodeLin16WaveAsFloatVector fuel input_file
    (Z.of_nat (List.length input_file)) = Some (Ret wav) ->
  loudest_slice wav desired_length_ms = Some (trimmed_samples, 0) ->
  trimmed_samples = []
  /\ average_volume_of trimmed_samples 0 = S754_nan
  /\ Float32.ltb (average_volume_of trimmed_samples 0) min_volume = false
  /\ exists save_wav_status s events,
       code save_wav_status = error.INVALID_ARGUMENT
       /\ TrimFile fuel input_file desired_length_ms min_volume
          = Some (Returned s
                    (CallEncode None (sample_rate wav) 1 0 save_wav_status
                     :: events)).
Proof.
  intros Hd Hs.
  assert (Hnil : trimmed_samples = []).
  { unfold loudest_slice in Hs.
    destruct (if negb (channel_count wav =? 1) then _ else _)
      as [wav_samples|]; [|discriminate].
    destruct (negb (in_int64 (desired_length_ms * sample_rate wav)));
      [discriminate|].
    destruct (TrimToLoudestSegment wav_samples _) as [out|] eqn:Htrim;
      [|discriminate].
    injection Hs as -> Hzero. rewrite Hzero in Htrim.
    now apply TrimToLoudestSegment_zero in Htrim. }
  subst trimmed_samples.
  split; [reflexivity|].
  split; [vm_compute; reflexivity|].
  split; [apply ltb_nan_l|].
  exists (StatusError error.INVALID_ARGUMENT "audio is null"), StatusOK,
    [WriteOutputFile []; LogSaved].
  split; [reflexivity|].
  unfold TrimFile. rewrite Hd, Hs.
  change (average_volume_of [] 0) with S754_nan.
  rewrite ltb_nan_l. reflexivity.
Qed.

Lemma zero_length_request_reaches_encoder_witness :
  ([] : list Float32.float) = []
  /\ average_volume_of [] 0 = S754_nan
  /\ Float32.ltb (average_volume_of [] 0) main_min_volume = false
  /\ exists save_wav_status s events,
       code save_wav_status = error.INVALID_ARGUMENT
       /\ TrimFile 1 Samples.one_sample_file 0 main_min_volume
          = Some (Returned s
                    (CallEncode None
                       (sample_rate (mkDecodedWav [Samples.half] 1 1 16000))
                       1 0 save_wav_status
                     :: events)).
Proof.
  apply (zero_length_request_reaches_encoder 1 Samples.one_sample_file 0
           main_min_volume (mkDecodedWav [Samples.half] 1 1 16000) []).
  - vm_compute. reflexivity.
  - vm_compute. reflexivity.
Defined.

(* ================================================================= *)
(** * Further properties of the code *)

(** ** The sample conversions *)

Lemma all_from_spec (f : Z -> bool) (n : nat) (lo z : Z) :
  all_from n lo f = true -> lo <= z < lo + Z.of_nat n -> f z = true.
Proof.
  revert lo. induction n as [|n IH]; intros lo Hall Hz.
  - cbn in Hz. lia.
  - cbn [all_from] in Hall. apply andb_prop in Hall as [Hlo Hrest].
    destruct (Z.eq_dec z lo) as [-> | Hne]; [exact Hlo|].
    apply (IH (lo + 1)); [exact Hrest | lia].
Qed.

Lemma every_sample_survives :
  all_from (Z.to_nat 65536) (-32768) sample_survives = true.
Proof. vm_compute. reflexivity. Qed.

Lemma sample_survives_spec (s : Z) :
  kint16min <= s <= kint16max -> sample_survives s = true.
Proof.
  intros Hs. unfold kint16min, kint16max in Hs.
  apply (all_from_spec sample_survives _ _ s every_sample_survives).
  change (Z.of_nat (Z.to_nat 65536)) with 65536. lia.
Qed.

Lemma FloatToInt16Sample_Int16SampleToFloat (s : Z) :
  kint16min <= s <= kint16max ->
  FloatToInt16Sample (Int16SampleToFloat s) = Some s.
Proof.
  intros Hs. pose proof (sample_survives_spec s Hs) as H.
  unfold sample_survives in H.
  apply andb_prop in H as [H _]. apply andb_prop in H as [H _].
  destruct (FloatToInt16Sample (Int16SampleToFloat s)) as [z|];
    [|discriminate].
  apply Z.eqb_eq in H. now subst z.
Qed.

(** Every 16-bit sample [s] is decoded to a [float] in [-1, 1) that the
    encoder converts back to [s]: the conversion pair loses nothing on
    decoded audio. *)
Theorem pcm16_sample_round_trip (s : Z) :
  kint16min <= s <= kint16max ->
  FloatToInt16Sample (Int16SampleToFloat s) = Some s
  /\ SFleb (Float32.of_Z (-1)) (Int16SampleToFloat s) = true
  /\ SFltb (Int16SampleToFloat s) (Float32.of_Z 1) = true.
Proof.
  intros Hs. split; [now apply FloatToInt16Sample_Int16SampleToFloat|].
  pose proof (sample_survives_spec s Hs) as H.
  unfold sample_survives in H.
  apply andb_prop in H as [H H3]. apply andb_prop in H as [_ H2].
  now split.
Qed.

Lemma pcm16_sample_round_trip_witness :
  FloatToInt16Sample (Int16SampleToFloat (-32768)) = Some (-32768)
  /\ SFleb (Float32.of_Z (-1)) (Int16SampleToFloat (-32768)) = true
  /\ SFltb (Int16SampleToFloat (-32768)) (Float32.of_Z 1) = true.
Proof.
  apply (pcm16_sample_round_trip (-32768)).
  unfold kint16min, kint16max. lia.
Defined.

Lemma to_int16_range (z : Z) : kint16min <= to_int16 z <= kint16max.
Proof.
  unfold to_int16, wrap_signed, kint16min, kint16max.
  pose proof (Z.mod_pos_bound (z + 2 ^ (16 - 1)) (2 ^ 16) ltac:(lia)).
  change (2 ^ (16 - 1)) with 32768 in *. change (2 ^ 16) with 65536 in *.
  lia.
Qed.

Lemma to_int16_to_uint16 (s : Z) :
  kint16min <= s <= kint16max -> to_int16 (to_uint16 s) = s.
Proof.
  unfold to_int16, to_uint16, wrap_signed, wrap_unsigned, kint16min, kint16max.
  intros Hs. change (2 ^ (16 - 1)) with 32768. change (2 ^ 16) with 65536.
  rewrite Zplus_mod_idemp_l.
  rewrite Z.mod_small by lia. lia.
Qed.

(* ----------------------------------------------------------------- *)
(** ** The chunk reader stays inside the buffer *)

Lemma to_int_overflow (z : Z) :
  2 ^ 31 <= z < 2 ^ 32 -> to_int z = z - 2 ^ 32.
Proof.
  intros H. unfold to_int, wrap_signed.
  change (2 ^ (32 - 1)) with (2 ^ 31).
  replace (z + 2 ^ 31) with (z - 2 ^ 31 + 1 * 2 ^ 32) by lia.
  rewrite Z.mod_add by lia. rewrite Z.mod_small by lia. lia.
Qed.

(** The cursor after a [size_t] addition narrowed to [int]: for a cursor
    and a length that are not negative it is the exact sum, or it is
    negative. *)
Lemma narrowed_cursor (offset n : Z) :
  0 <= offset < 2 ^ 31 -> 0 <= n < 2 ^ 31 ->
  to_int (to_size_t (to_size_t offset + n)) = offset + n
  \/ to_int (to_size_t (to_size_t offset + n)) < 0.
Proof.
  intros Ho Hn.
  rewrite (to_size_t_small offset) by lia.
  rewrite to_size_t_small by lia.
  destruct (Z_lt_le_dec (offset + n) (2 ^ 31)) as [Hs | Hl].
  - left. apply to_int_small. lia.
  - right. rewrite to_int_overflow by lia. lia.
Qed.

Lemma to_int_range (z : Z) : - 2 ^ 31 <= to_int z < 2 ^ 31.
Proof.
  unfold to_int, wrap_signed.
  pose proof (Z.mod_pos_bound (z + 2 ^ (32 - 1)) (2 ^ 32) ltac:(lia)).
  change (2 ^ (32 - 1)) with (2 ^ 31) in *. lia.
Qed.

Section ReaderInversion.

Variables (data : bytes) (data_length : Z).

Lemma ReadValue_inv (sizeof_T : Z) (interp : Z -> Z)
    (offset value offset' : Z) :
  - 2 ^ 31 <= offset < 2 ^ 31 -> 0 <= sizeof_T < 2 ^ 31 ->
  ReadValue sizeof_T interp data data_length offset = Ret (value, offset') ->
  0 <= offset /\ offset' = offset + sizeof_T /\ offset' <= data_length
  /\ offset' < 2 ^ 31
  /\ value = interp (field data offset sizeof_T).
Proof.
  intros Hoff Hsz. unfold ReadValue.
  destruct (_ >? data_length) eqn:Hgt; [discriminate|].
  destruct (Z.ltb_spec offset 0) as [|Hnn]; [discriminate|].
  destruct (Z.ltb_spec (to_int (to_size_t (to_size_t offset + sizeof_T)))
              offset) as [|Hge]; [discriminate|].
  cbn [orb]. intros Hret. apply Ret_inj in Hret.
  pose proof (to_int_range (to_size_t (to_size_t offset + sizeof_T))) as Hr.
  destruct (narrowed_cursor offset sizeof_T ltac:(lia) Hsz)
    as [He | Hneg]; [|lia].
  rewrite He in *. rewrite to_size_t_small in Hgt by lia.
  rewrite Z.gtb_ltb in Hgt. apply Z.ltb_ge in Hgt.
  injection Hret as <- <-. unfold field. repeat split; lia.
Qed.

Lemma ExpectText_inv (expected_text : bytes) (offset offset' : Z) :
  - 2 ^ 31 <= offset < 2 ^ 31 ->
  Z.of_nat (List.length expected_text) < 2 ^ 31 ->
  ExpectText data data_length expected_text offset = Ret offset' ->
  0 <= offset
  /\ offset' = offset + Z.of_nat (List.length expected_text)
  /\ offset' <= data_length
  /\ slice data offset (Z.of_nat (List.length expected_text))
     = expected_text.
Proof.
  intros Hoff Hlen. unfold ExpectText.
  destruct (_ >? data_length) eqn:Hgt; [discriminate|].
  destruct (Z.ltb_spec offset 0) as [|Hnn]; [discriminate|].
  destruct (Z.ltb_spec
              (to_int (to_size_t (to_size_t offset
                                  + Z.of_nat (List.length expected_text))))
              offset) as [|Hge]; [discriminate|].
  cbn [orb].
  destruct (narrowed_cursor offset (Z.of_nat (List.length expected_text))
              ltac:(lia) ltac:(lia)) as [He | Hneg]; [|lia].
  rewrite He in *. rewrite to_size_t_small in Hgt by lia.
  rewrite Z.gtb_ltb in Hgt. apply Z.ltb_ge in Hgt.
  replace (offset + Z.of_nat (List.length expected_text) - offset)
    with (Z.of_nat (List.length expected_text)) by lia.
  destruct (bytes_eqb _ expected_text) eqn:E; cbn [negb];
    [|discriminate].
  apply bytes_eqb_eq in E. intros Hret. apply Ret_inj in Hret.
  subst offset'. repeat split; try lia. exact E.
Qed.

Lemma ReadString_inv (expected_length offset : Z) (value : bytes)
    (offset' : Z) :
  0 <= expected_length ->
  ReadString data data_length expected_length offset
  = Ret (value, offset') ->
  0 <= offset /\ offset' = offset + expected_length
  /\ offset' <= data_length /\ offset' < 2 ^ 31
  /\ value = slice data offset expected_length.
Proof.
  intros Hn. unfold ReadString.
  destruct (Z.ltb_spec (2 ^ 31 - 1) (offset + expected_length));
    [discriminate|].
  destruct (_ >? data_length) eqn:Hgt; [discriminate|].
  destruct (Z.ltb_spec offset 0) as [|Hnn]; [discriminate|].
  destruct (Z.ltb_spec (offset + expected_length) offset);
    [discriminate|].
  cbn [orb]. rewrite to_size_t_small in Hgt by lia.
  rewrite Z.gtb_ltb in Hgt. apply Z.ltb_ge in Hgt.
  intros Hret. apply Ret_inj in Hret. injection Hret as <- <-.
  repeat split; lia.
Qed.

End ReaderInversion.

(** A read that succeeds started at a cursor that is not negative, has
    advanced it by exactly the size read, and ends inside the buffer: no
    reader looks past [data_length]. *)
Theorem chunk_reader_success_in_bounds (data : bytes) (data_length : Z)
    (offset : Z) :
  - 2 ^ 31 <= offset < 2 ^ 31 ->
  (forall sizeof_T interp value offset',
      0 <= sizeof_T < 2 ^ 31 ->
      ReadValue sizeof_T interp data data_length offset
      = Ret (value, offset') ->
      0 <= offset /\ offset' = offset + sizeof_T /\ offset' <= data_length
      /\ value = interp (field data offset sizeof_T))
  /\ (forall expected_text offset',
         Z.of_nat (List.length expected_text) < 2 ^ 31 ->
         ExpectText data data_length expected_text offset = Ret offset' ->
         0 <= offset
         /\ offset' = offset + Z.of_nat (List.length expected_text)
         /\ offset' <= data_length
         /\ slice data offset (Z.of_nat (List.length expected_text))
            = expected_text)
  /\ (forall expected_length value offset',
         0 <= expected_length ->
         ReadString data data_length expected_length offset
         = Ret (value, offset') ->
         0 <= offset /\ offset' = offset + expected_length
         /\ offset' <= data_length
         /\ value = slice data offset expected_length).
Proof.
  intros Hoff. split; [|split].
  - intros sz interp value offset' Hsz Hret.
    destruct (ReadValue_inv _ _ _ _ _ _ _ Hoff Hsz Hret)
      as (H1 & H2 & H3 & _ & H4). now repeat split.
  - intros expected_text offset' Hlen Hret.
    now apply (ExpectText_inv data data_length).
  - intros expected_length value offset' Hn Hret.
    destruct (ReadString_inv _ _ _ _ _ _ Hn Hret)
      as (H1 & H2 & H3 & _ & H4). now repeat split.
Qed.

Lemma chunk_reader_success_in_bounds_witness :
  (0 <= 16 /\ 20 = 16 + 4
   /\ 20 <= Z.of_nat (List.length Samples.one_sample_file)
   /\ 16 = (fun v => v) (field Samples.one_sample_file 16 4))
  /\ (0 <= 8 /\ 12 = 8 + Z.of_nat (List.length kRiffType)
      /\ 12 <= Z.of_nat (List.length Samples.one_sample_file)
      /\ slice Samples.one_sample_file 8 (Z.of_nat (List.length kRiffType))
         = kRiffType)
  /\ (0 <= 36 /\ 40 = 36 + 4
      /\ 40 <= Z.of_nat (List.length Samples.one_sample_file)
      /\ kDataChunkId = slice Samples.one_sample_file 36 4).
Proof.
  split; [|split].
  - apply (proj1 (chunk_reader_success_in_bounds Samples.one_sample_file
                    (Z.of_nat (List.length Samples.one_sample_file)) 16
                    ltac:(lia)) 4 (fun v => v) 16 20 ltac:(lia)).
    vm_compute. reflexivity.
  - apply (proj1 (proj2 (chunk_reader_success_in_bounds
                           Samples.one_sample_file
                           (Z.of_nat (List.length Samples.one_sample_file)) 8
                           ltac:(lia))) kRiffType 12
             ltac:(vm_compute; reflexivity)).
    vm_compute. reflexivity.
  - apply (proj2 (proj2 (chunk_reader_success_in_bounds
                           Samples.one_sample_file
                           (Z.of_nat (List.length Samples.one_sample_file)) 36
                           ltac:(lia))) 4 kDataChunkId 40 ltac:(lia)).
    vm_compute. reflexivity.
Defined.

(* ----------------------------------------------------------------- *)
(** ** The decoder: failures, results, and what can go wrong *)

Lemma ReadValue_Fail (sizeof_T : Z) (interp : Z -> Z) (data : bytes)
    (data_length offset : Z) (s : Status) :
  ReadValue sizeof_T interp data data_length offset = Fail s ->
  code s = error.INVALID_ARGUMENT.
Proof.
  unfold ReadValue. destruct (_ >? data_length).
  - intros H. injection H as <-. reflexivity.
  - destruct (_ || _); discriminate.
Qed.

Lemma ReadString_Fail (data : bytes) (data_length n offset : Z) (s : Status) :
  ReadString data data_length n offset = Fail s ->
  code s = error.INVALID_ARGUMENT.
Proof.
  unfold ReadString. destruct (_ <? _); [discriminate|].
  destruct (_ >? data_length).
  - intros H. injection H as <-. reflexivity.
  - destruct (_ || _); discriminate.
Qed.

Lemma read_samples_Fail (n : nat) (data : bytes) (data_length offset : Z)
    (s : Status) :
  read_samples n data data_length offset = Fail s ->
  code s = error.INVALID_ARGUMENT.
Proof.
  revert offset. induction n as [|n IH]; intros offset; [discriminate|].
  cbn [read_samples]. unfold ReadValue_int16.
  destruct (ReadValue 2 to_int16 data data_length offset)
    as [[v off]| s'|] eqn:E; cbn [bind]; try discriminate.
  - destruct (read_samples n data data_length off) as [[rest off']| s'|]
      eqn:E'; cbn [bind]; try discriminate.
    intros H. injection H as <-. now apply (IH off).
  - intros H. injection H as <-. now apply ReadValue_Fail in E.
Qed.

Lemma scan_chunk_Fail (wav : bytes) (wav_length : Z) (fmt : FormatInfo)
    (st : ScanState) (s : Status) :
  scan_chunk wav wav_length fmt st = Fail s ->
  code s = error.INVALID_ARGUMENT.
Proof.
  unfold scan_chunk, ReadValue_uint32.
  destruct (ReadString wav wav_length 4 (scan_offset st))
    as [[id off1]| s'|] eqn:E1; cbn [bind]; try discriminate.
  2: { intros H. injection H as <-. now apply ReadString_Fail in E1. }
  destruct (ReadValue 4 (fun v => v) wav wav_length off1)
    as [[sz off2]| s'|] eqn:E2; cbn [bind]; try discriminate.
  2: { intros H. injection H as <-. now apply ReadValue_Fail in E2. }
  destruct (bytes_eqb id kDataChunkId); [|discriminate].
  destruct (was_data_found st).
  { intros H. injection H as <-. reflexivity. }
  destruct (fmt_bytes_per_sample fmt =? 0); [discriminate|].
  destruct (read_samples _ wav wav_length off2) as [[vals off3]| s'|] eqn:E3;
    cbn [bind]; try discriminate.
  intros H. injection H as <-. now apply read_samples_Fail in E3.
Qed.

Lemma scan_chunks_Fail (fuel : nat) (wav : bytes) (wav_length : Z)
    (fmt : FormatInfo) (st : ScanState) (s : Status) :
  scan_chunks fuel wav wav_length fmt st = Some (Fail s) ->
  code s = error.INVALID_ARGUMENT.
Proof.
  revert st. induction fuel as [|fuel IH]; intros st; cbn [scan_chunks].
  - destruct (scan_continues wav_length st); [discriminate|].
    destruct (negb (was_data_found st)); [|discriminate].
    intros H. injection H as <-. reflexivity.
  - destruct (scan_continues wav_length st).
    + destruct (scan_chunk wav wav_length fmt st) as [st'| s'|] eqn:E;
        try discriminate.
      * apply IH.
      * intros H. injection H as <-. now apply scan_chunk_Fail in E.
    + destruct (negb (was_data_found st)); [|discriminate].
      intros H. injection H as <-. reflexivity.
Qed.

Lemma decoder_failure_code (fuel : nat) (wav : bytes) (wav_length : Z)
    (s : Status) :
  DecodeLin16WaveAsFloatVector fuel wav wav_length = Some (Fail s) ->
  code s = error.INVALID_ARGUMENT.
Proof.
  unfold DecodeLin16WaveAsFloatVector.
  pose proof (decode_format_chunk_spec wav wav_length) as Hspec.
  destruct (decode_format_chunk wav wav_length) as [[fmt off]| s'|];
    [| |discriminate].
  - apply scan_chunks_Fail.
  - intros H. injection H as <-. exact Hspec.
Qed.

Lemma encoder_failure_code (audio : option (list Float32.float))
    (sample_rate num_channels num_frames : Z) (wav_string : option bytes)
    (s : Status) :
  EncodeAudioAsS16LEWav audio sample_rate num_channels num_frames wav_string
  = Fail s ->
  code s = error.INVALID_ARGUMENT.
Proof.
  unfold EncodeAudioAsS16LEWav.
  destruct audio as [samples|];
    [|intros H; injection H as <-; reflexivity].
  destruct wav_string as [old|];
    [|intros H; injection H as <-; reflexivity].
  destruct (_ || _); [intros H; injection H as <-; reflexivity|].
  destruct (_ || _); [intros H; injection H as <-; reflexivity|].
  destruct (num_frames =? 0); [intros H; injection H as <-; reflexivity|].
  match goal with |- (if ?c then _ else _) = _ -> _ => destruct c end;
    [intros H; injection H as <-; reflexivity|].
  match goal with |- (if ?c then _ else _) = _ -> _ => destruct c end;
    [discriminate|].
  destruct (write_audio _ samples 0) as [b| s'|] eqn:E; cbn [bind];
    try discriminate.
  exfalso. revert E. generalize 0 at 1. generalize (Z.to_nat
    (to_size_t (num_frames * num_channels))).
  intros n. induction n as [|n IH]; intros i; cbn [write_audio];
    [discriminate|].
  destruct (nth_error samples (Z.to_nat i)); [|discriminate].
  destruct (FloatToInt16Sample _); [|discriminate].
  destruct (write_audio n samples (i + 1)) as [r| s''|] eqn:E';
    cbn [bind]; try discriminate.
  intros H. injection H as ->. now apply (IH (i + 1)).
Qed.

(** Every error status the decoder or the encoder returns carries the code
    INVALID_ARGUMENT, whatever the input: the codec has no other kind of
    failure. *)
Theorem codec_failures_are_invalid_argument (s : Status) :
  (forall fuel wav wav_length,
      DecodeLin16WaveAsFloatVector fuel wav wav_length = Some (Fail s) ->
      code s = error.INVALID_ARGUMENT)
  /\ (forall audio sample_rate num_channels num_frames wav_string,
         EncodeAudioAsS16LEWav audio sample_rate num_channels num_frames
           wav_string = Fail s ->
         code s = error.INVALID_ARGUMENT).
Proof.
  split.
  - intros fuel wav wav_length. apply decoder_failure_code.
  - intros audio sample_rate num_channels num_frames wav_string.
    apply encoder_failure_code.
Qed.

Lemma codec_failures_are_invalid_argument_witness :
  code (StatusError error.INVALID_ARGUMENT
          "Data too short when trying to read value")
  = error.INVALID_ARGUMENT
  /\ code (StatusError error.INVALID_ARGUMENT "num_frames must be positive.")
     = error.INVALID_ARGUMENT.
Proof.
  split.
  - apply (proj1 (codec_failures_are_invalid_argument _) 1%nat
             MoreSamples.truncated_data
             (Z.of_nat (List.length MoreSamples.truncated_data))).
    vm_compute. reflexivity.
  - apply (proj2 (codec_failures_are_invalid_argument _)
             (Some [Float32.zero]) 16000 1 0 (Some [])).
    vm_compute. reflexivity.
Defined.

Lemma chunk_header_at_inv (wav : bytes) (wav_length offset : Z)
    (chunk_id : bytes) (chunk_size offset2 : Z) :
  chunk_header_at wav wav_length offset = Some (chunk_id, chunk_size, offset2) ->
  0 <= offset /\ offset2 = offset + 8 /\ offset2 <= wav_length
  /\ offset2 < 2 ^ 31
  /\ chunk_id = slice wav offset 4
  /\ chunk_size = field wav (offset + 4) 4
  /\ 0 <= chunk_size < 2 ^ 32.
Proof.
  unfold chunk_header_at, ReadValue_uint32.
  destruct (ReadString wav wav_length 4 offset) as [[id off1]| |] eqn:E1;
    try discriminate.
  destruct (ReadValue 4 (fun v => v) wav wav_length off1)
    as [[sz off2]| |] eqn:E2; try discriminate.
  intros H. injection H as -> -> ->.
  apply ReadString_inv in E1 as (H0 & -> & _ & Hb & ->); [|lia].
  apply ReadValue_inv in E2 as (_ & -> & Hl & Hb2 & ->); [|lia|lia].
  pose proof (field_range wav (offset + 4) 4 ltac:(lia)) as Hr.
  change (256 ^ 4) with (2 ^ 32) in Hr.
  repeat split; lia.
Qed.

Lemma samples_at_length (n : nat) (data : bytes) (offset : Z) :
  List.length (samples_at n data offset) = n.
Proof.
  revert offset. induction n as [|n IH]; intros offset; cbn; [reflexivity|].
  now rewrite IH.
Qed.

Lemma samples_at_pcm16 (n : nat) (data : bytes) (offset : Z) :
  Forall is_pcm16_sample (samples_at n data offset).
Proof.
  revert offset. induction n as [|n IH]; intros offset; cbn [samples_at];
    constructor; [|apply IH].
  exists (to_int16 (field data offset 2)). split; [|reflexivity].
  apply to_int16_range.
Qed.

(** A data chunk that is read completely gives the samples at its
    payload. *)
Lemma read_samples_inv (n : nat) (data : bytes) (data_length offset : Z)
    (values : list Float32.float) (offset' : Z) :
  0 <= offset < 2 ^ 31 ->
  read_samples n data data_length offset = Ret (values, offset') ->
  values = samples_at n data offset
  /\ offset' = offset + 2 * Z.of_nat n
  /\ offset' < 2 ^ 31
  /\ (n <> O -> offset' <= data_length).
Proof.
  revert offset values offset'. induction n as [|n IH];
    intros offset values offset' Hoff.
  - cbn [read_samples samples_at]. intros H. apply Ret_inj in H.
    injection H as <- <-. repeat split; try lia.
  - cbn [read_samples samples_at]. unfold ReadValue_int16.
    destruct (ReadValue 2 to_int16 data data_length offset)
      as [[v off1]| |] eqn:E1; cbn [bind]; try discriminate.
    destruct (read_samples n data data_length off1) as [[rest off2]| |]
      eqn:E2; cbn [bind]; try discriminate.
    intros H. apply Ret_inj in H. injection H as <- <-.
    apply ReadValue_inv in E1 as (_ & -> & Hl & Hb & ->); [|lia|lia].
    apply IH in E2 as (-> & -> & Hb2 & Hl2); [|lia].
    repeat split; lia.
Qed.

Lemma read_samples_ok (n : nat) (data : bytes) (data_length offset : Z) :
  0 <= offset -> offset + 2 * Z.of_nat n <= data_length ->
  offset + 2 * Z.of_nat n < 2 ^ 31 ->
  read_samples n data data_length offset
  = Ret (samples_at n data offset, offset + 2 * Z.of_nat n).
Proof.
  revert offset. induction n as [|n IH]; intros offset Ho Hl Hb.
  - cbn. do 2 f_equal. lia.
  - cbn [read_samples samples_at]. unfold ReadValue_int16.
    rewrite (ReadValue_ok data data_length 2 to_int16 offset (offset + 2))
      by lia.
    cbn [bind]. rewrite IH by lia. cbn [bind]. do 2 f_equal. lia.
Qed.

Lemma scan_chunk_keeps_invariant (wav : bytes) (wav_length : Z)
    (fmt : FormatInfo) (st st' : ScanState) :
  scan_chunk wav wav_length fmt st = Ret st' ->
  scan_invariant fmt st -> scan_invariant fmt st'.
Proof.
  unfold scan_chunk, ReadValue_uint32. intros Hstep Hinv.
  destruct (ReadString wav wav_length 4 (scan_offset st))
    as [[id off1]| |] eqn:E1; cbn [bind] in Hstep; try discriminate.
  destruct (ReadValue 4 (fun v => v) wav wav_length off1)
    as [[sz off2]| |] eqn:E2; cbn [bind] in Hstep; try discriminate.
  apply ReadString_inv in E1 as (H0 & -> & _ & Hb & _); [|lia].
  apply ReadValue_inv in E2 as (_ & -> & Hl & Hb2 & ->); [|lia|lia].
  pose proof (field_range wav (scan_offset st + 4) 4 ltac:(lia)) as Hr.
  change (256 ^ 4) with (2 ^ 32) in Hr.
  destruct (bytes_eqb id kDataChunkId).
  - destruct (was_data_found st); [discriminate|].
    destruct (Z.eqb_spec (fmt_bytes_per_sample fmt) 0) as [|Hbps];
      [discriminate|].
    destruct (read_samples _ wav wav_length (scan_offset st + 4 + 4))
      as [[vals off3]| |] eqn:E3; cbn [bind] in Hstep; try discriminate.
    apply Ret_inj in Hstep. subst st'. unfold scan_invariant.
    cbn [was_data_found scan_sample_count scan_float_values]. intros _.
    apply read_samples_inv in E3 as (-> & _); [|lia].
    split; [exact Hbps|]. split; [now eexists|].
    split; [|apply samples_at_pcm16].
    rewrite samples_at_length. apply Z2Nat.id.
    unfold to_uint32, wrap_unsigned. apply Z.mod_pos_bound. lia.
  - apply Ret_inj in Hstep. subst st'. exact Hinv.
Qed.

Lemma scan_chunks_result (fuel : nat) (wav : bytes) (wav_length : Z)
    (fmt : FormatInfo) (st : ScanState) (d : DecodedWav) :
  scan_chunks fuel wav wav_length fmt st = Some (Ret d) ->
  scan_invariant fmt st ->
  exists st',
    was_data_found st' = true /\ scan_invariant fmt st'
    /\ d = mkDecodedWav (scan_float_values st') (scan_sample_count st')
             (fmt_channel_count fmt) (fmt_sample_rate fmt).
Proof.
  revert st. induction fuel as [|fuel IH]; intros st; cbn [scan_chunks].
  - destruct (scan_continues wav_length st); [discriminate|].
    destruct (was_data_found st) eqn:F; cbn [negb]; [|discriminate].
    intros H Hinv. injection H as <-. now exists st.
  - destruct (scan_continues wav_length st).
    + destruct (scan_chunk wav wav_length fmt st) as [st1| |] eqn:E;
        try discriminate.
      intros H Hinv. apply (IH st1 H).
      now apply (scan_chunk_keeps_invariant wav wav_length fmt st).
    + destruct (was_data_found st) eqn:F; cbn [negb]; [|discriminate].
      intros H Hinv. injection H as <-. now exists st.
Qed.

Lemma accepted_frame_size (wav : bytes) :
  format_chunk_accepted wav ->
  header_bytes_per_frame wav = 2 * header_channel_count wav
  /\ 0 <= header_channel_count wav <= 32767.
Proof.
  intros (_ & _ & Hbits & Hfr & _).
  unfold expected_bytes_per_frame in Hfr. rewrite Hbits in Hfr.
  replace (16 * header_channel_count wav + 7)
    with (7 + header_channel_count wav * 2 * 8) in Hfr by lia.
  rewrite Z.div_add in Hfr by lia. change (7 / 8) with 0 in Hfr.
  pose proof (field_range wav 22 2 ltac:(lia)) as Hc.
  pose proof (field_range wav 32 2 ltac:(lia)) as Hf.
  fold (header_channel_count wav) in Hc.
  fold (header_bytes_per_frame wav) in Hf.
  change (256 ^ 2) with 65536 in *. lia.
Qed.

Lemma decoded_wav_facts (fuel : nat) (wav : bytes) (wav_length : Z)
    (d : DecodedWav) :
  DecodeLin16WaveAsFloatVector fuel wav wav_length = Some (Ret d) ->
  has_magic wav /\ format_chunk_accepted wav
  /\ channel_count d = header_channel_count wav
  /\ sample_rate d = header_sample_rate wav
  /\ 0 <= sample_rate d < 2 ^ 32
  /\ 1 <= channel_count d <= 32767
  /\ 0 <= sample_count d
  /\ Z.of_nat (List.length (float_values d))
     = sample_count d * channel_count d
  /\ 2 * Z.of_nat (List.length (float_values d)) < 2 ^ 32
  /\ Forall is_pcm16_sample (float_values d).
Proof.
  unfold DecodeLin16WaveAsFloatVector.
  pose proof (decode_format_chunk_spec wav wav_length) as Hspec.
  destruct (decode_format_chunk wav wav_length) as [[fmt off]| |];
    try discriminate.
  destruct Hspec as (_ & Hmagic & Hacc & -> & _).
  intros H. apply scan_chunks_result in H as (st & Hfound & Hinv & ->).
  2: { intros Hf. discriminate. }
  destruct (Hinv Hfound) as (Hbps & (sz & Hsz & Hsc) & Hlen & Hall).
  cbn [fmt_bytes_per_sample fmt_channel_count fmt_sample_rate channel_count
       sample_rate sample_count float_values] in *.
  destruct (accepted_frame_size wav Hacc) as [Hfr Hch].
  pose proof (field_range wav 24 4 ltac:(lia)) as Hrate.
  fold (header_sample_rate wav) in Hrate. change (256 ^ 4) with (2 ^ 32) in Hrate.
  rewrite Hfr in Hbps, Hsc.
  assert (Hpos : 0 < 2 * header_channel_count wav) by lia.
  pose proof (Z.mul_div_le sz _ Hpos) as Hle.
  pose proof (Z.div_pos sz _ ltac:(lia) Hpos) as Hnn.
  rewrite <- Hsc in Hle, Hnn.
  assert (Hsmall : 0 <= scan_sample_count st * header_channel_count wav
                   < 2 ^ 31) by nia.
  rewrite to_uint32_small in Hlen by lia.
  split; [exact Hmagic|]. split; [exact Hacc|].
  repeat split; try assumption; try lia.
Qed.

(** A buffer the decoder accepts has the three literals and a format chunk
    that passes every test; the result carries the header's sample rate and
    channel count, the channel count is at least 1, and there are exactly
    [sample_count * channel_count] samples, each a 16-bit value times
    1/32768. *)
Theorem decoded_wav_is_consistent (fuel : nat) (wav : bytes) (wav_length : Z)
    (d : DecodedWav) :
  DecodeLin16WaveAsFloatVector fuel wav wav_length = Some (Ret d) ->
  has_magic wav /\ format_chunk_accepted wav
  /\ channel_count d = header_channel_count wav
  /\ sample_rate d = header_sample_rate wav
  /\ 1 <= channel_count d <= 32767
  /\ 0 <= sample_count d
  /\ Z.of_nat (List.length (float_values d))
     = sample_count d * channel_count d
  /\ Forall is_pcm16_sample (float_values d).
Proof.
  intros H.
  destruct (decoded_wav_facts fuel wav wav_length d H)
    as (H1 & H2 & H3 & H4 & _ & H5 & H6 & H7 & _ & H8).
  split; [exact H1|]. split; [exact H2|].
  repeat split; try assumption; lia.
Qed.

Lemma decoded_wav_is_consistent_witness :
  has_magic Samples.stereo_two_frames
  /\ format_chunk_accepted Samples.stereo_two_frames
  /\ channel_count
       (mkDecodedWav
          [Samples.half; Samples.minus_half;
           Samples.quarter; Samples.minus_quarter] 2 2 16000)
     = header_channel_count Samples.stereo_two_frames
  /\ sample_rate
       (mkDecodedWav
          [Samples.half; Samples.minus_half;
           Samples.quarter; Samples.minus_quarter] 2 2 16000)
     = header_sample_rate Samples.stereo_two_frames
  /\ 1 <= channel_count
            (mkDecodedWav
               [Samples.half; Samples.minus_half;
                Samples.quarter; Samples.minus_quarter] 2 2 16000) <= 32767
  /\ 0 <= sample_count
            (mkDecodedWav
               [Samples.half; Samples.minus_half;
                Samples.quarter; Samples.minus_quarter] 2 2 16000)
  /\ Z.of_nat (List.length
                 (float_values
                    (mkDecodedWav
                       [Samples.half; Samples.minus_half;
                        Samples.quarter; Samples.minus_quarter] 2 2 16000)))
     = sample_count
         (mkDecodedWav
            [Samples.half; Samples.minus_half;
             Samples.quarter; Samples.minus_quarter] 2 2 16000)
       * channel_count
           (mkDecodedWav
              [Samples.half; Samples.minus_half;
               Samples.quarter; Samples.minus_quarter] 2 2 16000)
  /\ Forall is_pcm16_sample
       (float_values
          (mkDecodedWav
             [Samples.half; Samples.minus_half;
              Samples.quarter; Samples.minus_quarter] 2 2 16000)).
Proof.
  apply (decoded_wav_is_consistent 1 Samples.stereo_two_frames
           (Z.of_nat (List.length Samples.stereo_two_frames))).
  vm_compute. reflexivity.
Defined.

(* ----------------------------------------------------------------- *)
(** ** The decoder: a header with no channels *)

(** A header that declares 0 channels passes the tests (0 bytes per frame,
    0 bytes per second); the first data chunk then divides the chunk size
    by 0 bytes per frame, which is undefined. *)
Theorem zero_channel_data_chunk_divides_by_zero (n fuel : nat) (wav : bytes)
    (fmt : FormatInfo) (offset : Z) (st : ScanState)
    (chunk_size offset2 : Z) :
  decode_format_chunk wav (Z.of_nat (List.length wav)) = Ret (fmt, offset) ->
  header_channel_count wav = 0 ->
  scan_after n wav (Z.of_nat (List.length wav)) fmt (scan_start offset)
  = Some st ->
  scan_continues (Z.of_nat (List.length wav)) st = true ->
  was_data_found st = false ->
  chunk_header_at wav (Z.of_nat (List.length wav)) (scan_offset st)
  = Some (kDataChunkId, chunk_size, offset2) ->
  DecodeLin16WaveAsFloatVector (n + S fuel) wav (Z.of_nat (List.length wav))
  = Some Undef.
Proof.
  intros Hh Hch Hs Hcont Hfound Hnext.
  rewrite (decode_from_state n (S fuel) wav _ fmt offset st Hh Hs).
  cbn [scan_chunks]. rewrite Hcont.
  pose proof (decode_format_chunk_spec wav (Z.of_nat (List.length wav)))
    as Hspec.
  rewrite Hh in Hspec. destruct Hspec as (_ & _ & Hacc & -> & _).
  destruct (accepted_frame_size wav Hacc) as [Hfr _].
  unfold chunk_header_at in Hnext. unfold scan_chunk.
  destruct (ReadString wav _ 4 (scan_offset st)) as [[id off1]| |];
    try discriminate.
  cbn [bind].
  destruct (ReadValue_uint32 wav _ off1) as [[sz off2]| |];
    try discriminate.
  injection Hnext as -> -> ->. cbn [bind fmt_bytes_per_sample].
  rewrite bytes_eqb_refl, Hfound, Hfr, Hch. reflexivity.
Qed.

Lemma zero_channel_data_chunk_divides_by_zero_witness :
  DecodeLin16WaveAsFloatVector (0 + 1) MoreSamples.zero_channel_file
    (Z.of_nat (List.length MoreSamples.zero_channel_file))
  = Some Undef.
Proof.
  apply (zero_channel_data_chunk_divides_by_zero 0 0
           MoreSamples.zero_channel_file (mkFormatInfo 0 16000 0) 36
           (scan_start 36) 2 44).
  - vm_compute. reflexivity.
  - vm_compute. reflexivity.
  - vm_compute. reflexivity.
  - vm_compute. reflexivity.
  - reflexivity.
  - vm_compute. reflexivity.
Defined.

(* ----------------------------------------------------------------- *)
(** ** The decoder: a chunk that sends the cursor back *)

Lemma scan_chunks_stuck (wav : bytes) (wav_length : Z) (fmt : FormatInfo)
    (st : ScanState) :
  scan_continues wav_length st = true ->
  scan_chunk wav wav_length fmt st = Ret st ->
  forall fuel, scan_chunks fuel wav wav_length fmt st = None.
Proof.
  intros Hcont Hstep fuel. induction fuel as [|fuel IH];
    cbn [scan_chunks]; rewrite Hcont; [reflexivity|].
  now rewrite Hstep.
Qed.

Lemma scan_chunks_short (n : nat) (wav : bytes) (wav_length : Z)
    (fmt : FormatInfo) (st0 st : ScanState) :
  scan_after n wav wav_length fmt st0 = Some st ->
  scan_continues wav_length st = true ->
  forall fuel, (fuel <= n)%nat ->
    scan_chunks fuel wav wav_length fmt st0 = None.
Proof.
  revert st0. induction n as [|n IH]; intros st0 Hs Hcont fuel Hle.
  - cbn in Hs. injection Hs as ->.
    replace fuel with O by lia. cbn [scan_chunks]. now rewrite Hcont.
  - cbn [scan_after] in Hs.
    destruct (scan_continues wav_length st0) eqn:C0; [|discriminate].
    destruct (scan_chunk wav wav_length fmt st0) as [st1| |] eqn:E;
      try discriminate.
    destruct fuel as [|fuel]; cbn [scan_chunks]; rewrite C0; [reflexivity|].
    rewrite E. apply (IH st1 Hs Hcont). lia.
Qed.

(** The chunk scan has no bound on its iterations.  When a chunk that is
    not the data chunk declares a size that, added to the [int] cursor
    modulo 2^32, gives the position of the chunk's own header, the loop
    reads that header again and again: the decoder does not return. *)
Theorem rewinding_chunk_never_returns (n : nat) (wav : bytes)
    (fmt : FormatInfo) (offset : Z) (st : ScanState) (chunk_id : bytes)
    (chunk_size offset2 : Z) :
  decode_format_chunk wav (Z.of_nat (List.length wav)) = Ret (fmt, offset) ->
  scan_after n wav (Z.of_nat (List.length wav)) fmt (scan_start offset)
  = Some st ->
  scan_continues (Z.of_nat (List.length wav)) st = true ->
  chunk_header_at wav (Z.of_nat (List.length wav)) (scan_offset st)
  = Some (chunk_id, chunk_size, offset2) ->
  chunk_id <> kDataChunkId ->
  to_int (to_uint32 (to_uint32 offset2 + chunk_size)) = scan_offset st ->
  forall fuel,
    DecodeLin16WaveAsFloatVector fuel wav (Z.of_nat (List.length wav)) = None.
Proof.
  intros Hh Hs Hcont Hnext Hid Hback fuel.
  assert (Hstep : scan_chunk wav (Z.of_nat (List.length wav)) fmt st = Ret st).
  { rewrite (scan_chunk_skip wav _ fmt st chunk_id chunk_size offset2
               Hnext Hid).
    rewrite Hback. now destruct st. }
  destruct (Nat.le_gt_cases fuel n) as [Hle | Hgt].
  - unfold DecodeLin16WaveAsFloatVector. rewrite Hh.
    now apply (scan_chunks_short n wav _ fmt (scan_start offset) st).
  - replace fuel with (n + (fuel - n))%nat by lia.
    rewrite (decode_from_state n _ wav _ fmt offset st Hh Hs).
    now apply scan_chunks_stuck.
Qed.

Lemma rewinding_chunk_never_returns_witness :
  DecodeLin16WaveAsFloatVector 100 Samples.rewinding_chunk
    (Z.of_nat (List.length Samples.rewinding_chunk)) = None.
Proof.
  refine (rewinding_chunk_never_returns 0 Samples.rewinding_chunk
            Samples.mono_16k 36 (scan_start 36) (text "LIST") (2 ^ 32 - 8) 44
            _ _ _ _ _ _ 100%nat).
  - vm_compute. reflexivity.
  - vm_compute. reflexivity.
  - vm_compute. reflexivity.
  - vm_compute. reflexivity.
  - vm_compute. discriminate.
  - vm_compute. reflexivity.
Defined.

(* ----------------------------------------------------------------- *)
(** ** The decoder: a data chunk longer than the buffer *)

Lemma read_samples_short (n : nat) (data : bytes) (data_length offset : Z) :
  0 <= offset <= data_length -> data_length < 2 ^ 31 - 2 ->
  data_length < offset + 2 * Z.of_nat n ->
  read_samples n data data_length offset
  = Fail (errors.InvalidArgument ["Data too short when trying to read value"]).
Proof.
  revert offset. induction n as [|n IH]; intros offset Ho Hl Hs; [lia|].
  cbn [read_samples]. unfold ReadValue_int16.
  destruct (ReadValue_cases data data_length 2 to_int16 offset (offset + 2)
              ltac:(lia) ltac:(lia) ltac:(lia) eq_refl)
    as [[Hle ->] | [Hgt ->]]; cbn [bind]; [|reflexivity].
  rewrite IH by lia. reflexivity.
Qed.

(** A data chunk whose declared size asks for more samples than the buffer
    holds is rejected with InvalidArgument ("Data too short when trying to
    read value"), for buffers the [int] cursor can address. *)
Theorem truncated_data_chunk_is_rejected (n fuel : nat) (wav : bytes)
    (fmt : FormatInfo) (offset : Z) (st : ScanState)
    (chunk_size offset2 : Z) :
  Z.of_nat (List.length wav) < 2 ^ 31 - 2 ->
  decode_format_chunk wav (Z.of_nat (List.length wav)) = Ret (fmt, offset) ->
  scan_after n wav (Z.of_nat (List.length wav)) fmt (scan_start offset)
  = Some st ->
  scan_continues (Z.of_nat (List.length wav)) st = true ->
  was_data_found st = false ->
  chunk_header_at wav (Z.of_nat (List.length wav)) (scan_offset st)
  = Some (kDataChunkId, chunk_size, offset2) ->
  fmt_bytes_per_sample fmt <> 0 ->
  Z.of_nat (List.length wav)
  < offset2 + 2 * to_uint32 (chunk_size / fmt_bytes_per_sample fmt
                             * fmt_channel_count fmt) ->
  DecodeLin16WaveAsFloatVector (n + S fuel) wav (Z.of_nat (List.length wav))
  = Some (Fail (StatusError error.INVALID_ARGUMENT
                  "Data too short when trying to read value")).
Proof.
  intros Hlen Hh Hs Hcont Hfound Hnext Hbps Hshort.
  rewrite (decode_from_state n (S fuel) wav _ fmt offset st Hh Hs).
  cbn [scan_chunks]. rewrite Hcont.
  pose proof (chunk_header_at_inv _ _ _ _ _ _ Hnext)
    as (H0 & Ho2 & Hl2 & _).
  unfold chunk_header_at in Hnext. unfold scan_chunk.
  destruct (ReadString wav _ 4 (scan_offset st)) as [[id off1]| |];
    try discriminate.
  cbn [bind].
  destruct (ReadValue_uint32 wav _ off1) as [[sz off2]| |];
    try discriminate.
  injection Hnext as -> -> ->. cbn [bind].
  rewrite bytes_eqb_refl, Hfound.
  apply Z.eqb_neq in Hbps. rewrite Hbps.
  rewrite read_samples_short; [reflexivity | lia | lia |].
  rewrite Z2Nat.id; [exact Hshort|].
  unfold to_uint32, wrap_unsigned. apply Z.mod_pos_bound. lia.
Qed.

Lemma truncated_data_chunk_is_rejected_witness :
  DecodeLin16WaveAsFloatVector (0 + 1) MoreSamples.truncated_data
    (Z.of_nat (List.length MoreSamples.truncated_data))
  = Some (Fail (StatusError error.INVALID_ARGUMENT
                  "Data too short when trying to read value")).
Proof.
  apply (truncated_data_chunk_is_rejected 0 0 MoreSamples.truncated_data
           Samples.mono_16k 36 (scan_start 36) 4 44).
  - vm_compute. reflexivity.
  - vm_compute. reflexivity.
  - vm_compute. reflexivity.
  - vm_compute. reflexivity.
  - reflexivity.
  - vm_compute. reflexivity.
  - vm_compute. discriminate.
  - vm_compute. reflexivity.
Defined.

(* ----------------------------------------------------------------- *)
(** ** The encoder: what it writes *)

Lemma FloatToInt16Sample_range (x : Float32.float) (s : Z) :
  FloatToInt16Sample x = Some s -> kint16min <= s <= kint16max.
Proof.
  unfold FloatToInt16Sample.
  destruct (Float32.trunc _) as [z|]; [|discriminate].
  destruct (Z.leb_spec kint16min z); [|discriminate].
  destruct (Z.leb_spec z kint16max); [|discriminate].
  cbn [andb]. intros Hret. injection Hret as <-. lia.
Qed.

Lemma skipn_nth_error {A : Type} (l : list A) (k : nat) (x : A) :
  nth_error l k = Some x -> skipn k l = x :: skipn (S k) l.
Proof.
  revert l. induction k as [|k IH]; intros [|y l] H; try discriminate.
  - cbn in H. injection H as ->. reflexivity.
  - cbn in H. cbn [skipn]. now apply IH.
Qed.

(** The loop that writes the audio converts the values it reads, in
    order. *)
Lemma write_audio_inv (n : nat) (audio : list Float32.float) (i : Z)
    (bs : bytes) :
  0 <= i ->
  write_audio n audio i = Ret bs ->
  exists ss,
    List.length ss = n
    /\ quantized (firstn n (skipn (Z.to_nat i) audio)) ss
    /\ bs = sample_bytes ss.
Proof.
  revert i bs. induction n as [|n IH]; intros i bs Hi.
  - cbn. intros H. apply Ret_inj in H. subst bs. exists [].
    repeat split. constructor.
  - cbn [write_audio].
    destruct (nth_error audio (Z.to_nat i)) as [x|] eqn:Ex; [|discriminate].
    destruct (FloatToInt16Sample x) as [s|] eqn:Es; [|discriminate].
    destruct (write_audio n audio (i + 1)) as [rest| |] eqn:Er;
      cbn [bind]; try discriminate.
    intros H. apply Ret_inj in H. subst bs.
    apply IH in Er as (ss & Hlen & Hq & ->); [|lia].
    exists (s :: ss). split; [cbn; lia|]. split; [|reflexivity].
    rewrite (skipn_nth_error _ _ _ Ex). cbn [firstn]. constructor; [exact Es|].
    replace (S (Z.to_nat i)) with (Z.to_nat (i + 1)) by lia. exact Hq.
Qed.

Lemma write_audio_ok (ss : list Z) (audio : list Float32.float) (i : Z) :
  0 <= i ->
  quantized (firstn (List.length ss) (skipn (Z.to_nat i) audio)) ss ->
  write_audio (List.length ss) audio i = Ret (sample_bytes ss).
Proof.
  revert i. induction ss as [|s ss IH]; intros i Hi Hq; [reflexivity|].
  cbn [List.length write_audio].
  destruct (skipn (Z.to_nat i) audio) as [|x tl] eqn:Esk;
    [cbn in Hq; inversion Hq|].
  assert (Ex : nth_error audio (Z.to_nat i) = Some x).
  { rewrite <- (firstn_skipn (Z.to_nat i) audio) at 1.
    assert (Hlt : (Z.to_nat i < List.length audio)%nat).
    { destruct (Nat.le_gt_cases (List.length audio) (Z.to_nat i)) as [Hge|];
        [|lia].
      rewrite skipn_all2 in Esk by lia. discriminate. }
    assert (Hl : List.length (firstn (Z.to_nat i) audio) = Z.to_nat i)
      by (rewrite length_firstn; lia).
    rewrite nth_error_app2 by lia. rewrite Hl, Nat.sub_diag, Esk.
    reflexivity. }
  rewrite Ex. cbn [List.length firstn] in Hq. inversion Hq as [|? ? ? ? Hs Hr];
    subst.
  rewrite Hs.
  pose proof (skipn_nth_error _ _ _ Ex) as Hsk. rewrite Esk in Hsk.
  injection Hsk as ->.
  rewrite IH; [reflexivity | lia |].
  replace (Z.to_nat (i + 1)) with (S (Z.to_nat i)) by lia. exact Hr.
Qed.

Lemma sample_bytes_length (ss : list Z) :
  Z.of_nat (List.length (sample_bytes ss)) = 2 * Z.of_nat (List.length ss).
Proof.
  induction ss as [|s ss IH]; [reflexivity|].
  unfold sample_bytes in *. cbn [flat_map List.length].
  rewrite length_app.
  change (List.length (EncodeFixed16 (to_uint16 s))) with 2%nat. lia.
Qed.

Lemma slice_app_skip (pre rest : bytes) (offset n : Z) :
  0 <= offset ->
  slice (pre ++ rest) (Z.of_nat (List.length pre) + offset) n
  = slice rest offset n.
Proof.
  intros Ho. unfold slice.
  replace (Z.to_nat (Z.of_nat (List.length pre) + offset))
    with (List.length pre + Z.to_nat offset)%nat by lia.
  rewrite skipn_app, skipn_all2 by lia.
  replace (List.length pre + Z.to_nat offset - List.length pre)%nat
    with (Z.to_nat offset) by lia.
  reflexivity.
Qed.

Lemma samples_at_app_skip (n : nat) (pre rest : bytes) (offset : Z) :
  0 <= offset ->
  samples_at n (pre ++ rest) (Z.of_nat (List.length pre) + offset)
  = samples_at n rest offset.
Proof.
  revert offset. induction n as [|n IH]; intros offset Ho; [reflexivity|].
  cbn [samples_at]. unfold field. rewrite slice_app_skip by lia.
  replace (Z.of_nat (List.length pre) + offset + 2)
    with (Z.of_nat (List.length pre) + (offset + 2)) by lia.
  rewrite IH by lia. reflexivity.
Qed.

(** Reading the data area back gives the samples that were written. *)
Lemma samples_at_sample_bytes (ss : list Z) (tail : bytes) :
  Forall (fun s => kint16min <= s <= kint16max) ss ->
  samples_at (List.length ss) (sample_bytes ss ++ tail) 0
  = map Int16SampleToFloat ss.
Proof.
  induction 1 as [|s ss Hs Hall IH]; [reflexivity|].
  cbn [List.length samples_at map].
  unfold sample_bytes in *. cbn [flat_map]. rewrite <- app_assoc.
  f_equal.
  - unfold field.
    change (slice (EncodeFixed16 (to_uint16 s) ++ _) 0 2)
      with (EncodeFixed16 (to_uint16 s)).
    rewrite le_value_EncodeFixed16.
    unfold to_uint16 at 1, wrap_unsigned. fold (to_uint16 s).
    replace (to_uint16 s mod 2 ^ 16) with (to_uint16 s)
      by (unfold to_uint16, wrap_unsigned; now rewrite Z.mod_mod by lia).
    now rewrite to_int16_to_uint16.
  - change (0 + 2) with (Z.of_nat (List.length (EncodeFixed16 (to_uint16 s)))
                         + 0).
    rewrite samples_at_app_skip by lia. exact IH.
Qed.

(** The data chunk of a successful call: 44 bytes of header, the id
    "data", the size of the data area, and the converted samples. *)
Lemma encoder_output_data (audio : list Float32.float)
    (sample_rate num_channels num_frames : Z) (old wav : bytes) :
  EncodeAudioAsS16LEWav (Some audio) sample_rate num_channels num_frames
    (Some old) = Ret wav ->
  exists ss,
    Z.of_nat (List.length ss) = to_size_t (num_frames * num_channels)
    /\ quantized (firstn (List.length ss) audio) ss
    /\ Z.of_nat (List.length wav) = 44 + 2 * Z.of_nat (List.length ss)
    /\ Z.of_nat (List.length wav) <= 2 ^ 32 - 1
    /\ field wav 4 4 = Z.of_nat (List.length wav) - 8
    /\ slice wav 36 4 = kDataChunkId
    /\ field wav 40 4 = 2 * Z.of_nat (List.length ss)
    /\ samples_at (List.length ss) wav 44 = map Int16SampleToFloat ss.
Proof.
  unfold EncodeAudioAsS16LEWav.
  destruct ((sample_rate =? 0) || (sample_rate >? kuint32max));
    [discriminate|].
  destruct ((num_channels =? 0) || (num_channels >? kuint16max));
    [discriminate|].
  destruct (num_frames =? 0); [discriminate|].
  change (16 / 8) with 2.
  set (num_samples := to_size_t (num_frames * num_channels)).
  assert (Hns : 0 <= num_samples)
    by (unfold num_samples, to_size_t, wrap_unsigned;
        apply Z.mod_pos_bound; lia).
  destruct (Z.gtb_spec (to_size_t (kHeaderSize + to_size_t (num_samples * 2)))
              kuint32max) as [|Hsize]; [discriminate|].
  destruct (Z.eqb_spec (to_size_t (kHeaderSize + to_size_t (num_samples * 2)))
              (kHeaderSize + 2 * num_samples)) as [Hfs|]; [|discriminate].
  cbn [negb]. rewrite Hfs in *. clear Hfs.
  unfold kHeaderSize, kuint32max in *.
  destruct (write_audio _ audio 0) as [samples| |] eqn:Ew; cbn [bind];
    try discriminate.
  intros H. apply Ret_inj in H. subst wav.
  apply write_audio_inv in Ew as (ss & Hlen & Hq & ->); [|lia].
  change (skipn (Z.to_nat 0) audio) with audio in Hq.
  assert (Hn : Z.of_nat (List.length ss) = num_samples) by lia.
  rewrite <- Hlen in Hq.
  assert (Hrange : Forall (fun s => kint16min <= s <= kint16max) ss).
  { clear - Hq. induction Hq as [|x s l l' Hs Hq IH]; constructor.
    - now apply FloatToInt16Sample_range in Hs.
    - exact IH. }
  exists ss.
  match goal with
  | |- context [Datatypes.length (?r ++ ?f ++ ?d ++ sample_bytes ss)] =>
      set (pre := r ++ f ++ d);
      change (r ++ f ++ d ++ sample_bytes ss) with (pre ++ sample_bytes ss)
  end.
  assert (Hpre : Z.of_nat (List.length pre) = 44) by reflexivity.
  assert (Hwl : Z.of_nat (List.length (pre ++ sample_bytes ss))
                = 44 + 2 * Z.of_nat (List.length ss))
    by (rewrite length_app, Nat2Z.inj_add, sample_bytes_length; lia).
  split; [exact Hn|]. split; [exact Hq|]. split; [exact Hwl|].
  split; [lia|].
  split.
  { rewrite Hwl. unfold field.
    change (slice (pre ++ sample_bytes ss) 4 4)
      with (EncodeFixed32 (to_uint32 (44 + 2 * num_samples - 8))).
    rewrite le_value_EncodeFixed32.
    unfold to_uint32, wrap_unsigned. rewrite Z.mod_mod by lia.
    rewrite Z.mod_small by lia. lia. }
  split; [reflexivity|].
  split.
  { unfold field.
    change (slice (pre ++ sample_bytes ss) 40 4)
      with (EncodeFixed32 (to_uint32 (to_size_t (num_samples * 2)))).
    rewrite le_value_EncodeFixed32.
    unfold to_uint32, wrap_unsigned. rewrite Z.mod_mod by lia.
    rewrite to_size_t_small by lia.
    rewrite Z.mod_small by lia. lia. }
  change 44 with (Z.of_nat (List.length pre) + 0).
  rewrite samples_at_app_skip by lia.
  rewrite <- (app_nil_r (sample_bytes ss)).
  now apply samples_at_sample_bytes.
Qed.

Lemma encoder_success_args (audio : option (list Float32.float))
    (sample_rate num_channels num_frames : Z) (wav_string : option bytes)
    (wav : bytes) :
  EncodeAudioAsS16LEWav audio sample_rate num_channels num_frames wav_string
  = Ret wav ->
  sample_rate <> 0 /\ sample_rate <= 2 ^ 32 - 1
  /\ num_channels <> 0 /\ num_channels <= 2 ^ 16 - 1
  /\ num_frames <> 0.
Proof.
  unfold EncodeAudioAsS16LEWav.
  destruct audio as [samples|]; [|discriminate].
  destruct wav_string as [old|]; [|discriminate].
  destruct (Z.eqb_spec sample_rate 0); [discriminate|].
  destruct (Z.gtb_spec sample_rate kuint32max); [discriminate|].
  cbn [orb].
  destruct (Z.eqb_spec num_channels 0); [discriminate|].
  destruct (Z.gtb_spec num_channels kuint16max); [discriminate|].
  cbn [orb].
  destruct (Z.eqb_spec num_frames 0); [discriminate|].
  unfold kuint32max, kuint16max in *. intros _. repeat split; lia.
Qed.

(** The file the encoder writes is [44 + 2 * num_samples] bytes long, at
    most 2^32 - 1; its RIFF size field is the length less 8 and its data
    size field the length less 44; the format chunk carries the channel
    count and the sample rate, 2 * sample_rate modulo 2^32 as bytes per
    second and 2 * num_channels modulo 2^16 as bytes per frame. *)
Theorem encoder_output_layout (audio : list Float32.float)
    (sample_rate num_channels num_frames : Z) (old wav : bytes) :
  0 <= sample_rate -> 0 <= num_channels -> 0 <= num_frames ->
  EncodeAudioAsS16LEWav (Some audio) sample_rate num_channels num_frames
    (Some old) = Ret wav ->
  Z.of_nat (List.length wav)
  = 44 + 2 * ((num_frames * num_channels) mod 2 ^ 64)
  /\ Z.of_nat (List.length wav) <= 2 ^ 32 - 1
  /\ has_magic wav
  /\ field wav 4 4 = Z.of_nat (List.length wav) - 8
  /\ header_format_chunk_size wav = 16
  /\ header_compression_code wav = 1
  /\ header_channel_count wav = num_channels
  /\ header_sample_rate wav = sample_rate
  /\ header_bytes_per_second wav = (2 * sample_rate) mod 2 ^ 32
  /\ header_bytes_per_frame wav = (2 * num_channels) mod 2 ^ 16
  /\ header_bits_per_sample wav = 16
  /\ slice wav 36 4 = kDataChunkId
  /\ field wav 40 4 = Z.of_nat (List.length wav) - 44.
Proof.
  intros Hr Hc Hf Henc.
  destruct (encoder_success_args _ _ _ _ _ _ Henc)
    as (Hr0 & Hr1 & Hc0 & Hc1 & Hf0).
  destruct (encoder_output_header _ _ _ _ _ _ Henc)
    as (_ & Hmagic & Hsize & Hpcm & Hch & Hrate & Hsec & Hfr & Hbits).
  destruct (encoder_output_data _ _ _ _ _ _ Henc)
    as (ss & Hn & _ & Hlen & Hmax & Hriff & Hdata & Hdsz & _).
  rewrite to_uint16_small in Hch by lia.
  rewrite to_uint32_small in Hrate by lia.
  rewrite to_size_t_small in Hsec by lia.
  rewrite to_size_t_small in Hfr by lia.
  unfold to_size_t, wrap_unsigned in Hn.
  unfold to_uint32, wrap_unsigned in Hsec.
  unfold to_uint16, wrap_unsigned in Hfr.
  replace (sample_rate * 2) with (2 * sample_rate) in Hsec by lia.
  split; [lia|]. split; [exact Hmax|]. split; [exact Hmagic|].
  repeat split; try assumption; lia.
Qed.

Lemma encoder_output_layout_witness :
  Z.of_nat (List.length Samples.stereo_encoded) = 44 + 2 * ((1 * 2) mod 2 ^ 64)
  /\ Z.of_nat (List.length Samples.stereo_encoded) <= 2 ^ 32 - 1
  /\ has_magic Samples.stereo_encoded
  /\ field Samples.stereo_encoded 4 4
     = Z.of_nat (List.length Samples.stereo_encoded) - 8
  /\ header_format_chunk_size Samples.stereo_encoded = 16
  /\ header_compression_code Samples.stereo_encoded = 1
  /\ header_channel_count Samples.stereo_encoded = 2
  /\ header_sample_rate Samples.stereo_encoded = 16000
  /\ header_bytes_per_second Samples.stereo_encoded = (2 * 16000) mod 2 ^ 32
  /\ header_bytes_per_frame Samples.stereo_encoded = (2 * 2) mod 2 ^ 16
  /\ header_bits_per_sample Samples.stereo_encoded = 16
  /\ slice Samples.stereo_encoded 36 4 = kDataChunkId
  /\ field Samples.stereo_encoded 40 4
     = Z.of_nat (List.length Samples.stereo_encoded) - 44.
Proof.
  apply (encoder_output_layout [Samples.half; Samples.minus_half] 16000 2 1 []
           Samples.stereo_encoded).
  - lia.
  - lia.
  - lia.
  - vm_compute. reflexivity.
Defined.

(* ----------------------------------------------------------------- *)
(** ** Decoding what the encoder wrote, one channel *)

(** A buffer with the literals in place and a format chunk that passes the
    tests gets through the header part. *)
Lemma decode_format_chunk_accepts (wav : bytes) (wav_length : Z) :
  36 <= wav_length -> has_magic wav -> format_chunk_accepted wav ->
  decode_format_chunk wav wav_length
  = Ret (mkFormatInfo (header_channel_count wav) (header_sample_rate wav)
           (header_bytes_per_frame wav),
         if header_format_chunk_size wav =? 18 then 38 else 36).
Proof.
  intros long_enough (M1 & M2 & M3) (Hsize & Hpcm & Hbits & Hfr & Hsec).
  run_header wav M1 M2 M3.
  rewrite (expected_frame_no_wrap wav Hbits).
  rewrite Hpcm.
  replace (negb (header_format_chunk_size wav =? 16)
           && negb (header_format_chunk_size wav =? 18)) with false
    by (destruct Hsize as [-> | ->]; reflexivity).
  rewrite Hbits at 1. cbn [Z.eqb Pos.eqb negb].
  apply Z.eqb_eq in Hfr. rewrite Hfr. cbn [negb].
  change (to_uint32 (header_bytes_per_frame wav * header_sample_rate wav))
    with (expected_bytes_per_second wav).
  apply Z.eqb_eq in Hsec. rewrite Hsec. cbn [negb].
  destruct Hsize as [-> | ->]; reflexivity.
Qed.

(** What the encoder writes for one channel is read back by the decoder. *)
Lemma encoded_mono_decodes (fuel : nat) (audio : list Float32.float)
    (sample_rate num_frames : Z) (old wav : bytes) :
  0 <= sample_rate -> 0 <= num_frames < 2 ^ 64 ->
  EncodeAudioAsS16LEWav (Some audio) sample_rate 1 num_frames (Some old)
  = Ret wav ->
  Z.of_nat (List.length wav) < 2 ^ 31 ->
  exists ss,
    quantized (firstn (Z.to_nat num_frames) audio) ss
    /\ DecodeLin16WaveAsFloatVector (1 + fuel) wav (Z.of_nat (List.length wav))
       = Some (Ret (mkDecodedWav (map Int16SampleToFloat ss) num_frames 1
                      sample_rate)).
Proof.
  intros Hr Hf Henc Hsmall.
  destruct (encoder_success_args _ _ _ _ _ _ Henc)
    as (Hr0 & Hr1 & _ & _ & Hf0).
  destruct (encoder_output_header _ _ _ _ _ _ Henc)
    as (_ & Hmagic & Hsize & Hpcm & Hch & Hrate & Hsec & Hfr & Hbits).
  destruct (encoder_output_data _ _ _ _ _ _ Henc)
    as (ss & Hn & Hq & Hlen & _ & _ & Hdata & Hdsz & Hsamples).
  rewrite Z.mul_1_r, to_size_t_small in Hn by lia.
  change (to_uint16 1) with 1 in Hch.
  change (to_uint16 (to_size_t (2 * 1))) with 2 in Hfr.
  rewrite to_uint32_small in Hrate by lia.
  rewrite to_size_t_small in Hsec by lia.
  exists ss. split.
  { replace (Z.to_nat num_frames) with (List.length ss) by lia. exact Hq. }
  assert (Hacc : format_chunk_accepted wav).
  { unfold format_chunk_accepted, expected_bytes_per_frame,
      expected_bytes_per_second.
    rewrite Hsize, Hpcm, Hbits, Hfr, Hch, Hsec, Hrate.
    repeat split; try reflexivity; [now left|].
    unfold to_uint32, wrap_unsigned. f_equal. lia. }
  unfold DecodeLin16WaveAsFloatVector.
  assert (Hlong : 36 <= Z.of_nat (List.length wav)) by lia.
  rewrite (decode_format_chunk_accepts wav _ Hlong Hmagic Hacc).
  rewrite Hsize, Hch, Hrate, Hfr. change (16 =? 18) with false. cbv iota.
  cbn [Nat.add scan_chunks].
  replace (scan_continues _ (scan_start 36)) with true
    by (symmetry; unfold scan_continues, scan_start; cbn [scan_offset];
        rewrite to_size_t_small by lia; apply Z.ltb_lt; lia).
  unfold scan_chunk, scan_start, ReadValue_uint32.
  cbn [scan_offset was_data_found fmt_bytes_per_sample fmt_channel_count].
  rewrite ReadString_ok by lia. cbn [bind].
  rewrite (ReadValue_ok wav _ 4 (fun v => v) (36 + 4) 44) by lia.
  cbn [bind]. rewrite Hdata, bytes_eqb_refl.
  change (2 =? 0) with false. cbv iota.
  change (36 + 4) with 40. rewrite Hdsz.
  replace (2 * Z.of_nat (List.length ss) / 2) with (Z.of_nat (List.length ss))
    by (rewrite Z.mul_comm, Z.div_mul by lia; reflexivity).
  rewrite Z.mul_1_r, to_uint32_small by lia.
  rewrite Nat2Z.id.
  rewrite read_samples_ok by lia.
  cbn [bind]. rewrite Hsamples.
  rewrite scan_chunks_finished.
  - cbn [was_data_found negb scan_float_values scan_sample_count
         fmt_channel_count fmt_sample_rate].
    now rewrite Hn.
  - unfold scan_continues. cbn [scan_offset].
    rewrite to_size_t_small by lia. apply Z.ltb_ge. lia.
Qed.

(** For one channel the round trip holds: whatever the encoder writes for
    [num_frames] samples at [sample_rate], in a file below 2^31 bytes, the
    decoder accepts, and it returns the same sample rate, one channel,
    [num_frames] as the sample count, and for each input value the 16-bit
    sample [FloatToInt16Sample] gave it, times 1/32768. *)
Theorem mono_round_trip (fuel : nat) (audio : list Float32.float)
    (sample_rate num_frames : Z) (old wav : bytes) :
  0 <= sample_rate -> 0 <= num_frames < 2 ^ 64 ->
  EncodeAudioAsS16LEWav (Some audio) sample_rate 1 num_frames (Some old)
  = Ret wav ->
  Z.of_nat (List.length wav) < 2 ^ 31 ->
  exists ss,
    quantized (firstn (Z.to_nat num_frames) audio) ss
    /\ DecodeLin16WaveAsFloatVector (1 + fuel) wav (Z.of_nat (List.length wav))
       = Some (Ret (mkDecodedWav (map Int16SampleToFloat ss) num_frames 1
                      sample_rate)).
Proof.
  intros Hr Hf Henc Hsmall.
  exact (encoded_mono_decodes fuel audio sample_rate num_frames old wav
           Hr Hf Henc Hsmall).
Qed.

Lemma mono_round_trip_witness :
  exists ss,
    quantized (firstn (Z.to_nat 2) [Samples.half; Samples.minus_half]) ss
    /\ DecodeLin16WaveAsFloatVector (1 + 0) MoreSamples.mono_encoded
         (Z.of_nat (List.length MoreSamples.mono_encoded))
       = Some (Ret (mkDecodedWav (map Int16SampleToFloat ss) 2 1 16000)).
Proof.
  apply (mono_round_trip 0 [Samples.half; Samples.minus_half] 16000 2 []
           MoreSamples.mono_encoded).
  - lia.
  - lia.
  - vm_compute. reflexivity.
  - vm_compute. reflexivity.
Defined.

(* ----------------------------------------------------------------- *)
(** ** The loudest-segment finder: which windows it can return *)

Lemma slide_window_below (n : nat) (input : list Float32.float)
    (desired_samples i : Z) (current_volume_sum loudest_volume : Float32.float)
    (loudest_end_index : Z) :
  0 <= desired_samples <= i ->
  i + Z.of_nat n <= Z.of_nat (List.length input) ->
  desired_samples <= loudest_end_index < Z.of_nat (List.length input) ->
  exists e,
    slide_window n input desired_samples i current_volume_sum loudest_volume
      loudest_end_index = Some e
    /\ desired_samples <= e < Z.of_nat (List.length input).
Proof.
  revert i current_volume_sum loudest_volume loudest_end_index.
  induction n as [|n IH]; intros i cur loud e0 Hi Hn He.
  - exists e0. now split.
  - cbn [slide_window].
    destruct (vec_at_defined input (i - desired_samples) ltac:(lia))
      as [trailing ->].
    destruct (vec_at_defined input i ltac:(lia)) as [leading ->].
    destruct (Float32.gtb _ loud); apply IH; lia.
Qed.

Lemma trim_window (input : list Float32.float) (desired_samples : Z) :
  0 <= desired_samples < Z.of_nat (List.length input) ->
  exists start : nat,
    TrimToLoudestSegment input desired_samples
    = Some (window input start (Z.to_nat desired_samples))
    /\ (start + Z.to_nat desired_samples < List.length input)%nat.
Proof.
  intros Hd. unfold TrimToLoudestSegment.
  destruct (Z.geb_spec desired_samples (Z.of_nat (List.length input)))
    as [Hge | Hlt]; [lia|].
  destruct (first_window_volume_defined (Z.to_nat desired_samples) input 0
              Float32.zero ltac:(lia) ltac:(lia)) as [v ->].
  destruct (slide_window_below
              (Z.to_nat (Z.of_nat (List.length input) - desired_samples))
              input desired_samples desired_samples v v desired_samples
              ltac:(lia) ltac:(lia) ltac:(lia)) as (e & -> & He).
  unfold copy_range.
  replace (0 <=? e - desired_samples) with true
    by (symmetry; apply Z.leb_le; lia).
  replace (e - desired_samples <=? e) with true
    by (symmetry; apply Z.leb_le; lia).
  replace (e <=? Z.of_nat (List.length input)) with true
    by (symmetry; apply Z.leb_le; lia).
  cbn [andb]. exists (Z.to_nat (e - desired_samples)). unfold window.
  replace (e - (e - desired_samples)) with desired_samples by lia.
  split; [reflexivity | lia].
Qed.

(** For a window shorter than the buffer (and not negative) the function
    is defined and returns a window of the input of exactly that many
    samples, and never the window that ends the buffer: the start it picks
    is at most [size - desired_samples - 1]. *)
Theorem TrimToLoudestSegment_returns_inner_window
    (input : list Float32.float) (desired_samples : Z) :
  0 <= desired_samples < Z.of_nat (List.length input) ->
  exists start : nat,
    TrimToLoudestSegment input desired_samples
    = Some (window input start (Z.to_nat desired_samples))
    /\ List.length (window input start (Z.to_nat desired_samples))
       = Z.to_nat desired_samples
    /\ (start + Z.to_nat desired_samples < List.length input)%nat.
Proof.
  intros Hd. destruct (trim_window input desired_samples Hd)
    as (start & Htrim & Hin).
  exists start. split; [exact Htrim|]. split; [|exact Hin].
  unfold window. rewrite length_firstn, length_skipn. lia.
Qed.

Lemma TrimToLoudestSegment_returns_inner_window_witness :
  exists start : nat,
    TrimToLoudestSegment Samples.loud_in_the_middle 3
    = Some (window Samples.loud_in_the_middle start (Z.to_nat 3))
    /\ List.length (window Samples.loud_in_the_middle start (Z.to_nat 3))
       = Z.to_nat 3
    /\ (start + Z.to_nat 3 < List.length Samples.loud_in_the_middle)%nat.
Proof.
  apply (TrimToLoudestSegment_returns_inner_window
           Samples.loud_in_the_middle 3).
  simpl. lia.
Defined.

(** A negative window length makes the second loop read [input[i]] at a
    negative index: the call is undefined, for every buffer. *)
Theorem TrimToLoudestSegment_negative_window (input : list Float32.float)
    (desired_samples : Z) :
  desired_samples < 0 ->
  TrimToLoudestSegment input desired_samples = None.
Proof.
  intros Hneg. unfold TrimToLoudestSegment.
  destruct (Z.geb_spec desired_samples (Z.of_nat (List.length input)));
    [lia|].
  replace (Z.to_nat desired_samples) with O by lia.
  cbn [first_window_volume].
  destruct (Z.to_nat (Z.of_nat (List.length input) - desired_samples))
    as [|n] eqn:E; [lia|].
  cbn [slide_window].
  assert (Hat : vec_at input desired_samples = None).
  { unfold vec_at. now rewrite (proj2 (Z.ltb_lt desired_samples 0) Hneg). }
  rewrite Hat. now destruct (vec_at input (desired_samples - desired_samples)).
Qed.

Lemma TrimToLoudestSegment_negative_window_witness :
  TrimToLoudestSegment Samples.loud_in_the_middle (-1) = None.
Proof.
  apply (TrimToLoudestSegment_negative_window Samples.loud_in_the_middle (-1)).
  lia.
Defined.

Lemma copy_range_Forall (P : Float32.float -> Prop)
    (input out : list Float32.float) (first last : Z) :
  copy_range input first last = Some out -> Forall P input -> Forall P out.
Proof.
  unfold copy_range. destruct (_ && _); [|discriminate].
  intros Hc Hall. injection Hc as <-.
  rewrite <- (firstn_skipn (Z.to_nat first) input) in Hall.
  apply Forall_app in Hall as [_ Hall].
  rewrite <- (firstn_skipn (Z.to_nat (last - first))
                (skipn (Z.to_nat first) input)) in Hall.
  now apply Forall_app in Hall as [Hall _].
Qed.

(** Whatever the function returns is made of values of the input. *)
Lemma TrimToLoudestSegment_Forall (P : Float32.float -> Prop)
    (input out : list Float32.float) (desired_samples : Z) :
  TrimToLoudestSegment input desired_samples = Some out ->
  Forall P input -> Forall P out.
Proof.
  unfold TrimToLoudestSegment.
  destruct (desired_samples >=? _).
  - intros Ht. injection Ht as <-. auto.
  - destruct (first_window_volume _ input 0 Float32.zero); [|discriminate].
    destruct (slide_window _ input desired_samples desired_samples _ _ _);
      [|discriminate].
    apply copy_range_Forall.
Qed.

(* ----------------------------------------------------------------- *)
(** ** The downmix of decoded audio *)

Lemma sum_channels_defined (n : nat) (wav_samples : list Float32.float)
    (frame_index c : Z) (total : Float32.float) :
  0 <= frame_index -> 0 <= c ->
  frame_index + c + Z.of_nat n <= Z.of_nat (List.length wav_samples) ->
  frame_index + c + Z.of_nat n <= 2 ^ 31 ->
  exists t, sum_channels n wav_samples frame_index c total = Some t.
Proof.
  revert c total. induction n as [|n IH]; intros c total Hf Hc Hl Hb.
  - now exists total.
  - cbn [sum_channels]. rewrite ltb_false by lia.
    destruct (vec_at_defined wav_samples (frame_index + c) ltac:(lia))
      as [x ->].
    apply IH; lia.
Qed.

Lemma downmix_frames_defined (n : nat) (wav_samples : list Float32.float)
    (channel_count i : Z) :
  0 < channel_count -> 0 <= i ->
  (i + Z.of_nat n) * channel_count <= Z.of_nat (List.length wav_samples) ->
  (i + Z.of_nat n) * channel_count <= 2 ^ 31 ->
  exists mono,
    downmix_frames n wav_samples channel_count i = Some mono.
Proof.
  revert i. induction n as [|n IH]; intros i Hc Hi Hl Hb.
  - now exists [].
  - cbn [downmix_frames]. rewrite ltb_false by nia.
    destruct (sum_channels_defined (Z.to_nat channel_count) wav_samples
                (i * channel_count) 0 Float32.zero)
      as [t ->]; try nia.
    destruct (IH (i + 1)) as [rest ->]; try nia.
    now eexists.
Qed.

(** On what the decoder returns the downmix reads no value out of range,
    and the mono buffer it builds has [sample_count / channel_count]
    samples, [sample_count] being the number of frames the decoder
    stored. *)
Theorem downmix_of_decoded_wav (fuel : nat) (wav : bytes) (wav_length : Z)
    (d : DecodedWav) :
  DecodeLin16WaveAsFloatVector fuel wav wav_length = Some (Ret d) ->
  exists mono,
    downmix_to_mono (float_values d) (sample_count d) (channel_count d)
    = Some mono
    /\ Z.of_nat (List.length mono) = sample_count d / channel_count d.
Proof.
  intros Hd.
  destruct (decoded_wav_facts fuel wav wav_length d Hd)
    as (_ & _ & _ & _ & _ & Hch & Hsc & Hlen & Hsmall & _).
  assert (Hq : 0 <= sample_count d / channel_count d <= sample_count d).
  { split; [apply Z.div_pos; lia|].
    apply Z.div_le_upper_bound; [lia | nia]. }
  assert (Hm : sample_count d / channel_count d * channel_count d
               <= sample_count d)
    by (rewrite Z.mul_comm; apply Z.mul_div_le; lia).
  assert (Hs : sample_count d <= sample_count d * channel_count d) by nia.
  unfold downmix_to_mono.
  replace (channel_count d =? 0) with false by (symmetry; apply Z.eqb_neq; lia).
  rewrite to_int_small by lia.
  rewrite ltb_false by lia.
  destruct (downmix_frames_defined
              (Z.to_nat (sample_count d / channel_count d)) (float_values d)
              (channel_count d) 0) as [mono Hmono]; try lia.
  exists mono. split; [exact Hmono|].
  apply downmix_frames_length in Hmono. lia.
Qed.

Lemma downmix_of_decoded_wav_witness :
  exists mono,
    downmix_to_mono
      (float_values
         (mkDecodedWav
            [Samples.half; Samples.minus_half;
             Samples.quarter; Samples.minus_quarter] 2 2 16000))
      (sample_count
         (mkDecodedWav
            [Samples.half; Samples.minus_half;
             Samples.quarter; Samples.minus_quarter] 2 2 16000))
      (channel_count
         (mkDecodedWav
            [Samples.half; Samples.minus_half;
             Samples.quarter; Samples.minus_quarter] 2 2 16000))
    = Some mono
    /\ Z.of_nat (List.length mono)
       = sample_count
           (mkDecodedWav
              [Samples.half; Samples.minus_half;
               Samples.quarter; Samples.minus_quarter] 2 2 16000)
         / channel_count
             (mkDecodedWav
                [Samples.half; Samples.minus_half;
                 Samples.quarter; Samples.minus_quarter] 2 2 16000).
Proof.
  apply (downmix_of_decoded_wav 1 Samples.stereo_two_frames
           (Z.of_nat (List.length Samples.stereo_two_frames))).
  vm_compute. reflexivity.
Defined.

(* ----------------------------------------------------------------- *)
(** ** The trim pipeline on mono input *)

(** [TrimFile] returns an error status only when the decoder failed, and
    then it has done nothing but log the failure: no encoder call and no
    output file. *)
Theorem TrimFile_error_comes_from_decoder (fuel : nat) (input_file : bytes)
    (desired_length_ms : Z) (min_volume : Float32.float) (s : Status)
    (events : list Event) :
  TrimFile fuel input_file desired_length_ms min_volume
  = Some (Returned s events) ->
  s <> StatusOK ->
  DecodeLin16WaveAsFloatVector fuel input_file
    (Z.of_nat (List.length input_file)) = Some (Fail s)
  /\ events = [LogDecodeFailed s].
Proof.
  unfold TrimFile.
  destruct (DecodeLin16WaveAsFloatVector fuel input_file _)
    as [[wav| s'|]|]; try discriminate.
  - destruct (loudest_slice wav desired_length_ms) as [[trimmed desired]|];
      [|discriminate].
    destruct (Float32.ltb _ min_volume).
    + intros H Hs. injection H as <- _. contradiction.
    + destruct (EncodeAudioAsS16LEWav _ _ _ _ _); try discriminate;
        intros H Hs; injection H as <- _; contradiction.
  - intros H _. injection H as <- <-. now split.
Qed.

Lemma TrimFile_error_comes_from_decoder_witness :
  DecodeLin16WaveAsFloatVector 1 Samples.no_data_chunk
    (Z.of_nat (List.length Samples.no_data_chunk))
  = Some (Fail (StatusError error.INVALID_ARGUMENT
                  "No data chunk found in WAV"))
  /\ [LogDecodeFailed (StatusError error.INVALID_ARGUMENT
                         "No data chunk found in WAV")]
     = [LogDecodeFailed (StatusError error.INVALID_ARGUMENT
                           "No data chunk found in WAV")].
Proof.
  apply (TrimFile_error_comes_from_decoder 1 Samples.no_data_chunk
           main_desired_length_ms main_min_volume).
  - vm_compute. reflexivity.
  - discriminate.
Defined.

Lemma pcm16_quantized (l : list Float32.float) :
  Forall is_pcm16_sample l ->
  exists ss,
    List.length ss = List.length l /\ quantized l ss
    /\ map Int16SampleToFloat ss = l.
Proof.
  induction 1 as [|x l (s & Hs & ->) Hall (ss & Hlen & Hq & Hmap)].
  - exists []. repeat split. constructor.
  - exists (s :: ss). split; [cbn; lia|]. split.
    + constructor; [|exact Hq].
      now apply FloatToInt16Sample_Int16SampleToFloat.
    + cbn [map]. now rewrite Hmap.
Qed.

(** What [quantized] relates to decoded audio are the samples it came
    from. *)
Lemma quantized_pcm16 (l : list Float32.float) (ss : list Z) :
  Forall is_pcm16_sample l -> quantized l ss ->
  map Int16SampleToFloat ss = l.
Proof.
  intros Hall Hq. induction Hq as [|x s l ss Hs Hq IH]; [reflexivity|].
  inversion Hall as [|? ? (s' & Hr & ->) Hall']; subst.
  rewrite FloatToInt16Sample_Int16SampleToFloat in Hs by exact Hr.
  injection Hs as <-. cbn [map]. now rewrite IH.
Qed.

(** On decoded audio of one channel the encoder is defined: it returns OK
    or an error. *)
Lemma encoder_defined_on_pcm16 (audio : list Float32.float)
    (sample_rate : Z) (old : bytes) :
  Forall is_pcm16_sample audio ->
  Z.of_nat (List.length audio) < 2 ^ 62 ->
  EncodeAudioAsS16LEWav (vector_data audio) sample_rate 1
    (Z.of_nat (List.length audio)) (Some old) <> Undef.
Proof.
  intros Hall Hlen.
  destruct audio as [|x audio']; [discriminate|].
  set (audio := x :: audio') in *.
  change (vector_data audio) with (Some audio).
  unfold EncodeAudioAsS16LEWav.
  destruct (_ || _); [discriminate|].
  destruct (_ || _); [discriminate|].
  destruct (_ =? 0); [discriminate|].
  change (16 / 8) with 2. unfold kHeaderSize.
  rewrite Z.mul_1_r.
  rewrite (to_size_t_small (Z.of_nat (List.length audio))) by lia.
  rewrite (to_size_t_small (Z.of_nat (List.length audio) * 2)) by lia.
  rewrite to_size_t_small by lia.
  destruct (_ >? kuint32max); [discriminate|].
  replace (44 + Z.of_nat (List.length audio) * 2
           =? 44 + 2 * Z.of_nat (List.length audio)) with true
    by (symmetry; apply Z.eqb_eq; lia).
  cbn [negb].
  destruct (pcm16_quantized audio Hall) as (ss & Hl & Hq & _).
  rewrite Nat2Z.id, <- Hl.
  rewrite write_audio_ok; [discriminate | lia |].
  change (skipn (Z.to_nat 0) audio) with audio.
  rewrite Hl, firstn_all. exact Hq.
Qed.

Lemma TrimToLoudestSegment_length_le (input out : list Float32.float)
    (desired_samples : Z) :
  TrimToLoudestSegment input desired_samples = Some out ->
  (List.length out <= List.length input)%nat.
Proof.
  intros Ht.
  destruct (Z.le_gt_cases (Z.of_nat (List.length input)) desired_samples)
    as [Hge | Hlt].
  - rewrite TrimToLoudestSegment_whole_buffer in Ht by exact Hge.
    injection Ht as <-. lia.
  - apply TrimToLoudestSegment_length in Ht; lia.
Qed.

(** The slice of a mono file: taken from the decoded values. *)
Lemma mono_loudest_slice (wav : DecodedWav) (desired_length_ms : Z)
    (trimmed : list Float32.float) (desired_samples : Z) :
  channel_count wav = 1 ->
  loudest_slice wav desired_length_ms = Some (trimmed, desired_samples) ->
  TrimToLoudestSegment (float_values wav) desired_samples = Some trimmed.
Proof.
  intros Hch. unfold loudest_slice. rewrite Hch.
  change (negb (1 =? 1)) with false. cbv iota.
  destruct (negb (in_int64 _)); [discriminate|].
  destruct (TrimToLoudestSegment (float_values wav) _) as [out|] eqn:E;
    [|discriminate].
  intros H. injection H as -> <-. exact E.
Qed.

(** For a mono file that decodes and a requested length that is not
    negative (its product with the sample rate within [int64_t]),
    [TrimFile] has no undefined step, and it returns OK. *)
Theorem TrimFile_mono_returns_OK (fuel : nat) (input_file : bytes)
    (desired_length_ms : Z) (min_volume : Float32.float) (wav : DecodedWav) :
  DecodeLin16WaveAsFloatVector fuel input_file
    (Z.of_nat (List.length input_file)) = Some (Ret wav) ->
  channel_count wav = 1 ->
  0 <= desired_length_ms ->
  desired_length_ms * sample_rate wav <= 2 ^ 63 - 1 ->
  exists events,
    TrimFile fuel input_file desired_length_ms min_volume
    = Some (Returned StatusOK events).
Proof.
  intros Hd Hch Hms Hprod.
  destruct (decoded_wav_facts _ _ _ _ Hd)
    as (_ & _ & _ & _ & Hrate & _ & _ & _ & Hsmall & Hall).
  assert (Hin : in_int64 (desired_length_ms * sample_rate wav) = true).
  { unfold in_int64, kint64min, kint64max.
    apply andb_true_intro. split; apply Z.leb_le; nia. }
  assert (Hq : 0 <= Z.quot (desired_length_ms * sample_rate wav) 1000)
    by (apply Z.quot_pos; nia).
  destruct (TrimToLoudestSegment_defined (float_values wav) _ Hq)
    as [trimmed Ht].
  assert (Hs : loudest_slice wav desired_length_ms
               = Some (trimmed,
                       Z.quot (desired_length_ms * sample_rate wav) 1000)).
  { unfold loudest_slice. rewrite Hch.
    change (negb (1 =? 1)) with false. cbv iota.
    now rewrite Hin, Ht. }
  unfold TrimFile. rewrite Hd, Hs.
  destruct (Float32.ltb _ min_volume); [now eexists|].
  pose proof (TrimToLoudestSegment_Forall _ _ _ _ Ht Hall) as Hall'.
  pose proof (TrimToLoudestSegment_length_le _ _ _ Ht) as Hle.
  pose proof (encoder_defined_on_pcm16 trimmed (sample_rate wav) []
                Hall' ltac:(lia)) as Hdef.
  destruct (EncodeAudioAsS16LEWav _ _ _ _ _); [now eexists | now eexists|].
  contradiction.
Qed.

Lemma TrimFile_mono_returns_OK_witness :
  exists events,
    TrimFile 1 Samples.one_sample_file main_desired_length_ms main_min_volume
    = Some (Returned StatusOK events).
Proof.
  apply (TrimFile_mono_returns_OK 1 Samples.one_sample_file
           main_desired_length_ms main_min_volume
           (mkDecodedWav [Samples.half] 1 1 16000)).
  - vm_compute. reflexivity.
  - reflexivity.
  - vm_compute. discriminate.
  - vm_compute. discriminate.
Defined.

(** For a mono file, when [TrimFile] has called the encoder with success
    and written the output file, that file (below 2^31 bytes) decodes to
    exactly the trimmed slice: the same values, one channel, the sample
    rate of the input. *)
Theorem TrimFile_mono_output_decodes_to_slice (fuel k : nat)
    (input_file : bytes) (desired_length_ms : Z) (min_volume : Float32.float)
    (wav : DecodedWav) (trimmed : list Float32.float) (desired_samples : Z)
    (audio : option (list Float32.float)) (rate channels frames : Z)
    (output : bytes) (rest : list Event) :
  DecodeLin16WaveAsFloatVector fuel input_file
    (Z.of_nat (List.length input_file)) = Some (Ret wav) ->
  channel_count wav = 1 ->
  loudest_slice wav desired_length_ms = Some (trimmed, desired_samples) ->
  TrimFile fuel input_file desired_length_ms min_volume
  = Some (Returned StatusOK
            (CallEncode audio rate channels frames StatusOK
             :: WriteOutputFile output :: rest)) ->
  Z.of_nat (List.length output) < 2 ^ 31 ->
  DecodeLin16WaveAsFloatVector (1 + k) output (Z.of_nat (List.length output))
  = Some (Ret (mkDecodedWav trimmed (Z.of_nat (List.length trimmed)) 1
                 (sample_rate wav))).
Proof.
  intros Hd Hch Hs Hrun Hsmall.
  destruct (decoded_wav_facts _ _ _ _ Hd)
    as (_ & _ & _ & _ & Hrate & _ & _ & _ & Hvals & Hall).
  pose proof (mono_loudest_slice _ _ _ _ Hch Hs) as Ht.
  pose proof (TrimToLoudestSegment_Forall _ _ _ _ Ht Hall) as Hall'.
  pose proof (TrimToLoudestSegment_length_le _ _ _ Ht) as Hle.
  unfold TrimFile in Hrun. rewrite Hd, Hs in Hrun.
  destruct (Float32.ltb _ min_volume); [discriminate|].
  destruct (EncodeAudioAsS16LEWav (vector_data trimmed) (sample_rate wav) 1
              (Z.of_nat (List.length trimmed)) (Some []))
    as [out| s|] eqn:Henc; [| |discriminate].
  2: { injection Hrun as _ _ _ _ Hst _ _. subst s.
       apply encoder_failure_code in Henc. discriminate. }
  injection Hrun as _ _ _ _ <- _.
  destruct trimmed as [|x tl]; [discriminate|].
  set (trimmed := x :: tl) in *.
  change (vector_data trimmed) with (Some trimmed) in Henc.
  destruct (encoded_mono_decodes k trimmed (sample_rate wav)
              (Z.of_nat (List.length trimmed)) [] out
              ltac:(lia) ltac:(lia) Henc Hsmall) as (ss & Hq & Hdec).
  rewrite Nat2Z.id, firstn_all in Hq.
  rewrite (quantized_pcm16 _ _ Hall' Hq) in Hdec. exact Hdec.
Qed.

Lemma TrimFile_mono_output_decodes_to_slice_witness :
  DecodeLin16WaveAsFloatVector (1 + 0) MoreSamples.loud_output
    (Z.of_nat (List.length MoreSamples.loud_output))
  = Some (Ret (mkDecodedWav [Samples.half; Samples.half]
                 (Z.of_nat (List.length [Samples.half; Samples.half])) 1
                 (sample_rate
                    (mkDecodedWav [Samples.half; Samples.half; Float32.zero]
                       3 1 2)))).
Proof.
  apply (TrimFile_mono_output_decodes_to_slice 1 0 MoreSamples.loud_file
           main_desired_length_ms main_min_volume
           (mkDecodedWav [Samples.half; Samples.half; Float32.zero] 3 1 2)
           [Samples.half; Samples.half] 2
           (Some [Samples.half; Samples.half]) 2 1 2
           MoreSamples.loud_output [LogSaved]).
  - vm_compute. reflexivity.
  - reflexivity.
  - vm_compute. reflexivity.
  - vm_compute. reflexivity.
  - vm_compute. reflexivity.
Defined.

(* ----------------------------------------------------------------- *)
(** ** main.cc: file names *)

Lemma last_index_of_none (chars s : bytes) (i : Z) :
  Forall (fun c => is_one_of chars c = false) s ->
  last_index_of chars s i = None.
Proof.
  intros H. revert i. induction H as [|c s Hc Hs IH]; intros i;
    [reflexivity|].
  cbn [last_index_of]. now rewrite IH, Hc.
Qed.

Lemma last_index_of_last (chars pre post : bytes) (c : ascii) (i : Z) :
  is_one_of chars c = true ->
  Forall (fun c => is_one_of chars c = false) post ->
  last_index_of chars (pre ++ c :: post) i
  = Some (i + Z.of_nat (List.length pre)).
Proof.
  intros Hc Hpost. revert i. induction pre as [|x pre IH]; intros i.
  - cbn [app last_index_of List.length].
    rewrite last_index_of_none by exact Hpost. rewrite Hc.
    f_equal. cbn. lia.
  - cbn [app last_index_of]. rewrite IH. f_equal.
    cbn [List.length]. lia.
Qed.

(** Either no character of [s] is in [chars], or [s] splits at the last
    one that is. *)
Lemma last_index_of_spec (chars s : bytes) (i : Z) :
  (last_index_of chars s i = None
   /\ Forall (fun c => is_one_of chars c = false) s)
  \/ (exists pre c post,
        s = pre ++ c :: post /\ is_one_of chars c = true
        /\ Forall (fun c => is_one_of chars c = false) post
        /\ last_index_of chars s i = Some (i + Z.of_nat (List.length pre))).
Proof.
  revert i. induction s as [|x s IH]; intros i.
  - left. split; [reflexivity | constructor].
  - destruct (IH (i + 1)) as [[Hn Hall] | (pre & c & post & -> & Hc & Hp & Hl)].
    + destruct (is_one_of chars x) eqn:Hx.
      * right. exists [], x, s. repeat split; try assumption.
        cbn [last_index_of List.length]. rewrite Hn, Hx. f_equal. cbn. lia.
      * left. split; [|now constructor].
        cbn [last_index_of]. now rewrite Hn, Hx.
    + right. exists (x :: pre), c, post. repeat split; try assumption.
      cbn [last_index_of app]. rewrite Hl. f_equal. cbn [List.length]. lia.
Qed.

Lemma SplitFilename_at_separator (dir filename : bytes) (c : ascii) :
  Z.of_nat (List.length (dir ++ c :: filename)) < 2 ^ 64 - 1 ->
  is_one_of kSeparators c = true -> no_separator filename ->
  SplitFilename (dir ++ c :: filename) = Some (dir, filename).
Proof.
  intros Hlen Hc Hf. unfold SplitFilename, find_last_of.
  rewrite (last_index_of_last kSeparators dir filename c 0 Hc Hf).
  rewrite length_app in Hlen. cbn [List.length] in Hlen.
  unfold substr. rewrite length_app. cbn [List.length].
  rewrite to_size_t_small by lia.
  rewrite gtb_false by lia. rewrite gtb_false by lia.
  unfold npos.
  rewrite Z.min_l by lia. rewrite Z.min_r by lia.
  change (Z.to_nat 0) with O. cbn [skipn].
  replace (Z.to_nat (0 + Z.of_nat (List.length dir))) with (List.length dir)
    by lia.
  replace (Z.to_nat (0 + Z.of_nat (List.length dir) + 1))
    with (List.length dir + 1)%nat by lia.
  rewrite firstn_app, firstn_all, Nat.sub_diag. cbn [firstn].
  rewrite app_nil_r.
  rewrite skipn_app, skipn_all2 by lia.
  replace (List.length dir + 1 - List.length dir)%nat with 1%nat by lia.
  cbn [skipn app].
  rewrite firstn_all2; [reflexivity|]. lia.
Qed.

Lemma SplitFilename_without_separator (full_path : bytes) :
  Z.of_nat (List.length full_path) < 2 ^ 64 - 1 ->
  no_separator full_path ->
  SplitFilename full_path = Some (full_path, full_path).
Proof.
  intros Hlen Hf. unfold SplitFilename, find_last_of.
  rewrite (last_index_of_none kSeparators full_path 0 Hf).
  unfold substr, npos.
  change (to_size_t (2 ^ 64 - 1 + 1)) with 0.
  rewrite gtb_false by lia.
  rewrite Z.min_r by lia. rewrite Z.sub_0_r.
  change (Z.to_nat 0) with O. cbn [skipn].
  rewrite Nat2Z.id, firstn_all. reflexivity.
Qed.

(** The two shapes of a result of [SplitFilename]. *)
Lemma SplitFilename_shape (full_path : bytes) :
  Z.of_nat (List.length full_path) < 2 ^ 64 - 1 ->
  exists dir filename,
    SplitFilename full_path = Some (dir, filename)
    /\ no_separator filename
    /\ ((no_separator full_path /\ dir = full_path /\ filename = full_path)
        \/ (exists c, is_one_of kSeparators c = true
                      /\ full_path = dir ++ c :: filename)).
Proof.
  intros Hlen.
  destruct (last_index_of_spec kSeparators full_path 0)
    as [[_ Hall] | (pre & c & post & -> & Hc & Hp & _)].
  - exists full_path, full_path.
    split; [now apply SplitFilename_without_separator|].
    split; [exact Hall|]. left. now repeat split.
  - exists pre, post.
    split; [now apply SplitFilename_at_separator|].
    split; [exact Hp|]. right. now exists c.
Qed.

(** [SplitFilename] never throws.  A path with a slash or a backslash is
    cut at the last one: [dir] is what precedes it, [filename] what
    follows, and [filename] holds neither character.  A path with neither
    character comes back whole as [dir] and as [filename] alike, because
    [npos + 1] wraps to 0. *)
Theorem SplitFilename_splits_at_last_separator (full_path : bytes) :
  Z.of_nat (List.length full_path) < 2 ^ 64 - 1 ->
  exists dir filename,
    SplitFilename full_path = Some (dir, filename)
    /\ no_separator filename
    /\ ((no_separator full_path /\ dir = full_path /\ filename = full_path)
        \/ (exists c, is_one_of kSeparators c = true
                      /\ full_path = dir ++ c :: filename)).
Proof.
  intros Hlen. exact (SplitFilename_shape full_path Hlen).
Qed.

Lemma SplitFilename_splits_at_last_separator_witness :
  exists dir filename,
    SplitFilename (text "in/yes/a.wav") = Some (dir, filename)
    /\ no_separator filename
    /\ ((no_separator (text "in/yes/a.wav")
         /\ dir = text "in/yes/a.wav" /\ filename = text "in/yes/a.wav")
        \/ (exists c, is_one_of kSeparators c = true
                      /\ text "in/yes/a.wav" = dir ++ c :: filename)).
Proof.
  apply (SplitFilename_splits_at_last_separator (text "in/yes/a.wav")).
  vm_compute. reflexivity.
Defined.

(** Every output file goes straight into the output root: its name is the
    root, a slash, and the part of the input name after its last
    separator, and the directory put aside for [mkdir] is the output root
    itself, whatever directory the input file was in. *)
Theorem output_names_ignore_input_directory (output_root input_filename
    : bytes) :
  Z.of_nat (List.length output_root)
  + Z.of_nat (List.length input_filename) < 2 ^ 64 - 2 ->
  exists input_dir input_base,
    SplitFilename input_filename = Some (input_dir, input_base)
    /\ output_names output_root input_filename
       = Some (output_root ++ text "/" ++ input_base, output_root).
Proof.
  intros Hlen.
  destruct (SplitFilename_shape input_filename
              ltac:(lia)) as (dir & base & Hsplit & Hbase & Hshape).
  exists dir, base. split; [exact Hsplit|].
  unfold output_names. rewrite Hsplit.
  assert (Hb : (List.length base <= List.length input_filename)%nat).
  { destruct Hshape as [(_ & _ & ->) | (c & _ & ->)]; [lia|].
    rewrite length_app. cbn [List.length]. lia. }
  change (output_root ++ text "/" ++ base)
    with (output_root ++ "/"%char :: base).
  rewrite SplitFilename_at_separator;
    [reflexivity | idtac | reflexivity | exact Hbase].
  rewrite length_app. cbn [List.length]. lia.
Qed.

Lemma output_names_ignore_input_directory_witness :
  exists input_dir input_base,
    SplitFilename (text "in/yes/a.wav") = Some (input_dir, input_base)
    /\ output_names (text "out") (text "in/yes/a.wav")
       = Some (text "out" ++ text "/" ++ input_base, text "out").
Proof.
  apply (output_names_ignore_input_directory (text "out")
           (text "in/yes/a.wav")).
  vm_compute. reflexivity.
Defined.

(* ----------------------------------------------------------------- *)
(** ** The decoder: chunks around the data chunk *)

Lemma scan_after_add (n m : nat) (wav : bytes) (wav_length : Z)
    (fmt : FormatInfo) (st st' : ScanState) :
  scan_after n wav wav_length fmt st = Some st' ->
  scan_after (n + m) wav wav_length fmt st
  = scan_after m wav wav_length fmt st'.
Proof.
  revert st. induction n as [|n IH]; intros st H.
  - cbn in H. injection H as ->. reflexivity.
  - cbn [scan_after Nat.add] in *.
    destruct (scan_continues wav_length st); [|discriminate].
    destruct (scan_chunk wav wav_length fmt st) as [st1| |];
      try discriminate.
    now apply IH.
Qed.

Lemma slice_prefix (a b : bytes) (n : Z) :
  n = Z.of_nat (List.length a) -> slice (a ++ b) 0 n = a.
Proof.
  intros ->. unfold slice. change (Z.to_nat 0) with O. cbn [skipn].
  rewrite Nat2Z.id, firstn_app, firstn_all, Nat.sub_diag. cbn [firstn].
  apply app_nil_r.
Qed.

(** The header of a chunk that lies in the buffer, after [before]. *)
Lemma chunk_header_at_chunk (before after id payload : bytes) (size : Z) :
  List.length id = 4%nat -> 0 <= size < 2 ^ 32 ->
  Z.of_nat (List.length before) + 8 < 2 ^ 31 ->
  chunk_header_at (before ++ (id ++ EncodeFixed32 size ++ payload) ++ after)
    (Z.of_nat (List.length
                 (before ++ (id ++ EncodeFixed32 size ++ payload) ++ after)))
    (Z.of_nat (List.length before))
  = Some (id, size, Z.of_nat (List.length before) + 8).
Proof.
  intros Hid Hsz Hb. unfold chunk_header_at, ReadValue_uint32.
  set (wav := before ++ (id ++ EncodeFixed32 size ++ payload) ++ after).
  assert (Hlen : Z.of_nat (List.length before) + 8
                 <= Z.of_nat (List.length wav)).
  { unfold wav. rewrite !length_app.
    change (List.length (EncodeFixed32 size)) with 4%nat. lia. }
  rewrite ReadString_ok by lia.
  rewrite (ReadValue_ok wav _ 4 (fun v => v)
             (Z.of_nat (List.length before) + 4)
             (Z.of_nat (List.length before) + 8)) by lia.
  assert (Hs1 : slice wav (Z.of_nat (List.length before)) 4 = id).
  { unfold wav.
    replace (Z.of_nat (List.length before))
      with (Z.of_nat (List.length before) + 0) by lia.
    rewrite slice_app_skip by lia. rewrite <- !app_assoc.
    apply slice_prefix. lia. }
  assert (Hs2 : field wav (Z.of_nat (List.length before) + 4) 4 = size).
  { unfold field, wav. rewrite slice_app_skip by lia.
    rewrite <- !app_assoc.
    replace 4 with (Z.of_nat (List.length id) + 0) at 1 by lia.
    rewrite slice_app_skip by lia.
    rewrite slice_prefix by reflexivity.
    rewrite le_value_EncodeFixed32. now apply to_uint32_small. }
  now rewrite Hs1, Hs2.
Qed.

Lemma chunk_bytes_length (c : bytes * bytes) :
  List.length (fst c) = 4%nat ->
  Z.of_nat (List.length (chunk_bytes c))
  = 8 + Z.of_nat (List.length (snd c)).
Proof.
  intros H. unfold chunk_bytes. rewrite !length_app.
  change (List.length (EncodeFixed32 _)) with 4%nat. lia.
Qed.

(** Chunks that are not the data chunk are stepped over, one iteration
    each, and leave the other scan variables as they were. *)
Lemma scan_after_other_chunks (chunks : list (bytes * bytes))
    (before after : bytes) (fmt : FormatInfo) (found : bool) (sc : Z)
    (vals : list Float32.float) :
  Forall other_chunk chunks ->
  Z.of_nat (List.length (before ++ chunks_bytes chunks ++ after)) < 2 ^ 31 ->
  scan_after (List.length chunks) (before ++ chunks_bytes chunks ++ after)
    (Z.of_nat (List.length (before ++ chunks_bytes chunks ++ after))) fmt
    (mkScanState (Z.of_nat (List.length before)) found sc vals)
  = Some (mkScanState
            (Z.of_nat (List.length before)
             + Z.of_nat (List.length (chunks_bytes chunks))) found sc vals).
Proof.
  intros Hall. revert before.
  induction Hall as [|c chunks [Hid Hne] Hall IH]; intros before Hlen.
  - cbn. do 2 f_equal. lia.
  - unfold chunks_bytes in *. cbn [map List.concat List.length scan_after].
    cbn [map List.concat] in Hlen.
    set (rest := List.concat (map chunk_bytes chunks)) in *.
    set (wav := before ++ (chunk_bytes c ++ rest) ++ after) in *.
    assert (Hwl : Z.of_nat (List.length wav)
                  = Z.of_nat (List.length before) + 8
                    + Z.of_nat (List.length (snd c))
                    + Z.of_nat (List.length rest)
                    + Z.of_nat (List.length after)).
    { unfold wav. rewrite !length_app, !Nat2Z.inj_add.
      rewrite chunk_bytes_length by exact Hid. lia. }
    replace (scan_continues (Z.of_nat (List.length wav)) _) with true
      by (symmetry; unfold scan_continues; cbn [scan_offset];
          rewrite to_size_t_small by lia; apply Z.ltb_lt; lia).
    assert (Hwav : wav = before
                         ++ (fst c
                             ++ EncodeFixed32 (Z.of_nat (List.length (snd c)))
                             ++ snd c) ++ (rest ++ after)).
    { unfold wav, chunk_bytes. now rewrite <- !app_assoc. }
    assert (Hhdr : chunk_header_at wav (Z.of_nat (List.length wav))
                     (Z.of_nat (List.length before))
                   = Some (fst c, Z.of_nat (List.length (snd c)),
                           Z.of_nat (List.length before) + 8)).
    { rewrite Hwav. apply chunk_header_at_chunk; [exact Hid | lia | lia]. }
    rewrite (scan_chunk_skip wav _ fmt
               (mkScanState (Z.of_nat (List.length before)) found sc vals)
               _ _ _ Hhdr Hne).
    cbn [was_data_found scan_sample_count scan_float_values].
    rewrite (to_uint32_small (Z.of_nat (List.length before) + 8)) by lia.
    rewrite to_uint32_small by lia. rewrite to_int_small by lia.
    assert (Hwav' : wav = (before ++ chunk_bytes c) ++ rest ++ after).
    { unfold wav. now rewrite <- !app_assoc. }
    rewrite Hwav'.
    replace (Z.of_nat (List.length before) + 8
             + Z.of_nat (List.length (snd c)))
      with (Z.of_nat (List.length (before ++ chunk_bytes c)))
      by (rewrite length_app, Nat2Z.inj_add, chunk_bytes_length by exact Hid;
          lia).
    rewrite IH by (rewrite <- Hwav'; lia).
    do 2 f_equal. rewrite !length_app, !Nat2Z.inj_add. lia.
Qed.

Lemma slice_app_l (a b : bytes) (offset n : Z) :
  0 <= offset -> 0 <= n -> offset + n <= Z.of_nat (List.length a) ->
  slice (a ++ b) offset n = slice a offset n.
Proof.
  intros Ho Hn Hl. unfold slice.
  rewrite skipn_app, firstn_app, length_skipn.
  replace (Z.to_nat n - (List.length a - Z.to_nat offset))%nat with O by lia.
  cbn [firstn]. apply app_nil_r.
Qed.

Lemma samples_at_app_l (n : nat) (a b : bytes) (offset : Z) :
  0 <= offset -> offset + 2 * Z.of_nat n <= Z.of_nat (List.length a) ->
  samples_at n (a ++ b) offset = samples_at n a offset.
Proof.
  revert offset. induction n as [|n IH]; intros offset Ho Hl; [reflexivity|].
  cbn [samples_at]. unfold field. rewrite slice_app_l by lia.
  rewrite IH by lia. reflexivity.
Qed.

(** Chunks that are not the data chunk, before it and after it, do not
    change what is decoded: a buffer made of an accepted header, any such
    chunks, one data chunk of whole frames and any such chunks again
    (below 2^31 bytes in all) decodes to the samples of the data chunk,
    with its number of frames as the sample count. *)
Theorem decoder_skips_other_chunks (fuel : nat) (hdr payload : bytes)
    (before_data after_data : list (bytes * bytes)) (fmt : FormatInfo)
    (frames : Z) :
  Z.of_nat (List.length
              (hdr ++ chunks_bytes before_data
               ++ chunk_bytes (kDataChunkId, payload)
               ++ chunks_bytes after_data)) < 2 ^ 31 ->
  decode_format_chunk
    (hdr ++ chunks_bytes before_data
     ++ chunk_bytes (kDataChunkId, payload) ++ chunks_bytes after_data)
    (Z.of_nat (List.length
                 (hdr ++ chunks_bytes before_data
                  ++ chunk_bytes (kDataChunkId, payload)
                  ++ chunks_bytes after_data)))
  = Ret (fmt, Z.of_nat (List.length hdr)) ->
  Forall other_chunk before_data -> Forall other_chunk after_data ->
  fmt_bytes_per_sample fmt <> 0 -> 0 <= frames ->
  Z.of_nat (List.length payload) = frames * fmt_bytes_per_sample fmt ->
  DecodeLin16WaveAsFloatVector
    (List.length before_data + (1 + (List.length after_data + fuel)))
    (hdr ++ chunks_bytes before_data
     ++ chunk_bytes (kDataChunkId, payload) ++ chunks_bytes after_data)
    (Z.of_nat (List.length
                 (hdr ++ chunks_bytes before_data
                  ++ chunk_bytes (kDataChunkId, payload)
                  ++ chunks_bytes after_data)))
  = Some (Ret (mkDecodedWav
                 (samples_at (Z.to_nat (frames * fmt_channel_count fmt))
                    payload 0)
                 frames (fmt_channel_count fmt) (fmt_sample_rate fmt))).
Proof.
  set (pre := chunks_bytes before_data).
  set (post := chunks_bytes after_data).
  set (data := chunk_bytes (kDataChunkId, payload)).
  set (wav := hdr ++ pre ++ data ++ post).
  intros Hsmall Hh Hbefore Hafter Hbps Hframes Hpayload.
  pose proof (decode_format_chunk_spec wav (Z.of_nat (List.length wav)))
    as Hspec.
  rewrite Hh in Hspec. destruct Hspec as (_ & _ & Hacc & Hfmt & _).
  destruct (accepted_frame_size wav Hacc) as [Hfr Hch].
  assert (Hbps2 : fmt_bytes_per_sample fmt = 2 * fmt_channel_count fmt)
    by (rewrite Hfmt; exact Hfr).
  assert (Hchn : 0 < fmt_channel_count fmt).
  { rewrite Hfmt in Hbps |- *. cbn [fmt_bytes_per_sample fmt_channel_count]
      in *. lia. }
  assert (Hdl : Z.of_nat (List.length data)
                = 8 + Z.of_nat (List.length payload))
    by (apply (chunk_bytes_length (kDataChunkId, payload)); reflexivity).
  assert (Hwl : Z.of_nat (List.length wav)
                = Z.of_nat (List.length hdr) + Z.of_nat (List.length pre)
                  + 8 + Z.of_nat (List.length payload)
                  + Z.of_nat (List.length post)).
  { unfold wav. rewrite !length_app, !Nat2Z.inj_add. lia. }
  unfold DecodeLin16WaveAsFloatVector. rewrite Hh.
  (* the chunks before the data chunk *)
  rewrite (scan_chunks_after wav _ fmt (List.length before_data) _
             (scan_start (Z.of_nat (List.length hdr)))
             (mkScanState (Z.of_nat (List.length hdr)
                           + Z.of_nat (List.length pre)) false 0 [])).
  2: { apply (scan_after_other_chunks before_data hdr (data ++ post) fmt
                false 0 [] Hbefore). exact Hsmall. }
  (* the data chunk *)
  cbn [Nat.add scan_chunks].
  replace (scan_continues (Z.of_nat (List.length wav)) _) with true
    by (symmetry; unfold scan_continues; cbn [scan_offset];
        rewrite to_size_t_small by lia; apply Z.ltb_lt; lia).
  assert (Hwav1 : wav = (hdr ++ pre)
                        ++ (kDataChunkId
                            ++ EncodeFixed32 (Z.of_nat (List.length payload))
                            ++ payload) ++ post).
  { unfold wav, data, chunk_bytes. cbn [fst snd]. now rewrite <- !app_assoc. }
  assert (Hhdr : chunk_header_at wav (Z.of_nat (List.length wav))
                   (Z.of_nat (List.length hdr) + Z.of_nat (List.length pre))
                 = Some (kDataChunkId, Z.of_nat (List.length payload),
                         Z.of_nat (List.length hdr)
                         + Z.of_nat (List.length pre) + 8)).
  { rewrite Hwav1 at 1 2.
    replace (Z.of_nat (List.length hdr) + Z.of_nat (List.length pre))
      with (Z.of_nat (List.length (hdr ++ pre)))
      by (rewrite length_app; lia).
    apply chunk_header_at_chunk; [reflexivity | lia |].
    rewrite length_app. lia. }
  unfold chunk_header_at in Hhdr. unfold scan_chunk.
  cbn [scan_offset was_data_found].
  destruct (ReadString wav _ 4 _) as [[id off1]| |]; try discriminate.
  cbn [bind].
  destruct (ReadValue_uint32 wav _ off1) as [[sz off2]| |];
    try discriminate.
  injection Hhdr as -> -> ->. cbn [bind].
  rewrite bytes_eqb_refl.
  replace (fmt_bytes_per_sample fmt =? 0) with false
    by (symmetry; now apply Z.eqb_neq).
  rewrite Hpayload, Z.div_mul by exact Hbps.
  assert (Hcount : 2 * (frames * fmt_channel_count fmt)
                   = Z.of_nat (List.length payload)) by nia.
  rewrite to_uint32_small by nia.
  rewrite read_samples_ok by lia. cbn [bind].
  rewrite Z2Nat.id by nia.
  (* the samples are those of the payload *)
  assert (Hvals : samples_at (Z.to_nat (frames * fmt_channel_count fmt)) wav
                    (Z.of_nat (List.length hdr) + Z.of_nat (List.length pre)
                     + 8)
                  = samples_at (Z.to_nat (frames * fmt_channel_count fmt))
                      payload 0).
  { assert (Hwav2 : wav = (hdr ++ pre ++ kDataChunkId
                           ++ EncodeFixed32 (Z.of_nat (List.length payload)))
                          ++ payload ++ post).
    { unfold wav, data, chunk_bytes. cbn [fst snd].
      now rewrite <- !app_assoc. }
    rewrite Hwav2.
    replace (Z.of_nat (List.length hdr) + Z.of_nat (List.length pre) + 8)
      with (Z.of_nat (List.length
                        (hdr ++ pre ++ kDataChunkId
                         ++ EncodeFixed32 (Z.of_nat (List.length payload))))
            + 0).
    2: { rewrite !length_app, !Nat2Z.inj_add.
         change (List.length (EncodeFixed32 _)) with 4%nat.
         change (List.length kDataChunkId) with 4%nat. lia. }
    rewrite samples_at_app_skip by lia.
    apply samples_at_app_l; lia. }
  rewrite Hvals.
  (* the chunks after the data chunk *)
  assert (Hwav3 : wav = (hdr ++ pre ++ data) ++ post ++ []).
  { unfold wav. now rewrite app_nil_r, <- !app_assoc. }
  assert (Hsmall3 : Z.of_nat (List.length ((hdr ++ pre ++ data) ++ post ++ []))
                    < 2 ^ 31) by (rewrite <- Hwav3; exact Hsmall).
  rewrite (scan_chunks_after wav _ fmt (List.length after_data) fuel _
             (mkScanState (Z.of_nat (List.length wav)) true frames
                (samples_at (Z.to_nat (frames * fmt_channel_count fmt))
                   payload 0))).
  - rewrite scan_chunks_finished; [reflexivity|].
    unfold scan_continues. cbn [scan_offset].
    rewrite to_size_t_small by lia. apply Z.ltb_ge. lia.
  - replace (Z.of_nat (List.length hdr) + Z.of_nat (List.length pre) + 8
             + 2 * (frames * fmt_channel_count fmt))
      with (Z.of_nat (List.length (hdr ++ pre ++ data)))
      by (rewrite !length_app, !Nat2Z.inj_add; lia).
    replace (Z.of_nat (List.length wav))
      with (Z.of_nat (List.length (hdr ++ pre ++ data))
            + Z.of_nat (List.length (chunks_bytes after_data)))
      at 2 by (fold post; rewrite !length_app, !Nat2Z.inj_add; lia).
    rewrite Hwav3.
    apply (scan_after_other_chunks after_data (hdr ++ pre ++ data)
             (@nil ascii) fmt true frames _ Hafter).
    exact Hsmall3.
Qed.

Lemma decoder_skips_other_chunks_witness :
  DecodeLin16WaveAsFloatVector (List.length [(text "LIST", text "ab")]
                                + (1 + (List.length [(text "cue ", text "xy")] + 0)))
    (Samples.pcm_header 1 16000 32000 2
     ++ chunks_bytes [(text "LIST", text "ab")]
     ++ chunk_bytes (kDataChunkId, Samples.pcm16 [16384; -16384])
     ++ chunks_bytes [(text "cue ", text "xy")])
    (Z.of_nat (List.length
                 (Samples.pcm_header 1 16000 32000 2
                  ++ chunks_bytes [(text "LIST", text "ab")]
                  ++ chunk_bytes (kDataChunkId, Samples.pcm16 [16384; -16384])
                  ++ chunks_bytes [(text "cue ", text "xy")])))
  = Some (Ret (mkDecodedWav
                 (samples_at
                    (Z.to_nat (2 * fmt_channel_count Samples.mono_16k))
                    (Samples.pcm16 [16384; -16384]) 0)
                 2 (fmt_channel_count Samples.mono_16k)
                 (fmt_sample_rate Samples.mono_16k))).
Proof.
  apply (decoder_skips_other_chunks 0 (Samples.pcm_header 1 16000 32000 2)
           (Samples.pcm16 [16384; -16384]) [(text "LIST", text "ab")]
           [(text "cue ", text "xy")] Samples.mono_16k 2).
  - vm_compute. reflexivity.
  - vm_compute. reflexivity.
  - repeat constructor. vm_compute. discriminate.
  - repeat constructor. vm_compute. discriminate.
  - vm_compute. discriminate.
  - lia.
  - vm_compute. reflexivity.
Defined.
